(** * XI-Resource-Server: job state machine, dispatcher, reconciler, agent loop

    A shallow embedding of the coordination core of the cloud-to-lab
    compute bridge:

    - [cloud/internal/job/model.go]      statuses, the transition table,
                                         [Validate], [EnsureOutputPrefix];
    - [cloud/internal/job/store.go]      the SQL job store (one row per job);
    - [cloud/internal/queue]             the FIFO of pending job ids;
    - [cloud/internal/registry]          the in-memory agent registry;
    - [cloud/internal/gateway/gateway.go] [handleRequestJob] (dispatcher) and
                                         [handleJobStatus] (reconciler);
    - [agent/internal/client/client.go]  [processJob], [executeCommand],
                                         [truncateString], [sanitizeUTF8],
                                         the input cache and the backoff of
                                         [jobRequestLoop];
    - Go's [unicode/utf8]                [ValidString], [DecodeRuneInString]
                                         and [AppendRune], which
                                         [sanitizeUTF8] calls.

    Go strings are byte strings ([string]); Go [int], [int32] and
    [time.Duration] are [Z].  Maps are stdpp [gmap]s. *)

From Stdlib Require Import ZArith String Ascii Bool List Lia.
From stdpp Require Import base option gmap strings list fin_maps pretty.

Open Scope Z_scope.
Open Scope string_scope.

(* ===================================================================== *)
(** * Package job: model.go *)
(* ===================================================================== *)

Module job.

(** [type Status string]: a status is a string, and any string can be
    stored in one; [IsValid] tells the seven known values apart.  The type
    is written [string] below, so that the field [Status] of [Job] keeps its
    name. *)
Definition StatusPending   : string := "PENDING".
Definition StatusAssigned  : string := "ASSIGNED".
Definition StatusRunning   : string := "RUNNING".
Definition StatusSucceeded : string := "SUCCEEDED".
Definition StatusFailed    : string := "FAILED".
Definition StatusCanceled  : string := "CANCELED".
Definition StatusLost      : string := "LOST".

Definition IsValid (s : string) : bool :=
  (s =? StatusPending) || (s =? StatusAssigned) || (s =? StatusRunning) ||
  (s =? StatusSucceeded) || (s =? StatusFailed) || (s =? StatusCanceled) ||
  (s =? StatusLost).

(** The [switch s] of [CanTransitionTo], one branch per [case]. *)
Definition CanTransitionTo (s target : string) : bool :=
  if s =? StatusPending then
    (target =? StatusAssigned) || (target =? StatusCanceled)
  else if s =? StatusAssigned then
    (target =? StatusRunning) || (target =? StatusCanceled) || (target =? StatusLost)
  else if s =? StatusRunning then
    (target =? StatusSucceeded) || (target =? StatusFailed) ||
    (target =? StatusCanceled) || (target =? StatusLost)
  else if (s =? StatusSucceeded) || (s =? StatusFailed) ||
          (s =? StatusCanceled) || (s =? StatusLost) then
    false
  else false.

Definition IsTerminal (s : string) : bool :=
  (s =? StatusSucceeded) || (s =? StatusFailed) || (s =? StatusCanceled) ||
  (s =? StatusLost).

(** The errors of errors.go that the modelled code returns, and [ErrBackend]
    for the wrapped driver errors ([fmt.Errorf("failed to ...: %w", err)]). *)
Inductive error : Type :=
  | ErrInvalidJobID
  | ErrInvalidStatus
  | ErrInvalidInput
  | ErrInvalidAttemptID
  | ErrInvalidTransition
  | ErrJobNotFound
  | ErrBackend.

(** [type Job struct].  Timestamps are [Z]; [LeaseDeadline] is a nullable
    pointer.  [Message] is the [message] column that store.go reads and
    writes.  The [job_type], [forward_*] and [input_forward_mode] columns of
    store.go are carried from [Create] to [Get] untouched by every operation
    below and are left out. *)
Record Job : Type := mkJob {
  JobID : string;
  CreatedAt : Z;
  Status : string;
  InputBucket : string;
  InputKey : string;
  OutputBucket : string;
  OutputKey : string;
  OutputPrefix : string;
  OutputExtension : string;
  AttemptID : Z;
  AssignedAgentID : string;
  LeaseID : string;
  LeaseDeadline : option Z;
  Command : string;
  Message : string;
  Stdout : string;
  Stderr : string
}.

Definition with_Status (v : string) (j : Job) : Job :=
  mkJob (JobID j) (CreatedAt j) v (InputBucket j) (InputKey j) (OutputBucket j)
        (OutputKey j) (OutputPrefix j) (OutputExtension j) (AttemptID j)
        (AssignedAgentID j) (LeaseID j) (LeaseDeadline j) (Command j)
        (Message j) (Stdout j) (Stderr j).

Definition with_Output (key pre : string) (j : Job) : Job :=
  mkJob (JobID j) (CreatedAt j) (Status j) (InputBucket j) (InputKey j)
        (OutputBucket j) key pre (OutputExtension j) (AttemptID j)
        (AssignedAgentID j) (LeaseID j) (LeaseDeadline j) (Command j)
        (Message j) (Stdout j) (Stderr j).

Definition with_AttemptID (n : Z) (j : Job) : Job :=
  mkJob (JobID j) (CreatedAt j) (Status j) (InputBucket j) (InputKey j)
        (OutputBucket j) (OutputKey j) (OutputPrefix j) (OutputExtension j) n
        (AssignedAgentID j) (LeaseID j) (LeaseDeadline j) (Command j)
        (Message j) (Stdout j) (Stderr j).

Definition with_Assignment (agent lease : string) (deadline : option Z) (j : Job) : Job :=
  mkJob (JobID j) (CreatedAt j) (Status j) (InputBucket j) (InputKey j)
        (OutputBucket j) (OutputKey j) (OutputPrefix j) (OutputExtension j)
        (AttemptID j) agent lease deadline (Command j)
        (Message j) (Stdout j) (Stderr j).

Definition with_StdoutStderr (out err : string) (j : Job) : Job :=
  mkJob (JobID j) (CreatedAt j) (Status j) (InputBucket j) (InputKey j)
        (OutputBucket j) (OutputKey j) (OutputPrefix j) (OutputExtension j)
        (AttemptID j) (AssignedAgentID j) (LeaseID j) (LeaseDeadline j)
        (Command j) (Message j) out err.

Definition with_Message (msg : string) (j : Job) : Job :=
  mkJob (JobID j) (CreatedAt j) (Status j) (InputBucket j) (InputKey j)
        (OutputBucket j) (OutputKey j) (OutputPrefix j) (OutputExtension j)
        (AttemptID j) (AssignedAgentID j) (LeaseID j) (LeaseDeadline j)
        (Command j) msg (Stdout j) (Stderr j).

(** [Validate]: [None] is Go's [nil]. *)
Definition Validate (j : Job) : option error :=
  if JobID j =? "" then Some ErrInvalidJobID
  else if negb (IsValid (Status j)) then Some ErrInvalidStatus
  else if ((InputBucket j =? "") && negb (InputKey j =? "")) ||
          (negb (InputBucket j =? "") && (InputKey j =? ""))
       then Some ErrInvalidInput
  else if (AttemptID j <? 1)%Z then Some ErrInvalidAttemptID
  else None.

(** [len(s) >= len(prefix) && s[:len(prefix)] == prefix] *)
Definition startsWith (s pre : string) : bool :=
  (String.length pre <=? String.length s)%nat &&
  (String.substring 0 (String.length pre) s =? pre).

(** [strconv.Itoa]: decimal digits, with a leading minus sign below zero. *)
Definition intToString (n : Z) : string := pretty n.

Definition generateDefaultOutputPrefix (j : Job) : string :=
  "jobs/" +:+ JobID j +:+ "/" +:+ intToString (AttemptID j) +:+ "/".

Definition EnsureOutputPrefix (j : Job) : Job :=
  let expectedPrefix := generateDefaultOutputPrefix j in
  if (OutputPrefix j =? "") && (OutputKey j =? "") then
    with_Output (OutputKey j) expectedPrefix j
  else if negb (OutputPrefix j =? "") then
    if negb (OutputPrefix j =? expectedPrefix) &&
       negb (startsWith (OutputPrefix j) expectedPrefix)
    then with_Output (OutputKey j) expectedPrefix j
    else j
  else if negb (OutputKey j =? "") then
    if startsWith (OutputKey j) expectedPrefix
    then with_Output "" expectedPrefix j
    else with_Output "" expectedPrefix j
  else j.

(* --------------------------------------------------------------------- *)
(** ** store.go: the SQL store *)
(* --------------------------------------------------------------------- *)

(** The [jobs] table is a finite map from [job_id] (the primary key) to the
    row.  [faults] scripts the driver: every [s.db.Exec] consumes one
    flag, and [true] makes that call return an error without touching the
    table; an exhausted script means the driver works.  Reads ([QueryRow])
    are taken to reach the table. *)
Record SQLiteStore : Type := mkStore {
  rows : gmap string Job;
  faults : list bool
}.

Inductive result (A : Type) : Type :=
  | Ok (a : A)
  | Err (e : error).
Arguments Ok {A} a.
Arguments Err {A} e.

(** [s.db.Exec(query, ...)]: [stmt] is the effect of the statement on the
    table, [None] when the table's constraints reject it. *)
Definition Exec (stmt : gmap string Job -> option (gmap string Job))
    (s : SQLiteStore) : option error * SQLiteStore :=
  match faults s with
  | true :: fs => (Some ErrBackend, mkStore (rows s) fs)
  | fs0 =>
      match stmt (rows s) with
      | Some r => (None, mkStore r (tail fs0))
      | None => (Some ErrBackend, mkStore (rows s) (tail fs0))
      end
  end.

(** [UPDATE jobs SET ... WHERE job_id = ?]: no row matching is not an
    error. *)
Definition UPDATE (f : Job -> Job) (jobID : string)
    (t : gmap string Job) : option (gmap string Job) :=
  Some (alter f jobID t).

(** Instants are nanoseconds.  [Create] hands [created_at] to the table as
    [datetime(?)] of [job.CreatedAt.Format(time.RFC3339)] and
    [lease_deadline] as [job.LeaseDeadline.Format(time.RFC3339)]: both
    columns keep the whole seconds of the instant and drop the rest. *)
Definition wholeSeconds (t : Z) : Z := (t / 1000000000 * 1000000000)%Z.

(** The row that the INSERT of [Create] writes for the job [j]. *)
Definition inserted (j : Job) : Job :=
  mkJob (JobID j) (wholeSeconds (CreatedAt j)) (Status j) (InputBucket j)
        (InputKey j) (OutputBucket j) (OutputKey j) (OutputPrefix j)
        (OutputExtension j) (AttemptID j) (AssignedAgentID j) (LeaseID j)
        (wholeSeconds <$> LeaseDeadline j) (Command j)
        (Message j) (Stdout j) (Stderr j).

(** [INSERT INTO jobs ...] under the schema of [initSchema]: [job_id] is the
    primary key, [CHECK (attempt_id >= 1)] and [CHECK (status IN (...))]. *)
Definition INSERT (j : Job) (t : gmap string Job) : option (gmap string Job) :=
  match t !! JobID j with
  | Some _ => None
  | None =>
      if (1 <=? AttemptID j)%Z && IsValid (Status j)
      then Some (<[JobID j := inserted j]> t) else None
  end.

(** [Create] works on the caller's [*Job]: the normalized job is returned
    next to the error, with its instants as the caller gave them; the table
    holds the [inserted] row. *)
Definition Create (j : Job) (s : SQLiteStore) : option error * Job * SQLiteStore :=
  match Validate j with
  | Some e => (Some e, j, s)
  | None =>
      let j' := EnsureOutputPrefix j in
      let '(err, s') := Exec (INSERT j') s in
      (err, j', s')
  end.

(** [Get]: [sql.ErrNoRows] becomes [ErrJobNotFound]; a row whose status is
    not one of the seven is an error.  Rows hold no NULL strings (that is
    how [Create] writes them), so the defaults for NULL columns do not
    arise. *)
Definition Get (jobID : string) (s : SQLiteStore) : result Job :=
  match rows s !! jobID with
  | None => Err ErrJobNotFound
  | Some j => if negb (IsValid (Status j)) then Err ErrBackend else Ok j
  end.

Definition UpdateStatus (jobID : string) (newStatus : string)
    (s : SQLiteStore) : option error * SQLiteStore :=
  if negb (IsValid newStatus) then (Some ErrInvalidStatus, s)
  else match Get jobID s with
       | Err e => (Some e, s)
       | Ok j =>
           if negb (CanTransitionTo (Status j) newStatus)
           then (Some ErrInvalidTransition, s)
           else Exec (UPDATE (with_Status newStatus) jobID) s
       end.

Definition UpdateAssignment (jobID agentID leaseID : string)
    (leaseDeadline : option Z) (s : SQLiteStore) : option error * SQLiteStore :=
  Exec (UPDATE (with_Assignment agentID leaseID leaseDeadline) jobID) s.

Definition UpdateAttemptID (jobID : string) (attemptID : Z)
    (s : SQLiteStore) : option error * SQLiteStore :=
  if (attemptID <? 1)%Z then (Some ErrBackend, s)
  else Exec (UPDATE (with_AttemptID attemptID) jobID) s.

Definition UpdateOutput (jobID outputKey outputPrefix : string)
    (s : SQLiteStore) : option error * SQLiteStore :=
  Exec (UPDATE (with_Output outputKey outputPrefix) jobID) s.

Definition UpdateStdoutStderr (jobID stdout stderr : string)
    (s : SQLiteStore) : option error * SQLiteStore :=
  Exec (UPDATE (with_StdoutStderr stdout stderr) jobID) s.

Definition UpdateMessage (jobID message : string)
    (s : SQLiteStore) : option error * SQLiteStore :=
  Exec (UPDATE (with_Message message) jobID) s.

(** The next [Exec] is not scripted to fail. *)
Definition driver_ok (s : SQLiteStore) : bool :=
  match faults s with
  | true :: _ => false
  | _ => true
  end.

(** A run of [UpdateStatus] calls on one job, the errors dropped. *)
Fixpoint UpdateStatus_calls (jobID : string) (targets : list string)
    (s : SQLiteStore) : SQLiteStore :=
  match targets with
  | [] => s
  | t :: ts => UpdateStatus_calls jobID ts (snd (UpdateStatus jobID t s))
  end.

(** The transition table as section 4.3 of the specification lists it. *)
Definition transition_table : list (string * string) :=
  [ ("PENDING", "ASSIGNED"); ("PENDING", "CANCELED");
    ("ASSIGNED", "RUNNING"); ("ASSIGNED", "CANCELED"); ("ASSIGNED", "LOST");
    ("RUNNING", "SUCCEEDED"); ("RUNNING", "FAILED");
    ("RUNNING", "CANCELED"); ("RUNNING", "LOST") ].

(* --------------------------------------------------------------------- *)
(** ** model.go and store.go: the remaining helpers *)
(* --------------------------------------------------------------------- *)

(** [GetOutputPath]: the key if there is one, else the prefix. *)
Definition GetOutputPath (j : Job) : string :=
  if negb (OutputKey j =? "") then OutputKey j else OutputPrefix j.

(** How far a status is along the life of a job: PENDING, ASSIGNED, RUNNING,
    then the terminal statuses (and anything that is not a status). *)
Definition progress (s : string) : nat :=
  if s =? StatusPending then 0
  else if s =? StatusAssigned then 1
  else if s =? StatusRunning then 2
  else 3.

(** The number of calls, in a run of [UpdateStatus] calls on one job, that
    return [nil]. *)
Fixpoint UpdateStatus_successes (jobID : string) (targets : list string)
    (s : SQLiteStore) : nat :=
  match targets with
  | [] => 0
  | t :: ts =>
      let '(err, s') := UpdateStatus jobID t s in
      (match err with None => 1 | Some _ => 0 end
       + UpdateStatus_successes jobID ts s')%nat
  end.

(** What the schema of [initSchema] guarantees of a table: each row sits
    under its own [job_id], its status is one of the seven
    ([CHECK (status IN ...)]) and [CHECK (attempt_id >= 1)] holds. *)
Definition schema_ok (t : gmap string Job) : Prop :=
  forall jobID j, t !! jobID = Some j ->
    JobID j = jobID /\ IsValid (Status j) = true /\ (1 <= AttemptID j)%Z.

End job.

(* ===================================================================== *)
(** * Package queue: InMemoryQueue, the FIFO of job ids *)
(* ===================================================================== *)

Module queue.

Inductive error : Type :=
  | ErrQueueEmpty
  | ErrEmptyJobID.

(** [q.items = append(q.items, jobID)], refused for the empty id. *)
Definition Enqueue (jobID : string) (items : list string)
    : option error * list string :=
  if jobID =? "" then (Some ErrEmptyJobID, items)
  else (None, (items ++ [jobID])%list).

(** [jobID := q.items[0]; q.items = q.items[1:]] *)
Definition Dequeue (items : list string) : (string * list string) + error :=
  match items with
  | [] => inr ErrQueueEmpty
  | jobID :: rest => inl (jobID, rest)
  end.

(** [Peek]: the id [Dequeue] would return, the queue left alone. *)
Definition Peek (items : list string) : string + error :=
  match items with
  | [] => inr ErrQueueEmpty
  | jobID :: _ => inl jobID
  end.

(** [int64(len(q.items))] *)
Definition Size (items : list string) : Z := Z.of_nat (length items).

(** The errors of [Remove]. *)
Inductive remove_error : Type :=
  | RemoveEmptyJobID
  | ErrJobNotInQueue.

(** The [for i, item := range q.items] loop of [Remove]: the items with the
    first one equal to [jobID] cut out, [None] if the loop ends without a
    match. *)
Fixpoint removeFirst (jobID : string) (items : list string) : option (list string) :=
  match items with
  | [] => None
  | item :: rest =>
      if item =? jobID then Some rest
      else match removeFirst jobID rest with
           | Some rest' => Some (item :: rest')
           | None => None
           end
  end.

Definition Remove (jobID : string) (items : list string)
    : option remove_error * list string :=
  if jobID =? "" then (Some RemoveEmptyJobID, items)
  else match removeFirst jobID items with
       | Some items' => (None, items')
       | None => (Some ErrJobNotInQueue, items)
       end.

(** [Enqueue] of each id of [jobIDs] in turn, the errors dropped. *)
Fixpoint EnqueueAll (jobIDs : list string) (items : list string) : list string :=
  match jobIDs with
  | [] => items
  | jobID :: rest => EnqueueAll rest (snd (Enqueue jobID items))
  end.

(** [n] calls of [Dequeue]: the ids they returned, in order, and the queue
    left; a call on the empty queue returns nothing. *)
Fixpoint DequeueN (n : nat) (items : list string) : list string * list string :=
  match n with
  | O => ([], items)
  | S k =>
      match Dequeue items with
      | inl (jobID, rest) =>
          let '(got, remaining) := DequeueN k rest in (jobID :: got, remaining)
      | inr _ => ([], items)
      end
  end.

End queue.

(* ===================================================================== *)
(** * Package registry *)
(* ===================================================================== *)

Module registry.

(** Instants and durations are nanoseconds. *)
Definition Second : Z := 1000000000.

Record AgentInfo : Type := mkAgentInfo {
  AgentID : string;
  Hostname : string;
  MaxConcurrency : Z;
  Paused : bool;
  RunningJobs : Z;
  LastHeartbeat : Z;
  ConnectedAt : Z
}.

(** [now] is the reading of [time.Now()] inside the call. *)
Definition Register (now : Z) (agentID hostname : string) (maxConcurrency : Z)
    (agents : gmap string AgentInfo) : gmap string AgentInfo :=
  match agents !! agentID with
  | Some agent =>
      <[agentID := mkAgentInfo (AgentID agent) hostname maxConcurrency
                     (Paused agent) (RunningJobs agent) now (ConnectedAt agent)]> agents
  | None =>
      <[agentID := mkAgentInfo agentID hostname maxConcurrency false 0 now now]> agents
  end.

Definition UpdateHeartbeat (now : Z) (agentID : string) (paused : bool)
    (runningJobs : Z) (agents : gmap string AgentInfo) : gmap string AgentInfo :=
  match agents !! agentID with
  | Some agent =>
      <[agentID := mkAgentInfo (AgentID agent) (Hostname agent)
                     (MaxConcurrency agent) paused runningJobs now
                     (ConnectedAt agent)]> agents
  | None => agents
  end.

Definition Unregister (agentID : string) (agents : gmap string AgentInfo)
    : gmap string AgentInfo :=
  delete agentID agents.

(** [nil, false] is [None]. *)
Definition GetAgent (now : Z) (agentID : string)
    (agents : gmap string AgentInfo) : option AgentInfo :=
  match agents !! agentID with
  | None => None
  | Some agent =>
      if (now - LastHeartbeat agent >=? 60 * Second)%Z then None else Some agent
  end.

(** [GetOnline]: the agents whose last heartbeat is less than 60 seconds
    old.  Go ranges over the map in no fixed order; here the agents come in
    the order of the map's enumeration. *)
Definition GetOnline (now : Z) (agents : gmap string AgentInfo) : list AgentInfo :=
  List.filter (fun agent => (now - LastHeartbeat agent <? 60 * Second)%Z)
              (List.map snd (map_to_list agents)).

End registry.

(* ===================================================================== *)
(** * Package control: the messages the two handlers receive and send *)
(* ===================================================================== *)

Module control.

(** [JobStatusEnum] is an [int32] on the wire: any value can arrive. *)
Definition JobStatusEnum_JOB_STATUS_UNKNOWN   : Z := 0.
Definition JobStatusEnum_JOB_STATUS_ASSIGNED  : Z := 1.
Definition JobStatusEnum_JOB_STATUS_RUNNING   : Z := 2.
Definition JobStatusEnum_JOB_STATUS_SUCCEEDED : Z := 3.
Definition JobStatusEnum_JOB_STATUS_FAILED    : Z := 4.
Definition JobStatusEnum_JOB_STATUS_CANCELED  : Z := 5.
Definition JobStatusEnum_JOB_STATUS_LOST      : Z := 6.

Record RequestJob : Type := mkRequestJob {
  RequestJob_AgentId : string
}.

Record JobStatus : Type := mkJobStatus {
  JobStatus_JobId : string;
  JobStatus_AttemptId : Z;
  JobStatus_Status : Z;
  JobStatus_Message : string;
  JobStatus_OutputKey : string;
  JobStatus_Stdout : string;
  JobStatus_Stderr : string
}.

Record JobAssigned : Type := mkJobAssigned {
  JobAssigned_JobId : string;
  JobAssigned_AttemptId : Z;
  JobAssigned_LeaseId : string;
  JobAssigned_LeaseTtlSec : Z;
  JobAssigned_InputDownload : string;
  JobAssigned_InputKey : string;
  JobAssigned_OutputUpload : string;
  JobAssigned_OutputPrefix : string;
  JobAssigned_OutputKey : string;
  JobAssigned_Command : string
}.

(** The header of an incoming [Envelope]; its payload reaches the handler
    as a separate argument, as in [handleMessage]. *)
Record Envelope : Type := mkEnvelope {
  AgentId : string;
  RequestId : string;
  Timestamp : Z
}.

(** The one frame the dispatcher sends: an [Envelope] whose payload is
    [Envelope_JobAssigned]. *)
Record JobAssignedEnvelope : Type := mkJobAssignedEnvelope {
  Out_RequestId : string;
  Out_Timestamp : Z;
  Out_JobAssigned : JobAssigned
}.

Record Heartbeat : Type := mkHeartbeat {
  Heartbeat_AgentId : string;
  Heartbeat_Paused : bool;
  Heartbeat_RunningJobs : Z
}.

(** The reply to a heartbeat: an [Envelope] whose payload is
    [Envelope_HeartbeatAck]. *)
Record HeartbeatAckEnvelope : Type := mkHeartbeatAckEnvelope {
  Ack_RequestId : string;
  Ack_Timestamp : Z;
  Ack_Success : bool
}.

(** [JobTypeEnum], and the [Auth] oneof of an [OSSAccess] as the agent
    switches on it: a presigned URL, STS credentials, or neither. *)
Definition JobTypeEnum_JOB_TYPE_UNKNOWN      : Z := 0.
Definition JobTypeEnum_JOB_TYPE_COMMAND      : Z := 1.
Definition JobTypeEnum_JOB_TYPE_FORWARD_HTTP : Z := 2.

Inductive OSSAccess : Type :=
  | OSSAccess_PresignedUrl (PresignedUrl : string)
  | OSSAccess_Sts
  | OSSAccess_unset.

End control.

(* ===================================================================== *)
(** * Package gateway: dispatcher and status reconciler *)
(* ===================================================================== *)

Module gateway.

Import control.

(** The state the handlers share.  [jobQueue] is [None] for a gateway built
    without a queue ([g.jobQueue == nil]). *)
Record Gateway : Type := mkGateway {
  registry : gmap string registry.AgentInfo;
  jobStore : job.SQLiteStore;
  jobQueue : option (list string)
}.

(** [SendChan] lists the frames handed to the writer, oldest first, each
    recorded as the envelope it encodes. *)
Record AgentConnection : Type := mkAgentConnection {
  AgentID : string;
  SendChan : list JobAssignedEnvelope
}.

(** What one handler call gets from outside: the clock, the fresh UUID, the
    two signing calls of the [oss.Provider] ([None] is an error) and whether
    [proto.Marshal] accepts the frame. *)
Record Env : Type := mkEnv {
  now : Z;
  NewUUID : string;
  GenerateDownloadURL : string -> option string;
  GenerateUploadURL : string -> option string;
  Marshal_ok : JobAssignedEnvelope -> bool
}.

Definition setStore (st : job.SQLiteStore) (g : Gateway) : Gateway :=
  mkGateway (registry g) st (jobQueue g).

Definition setRegistry (r : gmap string registry.AgentInfo) (g : Gateway) : Gateway :=
  mkGateway r (jobStore g) (jobQueue g).

Definition setQueue (q : list string) (g : Gateway) : Gateway :=
  mkGateway (registry g) (jobStore g) (Some q).

(** [_ = g.jobQueue.Enqueue(ctx, jobID)] *)
Definition reEnqueue (jobID : string) (g : Gateway) : Gateway :=
  match jobQueue g with
  | Some q => setQueue (snd (queue.Enqueue jobID q)) g
  | None => g
  end.

(** [int32(n)] *)
Definition int32 (n : Z) : Z := (n + 2 ^ 31) mod 2 ^ 32 - 2 ^ 31.

(** How the [for attempt := 0; attempt < maxDequeueAttempts; attempt++] loop
    is left: by the [return] on an empty queue, or past its end (by [break]
    or by the bound) with the current values of [jobID] and [j]. *)
Inductive LoopExit : Type :=
  | LoopReturn (q : list string)
  | LoopDone (jobID : string) (j : option job.Job) (q : list string).

Fixpoint dequeueLoop (attempts : nat) (jobID : string) (j : option job.Job)
    (q : list string) (st : job.SQLiteStore) : LoopExit :=
  match attempts with
  | O => LoopDone jobID j q
  | S n =>
      match queue.Dequeue q with
      | inr _ => LoopReturn q
      | inl (jobID', q') =>
          match job.Get jobID' st with
          | job.Err _ => dequeueLoop n jobID' None q' st
          | job.Ok j' =>
              if negb (job.Status j' =? job.StatusPending)
              then dequeueLoop n jobID' (Some j') q' st
              else LoopDone jobID' (Some j') q'
          end
      end
  end.

Definition maxDequeueAttempts : nat := 5.

(** [handleRequestJob] from the output-path generation on: the PENDING job
    [j] with id [jobID] is offered to the agent under [attemptID]. *)
Definition commitAssignment (env : Env) (g : Gateway) (agentConn : AgentConnection)
    (envelope : Envelope) (agentID : string) (agentInfo : registry.AgentInfo)
    (jobID : string) (j : job.Job) (attemptID : Z) : Gateway * AgentConnection :=
  let outputPrefix := "jobs/" +:+ jobID +:+ "/" +:+ pretty attemptID +:+ "/" in
  let outputExtension := job.OutputExtension j in
  let outputExtension := if outputExtension =? "" then "bin" else outputExtension in
  let outputExtension :=
    match outputExtension with
    | String "."%char rest => rest
    | _ => outputExtension
    end in
  let outputKey := outputPrefix +:+ "output." +:+ outputExtension in
  match GenerateDownloadURL env (job.InputKey j) with
  | None => (reEnqueue jobID g, agentConn)
  | Some inputDownloadURL =>
  match GenerateUploadURL env outputKey with
  | None => (reEnqueue jobID g, agentConn)
  | Some outputUploadURL =>
  let leaseID := NewUUID env in
  let leaseTTLSec := 60%Z in
  let '(err, st) := job.UpdateAssignment jobID agentID leaseID None (jobStore g) in
  let g := setStore st g in
  match err with
  | Some _ => (reEnqueue jobID g, agentConn)
  | None =>
  let '(err, st) := job.UpdateStatus jobID job.StatusAssigned (jobStore g) in
  let g := setStore st g in
  match err with
  | Some _ =>
      let '(_, st) := job.UpdateAssignment jobID "" "" None (jobStore g) in
      (reEnqueue jobID (setStore st g), agentConn)
  | None =>
  let '(err, st) := job.UpdateOutput jobID outputKey outputPrefix (jobStore g) in
  let g := setStore st g in
  match err with
  | Some _ =>
      let '(_, st) := job.UpdateStatus jobID job.StatusPending (jobStore g) in
      let g := setStore st g in
      let '(_, st) := job.UpdateAssignment jobID "" "" None (jobStore g) in
      (reEnqueue jobID (setStore st g), agentConn)
  | None =>
  let jobAssigned :=
    mkJobAssignedEnvelope (RequestId envelope) (now env / 1000000)
      (mkJobAssigned jobID (int32 attemptID) leaseID leaseTTLSec
         inputDownloadURL (job.InputKey j) outputUploadURL outputPrefix
         outputKey (job.Command j)) in
  if negb (Marshal_ok env jobAssigned) then
      let '(_, st) := job.UpdateStatus jobID job.StatusPending (jobStore g) in
      let g := setStore st g in
      let '(_, st) := job.UpdateAssignment jobID "" "" None (jobStore g) in
      (reEnqueue jobID (setStore st g), agentConn)
  else
  let g := setRegistry
             (registry.UpdateHeartbeat (now env) agentID
                (registry.Paused agentInfo) (registry.RunningJobs agentInfo + 1)
                (registry g)) g in
  (g, mkAgentConnection (AgentID agentConn) (SendChan agentConn ++ [jobAssigned])%list)
  end end end end end.

(** [handleRequestJob] from "Fix 1" on: the job [j] with id [jobID] was
    dequeued and found PENDING.  An [attempt_id] below 1 is first set to 1
    in the store. *)
Definition assignJob (env : Env) (g : Gateway) (agentConn : AgentConnection)
    (envelope : Envelope) (agentID : string) (agentInfo : registry.AgentInfo)
    (jobID : string) (j : job.Job) : Gateway * AgentConnection :=
  if (job.AttemptID j <? 1)%Z then
    let '(err, st) := job.UpdateAttemptID jobID 1 (jobStore g) in
    match err with
    | Some _ => (reEnqueue jobID (setStore st g), agentConn)
    | None =>
        commitAssignment env (setStore st g) agentConn envelope agentID agentInfo
          jobID (job.with_AttemptID 1 j) 1
    end
  else if (job.AttemptID j >? 1)%Z then
    commitAssignment env g agentConn envelope agentID agentInfo jobID j
      (job.AttemptID j)
  else
    commitAssignment env g agentConn envelope agentID agentInfo jobID j 1.

Definition handleRequestJob (env : Env) (g : Gateway) (agentConn : AgentConnection)
    (envelope : Envelope) (req : RequestJob) : Gateway * AgentConnection :=
  if negb (RequestJob_AgentId req =? "") &&
     negb (RequestJob_AgentId req =? AgentId envelope)
  then (g, agentConn) else
  let agentID := AgentId envelope in
  if agentID =? "" then (g, agentConn) else
  match registry.GetAgent (now env) agentID (registry g) with
  | None => (g, agentConn)
  | Some agentInfo =>
  if registry.Paused agentInfo then (g, agentConn) else
  if (registry.RunningJobs agentInfo >=? registry.MaxConcurrency agentInfo)%Z
  then (g, agentConn) else
  match jobQueue g with
  | None => (g, agentConn)
  | Some q =>
  match dequeueLoop maxDequeueAttempts "" None q (jobStore g) with
  | LoopReturn q => (setQueue q g, agentConn)
  | LoopDone jobID j q =>
      let g := setQueue q g in
      match j with
      | None => (g, agentConn)
      | Some j =>
          if negb (job.Status j =? job.StatusPending) then (g, agentConn)
          else assignJob env g agentConn envelope agentID agentInfo jobID j
      end
  end end end.

Definition jobStatusFromProto (status : Z) : string :=
  if (status =? JobStatusEnum_JOB_STATUS_ASSIGNED)%Z then job.StatusAssigned
  else if (status =? JobStatusEnum_JOB_STATUS_RUNNING)%Z then job.StatusRunning
  else if (status =? JobStatusEnum_JOB_STATUS_SUCCEEDED)%Z then job.StatusSucceeded
  else if (status =? JobStatusEnum_JOB_STATUS_FAILED)%Z then job.StatusFailed
  else if (status =? JobStatusEnum_JOB_STATUS_CANCELED)%Z then job.StatusCanceled
  else if (status =? JobStatusEnum_JOB_STATUS_LOST)%Z then job.StatusLost
  else job.StatusPending.

(** The "Fix 5" block that follows every terminal write:
    [agentInfo, _ := g.registry.GetAgent(agentID)] and, if the agent is there
    with [RunningJobs > 0], [UpdateHeartbeat] with one job less. *)
Definition releaseCapacity (env : Env) (agentID : string) (g : Gateway) : Gateway :=
  match registry.GetAgent (now env) agentID (registry g) with
  | Some agentInfo =>
      if (registry.RunningJobs agentInfo >? 0)%Z then
        setRegistry
          (registry.UpdateHeartbeat (now env) agentID (registry.Paused agentInfo)
             (registry.RunningJobs agentInfo - 1) (registry g)) g
      else g
  | None => g
  end.

(** [g.jobStore.UpdateStatus(jobID, target)]; on [nil] the capacity is
    released, on an error the handler only logs. *)
Definition updateStatusThenRelease (env : Env) (agentID jobID target : string)
    (g : Gateway) : Gateway :=
  let '(err, st) := job.UpdateStatus jobID target (jobStore g) in
  let g := setStore st g in
  match err with
  | Some _ => g
  | None => releaseCapacity env agentID g
  end.

(** The [switch newStatus] of [handleJobStatus]; [j] is the job as read at
    the top of the handler. *)
Definition applyStatus (env : Env) (g : Gateway) (agentID jobID : string)
    (j : job.Job) (status : JobStatus) (newStatus : string) : Gateway :=
  if newStatus =? job.StatusRunning then
    let stdout := JobStatus_Stdout status in
    let stderr := JobStatus_Stderr status in
    let g :=
      if negb (stdout =? "") || negb (stderr =? "")
      then setStore (snd (job.UpdateStdoutStderr jobID stdout stderr (jobStore g))) g
      else g in
    setStore (snd (job.UpdateStatus jobID job.StatusRunning (jobStore g))) g
  else if newStatus =? job.StatusSucceeded then
    let outputKey := JobStatus_OutputKey status in
    let stdout := JobStatus_Stdout status in
    let stderr := JobStatus_Stderr status in
    let g := setStore (snd (job.UpdateStdoutStderr jobID stdout stderr (jobStore g))) g in
    if negb (outputKey =? "") then
      if job.OutputKey j =? "" then
        updateStatusThenRelease env agentID jobID job.StatusFailed g
      else if negb (outputKey =? job.OutputKey j) then
        updateStatusThenRelease env agentID jobID job.StatusFailed g
      else updateStatusThenRelease env agentID jobID job.StatusSucceeded g
    else updateStatusThenRelease env agentID jobID job.StatusSucceeded g
  else if newStatus =? job.StatusFailed then
    let stdout := JobStatus_Stdout status in
    let stderr := JobStatus_Stderr status in
    let g := setStore (snd (job.UpdateStdoutStderr jobID stdout stderr (jobStore g))) g in
    updateStatusThenRelease env agentID jobID job.StatusFailed g
  else if (newStatus =? job.StatusCanceled) || (newStatus =? job.StatusLost) then
    if negb (job.CanTransitionTo (job.Status j) newStatus) then g
    else updateStatusThenRelease env agentID jobID newStatus g
  else
    if negb (job.CanTransitionTo (job.Status j) newStatus) then g
    else setStore (snd (job.UpdateStatus jobID newStatus (jobStore g))) g.

Definition handleJobStatus (env : Env) (g : Gateway) (agentConn : AgentConnection)
    (envelope : Envelope) (status : JobStatus) : Gateway :=
  let agentID := AgentId envelope in
  if agentID =? "" then g else
  if negb (AgentID agentConn =? agentID) then g else
  let jobID := JobStatus_JobId status in
  if jobID =? "" then g else
  match job.Get jobID (jobStore g) with
  | job.Err _ => g
  | job.Ok j =>
  if negb (job.AssignedAgentID j =? agentID) then g else
  let attemptID := JobStatus_AttemptId status in
  if negb (attemptID =? job.AttemptID j)%Z then g else
  let newStatus := jobStatusFromProto (JobStatus_Status status) in
  if negb (job.IsValid newStatus) then g else
  if job.IsTerminal (job.Status j) then g else
  applyStatus env g agentID jobID j status newStatus
  end.

(** The report [status], arriving on [agentConn] under [envelope], passes
    the checks that come before the status is looked at: it names the stored
    job [j], comes from the agent [j] is assigned to, and carries [j]'s
    attempt. *)
Definition fromAssignedAgent (g : Gateway) (agentConn : AgentConnection)
    (envelope : Envelope) (status : JobStatus) (j : job.Job) : Prop :=
  AgentId envelope <> "" /\
  AgentID agentConn = AgentId envelope /\
  JobStatus_JobId status <> "" /\
  job.rows (jobStore g) !! JobStatus_JobId status = Some j /\
  job.AssignedAgentID j = AgentId envelope /\
  JobStatus_AttemptId status = job.AttemptID j.

(** The id [jobID] taken from the queue is one the dispatcher skips: the
    store has no readable job under it, or the job is not PENDING. *)
Definition stale (st : job.SQLiteStore) (jobID : string) : Prop :=
  match job.Get jobID st with
  | job.Ok j => job.Status j <> job.StatusPending
  | job.Err _ => True
  end.

(* --------------------------------------------------------------------- *)
(** ** gateway.go: the heartbeat handler, and what the handlers keep *)
(* --------------------------------------------------------------------- *)

(** [handleHeartbeat].  [ackMarshals] tells whether [proto.Marshal] accepts
    the acknowledgement; the result carries the frame handed to
    [agentConn.SendChan], if any. *)
Definition handleHeartbeat (env : Env) (ackMarshals : bool) (g : Gateway)
    (agentConn : AgentConnection) (envelope : Envelope) (hb : Heartbeat)
    : Gateway * option HeartbeatAckEnvelope :=
  if AgentID agentConn =? "" then (g, None) else
  if negb (Heartbeat_AgentId hb =? AgentID agentConn) then (g, None) else
  let g := setRegistry
             (registry.UpdateHeartbeat (now env) (Heartbeat_AgentId hb)
                (Heartbeat_Paused hb) (Heartbeat_RunningJobs hb) (registry g)) g in
  let ack := mkHeartbeatAckEnvelope (RequestId envelope) (now env / 1000000) true in
  if negb ackMarshals then (g, None) else (g, Some ack).

(** The output extension as [handleRequestJob] uses it: "bin" for none, a
    leading dot dropped. *)
Definition outputExtensionOf (j : job.Job) : string :=
  let outputExtension := job.OutputExtension j in
  let outputExtension := if outputExtension =? "" then "bin" else outputExtension in
  match outputExtension with
  | String "."%char rest => rest
  | _ => outputExtension
  end.

(** Two tables hold the same jobs in the same statuses. *)
Definition same_statuses (t t' : gmap string job.Job) : Prop :=
  forall jobID, job.Status <$> (t' !! jobID) = job.Status <$> (t !! jobID).

(** From table [t] to table [t'] no job appears or disappears, and each job
    keeps its status or moves along one edge of the transition table. *)
Definition one_step (t t' : gmap string job.Job) : Prop :=
  forall jobID,
    match t !! jobID, t' !! jobID with
    | Some j, Some j' =>
        job.Status j' = job.Status j \/
        job.CanTransitionTo (job.Status j) (job.Status j') = true
    | None, None => True
    | _, _ => False
    end.

(** Every agent of the registry runs between 0 and [MaxConcurrency] jobs. *)
Definition capacity_ok (agents : gmap string registry.AgentInfo) : Prop :=
  forall agentID a, agents !! agentID = Some a ->
    (0 <= registry.RunningJobs a <= registry.MaxConcurrency a)%Z.

End gateway.

(* ===================================================================== *)
(** * Go's unicode/utf8, as far as sanitizeUTF8 uses it *)
(* ===================================================================== *)

Module utf8.

(** A string is its bytes; [s[i]] is the byte at index [i].  Every access
    below sits behind a length check, so that the index is in range. *)
Definition byteOf (c : ascii) : Z := Z.of_N (N_of_ascii c).
Definition charOf (b : Z) : ascii := ascii_of_N (Z.to_N b).

Definition index (s : string) (i : nat) : Z :=
  match String.get i s with
  | Some c => byteOf c
  | None => 0
  end.

(** [s[n:]] *)
Fixpoint from (n : nat) (s : string) : string :=
  match n, s with
  | O, _ => s
  | S k, String _ rest => from k rest
  | S _, EmptyString => EmptyString
  end.

(** [string(bytes)] *)
Fixpoint bytes (bs : list Z) : string :=
  match bs with
  | [] => EmptyString
  | b :: rest => String (charOf b) (bytes rest)
  end.

Definition RuneError : Z := 0xFFFD.
Definition RuneSelf : Z := 0x80.
Definition MaxRune : Z := 0x10FFFF.
Definition surrogateMin : Z := 0xD800.
Definition surrogateMax : Z := 0xDFFF.

Definition tx : Z := 0x80.
Definition t2 : Z := 0xC0.
Definition t3 : Z := 0xE0.
Definition t4 : Z := 0xF0.

Definition maskx : Z := 0x3F.
Definition mask2 : Z := 0x1F.
Definition mask3 : Z := 0x0F.
Definition mask4 : Z := 0x07.

Definition rune1Max : Z := 2 ^ 7 - 1.
Definition rune2Max : Z := 2 ^ 11 - 1.
Definition rune3Max : Z := 2 ^ 16 - 1.

Definition locb : Z := 0x80.
Definition hicb : Z := 0xBF.

(** The entries of the table [first]: the high four bits index
    [acceptRanges], the low three give the size of the sequence. *)
Definition xx : Z := 0xF1.
Definition as' : Z := 0xF0.
Definition s1 : Z := 0x02.
Definition s2 : Z := 0x13.
Definition s3 : Z := 0x03.
Definition s4 : Z := 0x23.
Definition s5 : Z := 0x34.
Definition s6 : Z := 0x04.
Definition s7 : Z := 0x44.

(** [first[b]], the table of 256 entries read by ranges of [b]. *)
Definition first (b : Z) : Z :=
  if (b <? 0x80)%Z then as'
  else if (b <? 0xC2)%Z then xx
  else if (b <? 0xE0)%Z then s1
  else if (b =? 0xE0)%Z then s2
  else if (b <? 0xED)%Z then s3
  else if (b =? 0xED)%Z then s4
  else if (b <? 0xF0)%Z then s3
  else if (b =? 0xF0)%Z then s5
  else if (b <? 0xF4)%Z then s6
  else if (b =? 0xF4)%Z then s7
  else xx.

(** [acceptRanges[i]]: the bounds [lo], [hi] of the second byte. *)
Definition acceptRanges (i : Z) : Z * Z :=
  if (i =? 0)%Z then (locb, hicb)
  else if (i =? 1)%Z then (0xA0, hicb)
  else if (i =? 2)%Z then (locb, 0x9F)
  else if (i =? 3)%Z then (0x90, hicb)
  else if (i =? 4)%Z then (locb, 0x8F)
  else (0, 0).

(** [rune(x)]: the conversion to [int32]. *)
Definition rune (x : Z) : Z := ((x + 2 ^ 31) mod 2 ^ 32 - 2 ^ 31)%Z.

(** [DecodeRuneInString]: the rune and its size in bytes. *)
Definition DecodeRuneInString (s : string) : Z * Z :=
  let n := Z.of_nat (String.length s) in
  if (n <? 1)%Z then (RuneError, 0) else
  let s0 := index s 0 in
  let x := first s0 in
  if (x >=? as')%Z then
    let mask := Z.shiftr (rune (Z.shiftl x 31)) 31 in
    (Z.lor (Z.land s0 (Z.lnot mask)) (Z.land RuneError mask), 1)
  else
  let sz := Z.land x 7 in
  let accept := acceptRanges (Z.shiftr x 4) in
  if (n <? sz)%Z then (RuneError, 1) else
  let s1 := index s 1 in
  if (s1 <? fst accept)%Z || (snd accept <? s1)%Z then (RuneError, 1) else
  if (sz <=? 2)%Z then
    (Z.lor (Z.shiftl (Z.land s0 mask2) 6) (Z.land s1 maskx), 2)
  else
  let s2 := index s 2 in
  if (s2 <? locb)%Z || (hicb <? s2)%Z then (RuneError, 1) else
  if (sz <=? 3)%Z then
    (Z.lor (Z.lor (Z.shiftl (Z.land s0 mask3) 12) (Z.shiftl (Z.land s1 maskx) 6))
           (Z.land s2 maskx), 3)
  else
  let s3 := index s 3 in
  if (s3 <? locb)%Z || (hicb <? s3)%Z then (RuneError, 1) else
  (Z.lor (Z.lor (Z.lor (Z.shiftl (Z.land s0 mask4) 18)
                       (Z.shiftl (Z.land s1 maskx) 12))
                (Z.shiftl (Z.land s2 maskx) 6))
         (Z.land s3 maskx), 4).

(** The loop of [ValidString] on the rest [s[i:]] of the string; one unit
    of [fuel] per sequence.  (The loop that first skips ASCII bytes eight at
    a time accepts the same strings and is left out.) *)
Fixpoint validLoop (fuel : nat) (s : string) : bool :=
  match s with
  | EmptyString => true
  | String c _ =>
      match fuel with
      | O => false
      | S k =>
          let n := Z.of_nat (String.length s) in
          let si := byteOf c in
          if (si <? RuneSelf)%Z then validLoop k (from 1 s) else
          let x := first si in
          if (x =? xx)%Z then false else
          let size := Z.land x 7 in
          if (size >? n)%Z then false else
          let accept := acceptRanges (Z.shiftr x 4) in
          let c1 := index s 1 in
          if (c1 <? fst accept)%Z || (snd accept <? c1)%Z then false
          else if (size =? 2)%Z then validLoop k (from (Z.to_nat size) s)
          else
            let c2 := index s 2 in
            if (c2 <? locb)%Z || (hicb <? c2)%Z then false
            else if (size =? 3)%Z then validLoop k (from (Z.to_nat size) s)
            else
              let c3 := index s 3 in
              if (c3 <? locb)%Z || (hicb <? c3)%Z then false
              else validLoop k (from (Z.to_nat size) s)
      end
  end.

Definition ValidString (s : string) : bool := validLoop (String.length s) s.

(** [uint32(r)] and [byte(x)] of a rune. *)
Definition uint32 (r : Z) : Z := r mod 2 ^ 32.
Definition byte (x : Z) : Z := x mod 2 ^ 8.

(** [AppendRune], which is what [strings.Builder.WriteRune] appends. *)
Definition AppendRune (r : Z) : string :=
  if (uint32 r <=? rune1Max)%Z then bytes [byte r] else
  let i := uint32 r in
  let three (r : Z) :=
    bytes [Z.lor t3 (byte (Z.shiftr r 12));
           Z.lor tx (Z.land (byte (Z.shiftr r 6)) maskx);
           Z.lor tx (Z.land (byte r) maskx)] in
  if (i <=? rune2Max)%Z then
    bytes [Z.lor t2 (byte (Z.shiftr r 6)); Z.lor tx (Z.land (byte r) maskx)]
  else if (i >? MaxRune)%Z || ((surrogateMin <=? i)%Z && (i <=? surrogateMax)%Z)
  then three RuneError
  else if (i <=? rune3Max)%Z then three r
  else
    bytes [Z.lor t4 (byte (Z.shiftr r 18));
           Z.lor tx (Z.land (byte (Z.shiftr r 12)) maskx);
           Z.lor tx (Z.land (byte (Z.shiftr r 6)) maskx);
           Z.lor tx (Z.land (byte r) maskx)].

(** The byte sequences of one character that are well formed: a continuation
    byte, and the ranges of the first two bytes by length. *)
Definition cont (b : Z) : Prop := (0x80 <= b <= 0xBF)%Z.

Definition wellFormed (bs : list Z) : Prop :=
  match bs with
  | [b0] => (0 <= b0 < 0x80)%Z
  | [b0; b1] => (0xC2 <= b0 <= 0xDF)%Z /\ cont b1
  | [b0; b1; b2] =>
      ((b0 = 0xE0 /\ 0xA0 <= b1 <= 0xBF) \/ (0xE1 <= b0 <= 0xEC /\ cont b1) \/
       (b0 = 0xED /\ 0x80 <= b1 <= 0x9F) \/ (0xEE <= b0 <= 0xEF /\ cont b1))%Z /\
      cont b2
  | [b0; b1; b2; b3] =>
      ((b0 = 0xF0 /\ 0x90 <= b1 <= 0xBF) \/ (0xF1 <= b0 <= 0xF3 /\ cont b1) \/
       (b0 = 0xF4 /\ 0x80 <= b1 <= 0x8F))%Z /\
      cont b2 /\ cont b3
  | _ => False
  end.

End utf8.

(* ===================================================================== *)
(** * Package client (the agent): output truncation and the pull loop *)
(* ===================================================================== *)

Module client.

(** [truncateString]: [len(s)] counts bytes.  [None] is the run-time panic
    of [s[:maxLen]] for a negative [maxLen]. *)
Definition truncateString (s : string) (maxLen : Z) : option string :=
  if (Z.of_nat (String.length s) <=? maxLen)%Z then Some s
  else if (maxLen <? 0)%Z then None
  else Some (String.substring 0 (Z.to_nat maxLen) s +:+ "... (truncated)").

Record CommandResult : Type := mkCommandResult {
  OutputData : option string;
  Stdout : string;
  Stderr : string;
  HasOutputFile : bool
}.

Section executeCommand.

(** The result assembly below only passes strings through [sanitizeUTF8],
    which is defined at the end of this module. *)
Variable sanitizeUTF8 : string -> string.

(** [executeCommand] after [cmd.Run()]: [stdout] and [stderr] are the
    captured buffers, [runErr] tells whether [cmd.Run] returned an error and
    [outputFile] is what [os.ReadFile(outputFile)] gave ([None]: an error).
    The result pairs the [*CommandResult] with whether an error is returned
    next to it. *)
Definition executeCommand (stdout stderr : string) (runErr : bool)
    (outputFile : option string) : option (CommandResult * bool) :=
  let stdoutStr := sanitizeUTF8 stdout in
  let stderrStr := sanitizeUTF8 stderr in
  out ← truncateString stdoutStr 10000;
  err ← truncateString stderrStr 10000;
  if runErr then Some (mkCommandResult None out err false, true)
  else
    match outputFile with
    | Some data => Some (mkCommandResult (Some data) out err true, false)
    | None =>
        if (0 <? String.length stdout)%nat
        then Some (mkCommandResult (Some stdout) out err false, false)
        else Some (mkCommandResult None out err false, false)
    end.

End executeCommand.

(** [time.Duration] is an [int64] count of nanoseconds. *)
Definition Millisecond : Z := 1000000.
Definition Second : Z := 1000 * Millisecond.

Definition int64 (n : Z) : Z := (n + 2 ^ 63) mod 2 ^ 64 - 2 ^ 63.

Definition min (a b : Z) : Z := if (a <? b)%Z then a else b.

Definition initialBackoff : Z := 500 * Millisecond.
Definition maxBackoff : Z := 30 * Second.
Definition minBackoff : Z := 500 * Millisecond.

(** What wakes the [select] of [jobRequestLoop], with what the iteration
    then observes: the answer of [canAcceptJob] and whether
    [sendRequestJob] returned [nil]. *)
Inductive Wakeup : Type :=
  | stopChan
  | requestJobChan (canAcceptJob sendOk : bool)
  | timeAfter (canAcceptJob sendOk : bool).

(** One iteration of the [for] loop on the variable [backoff]; [None] is the
    [return]. *)
Definition iteration (backoff : Z) (w : Wakeup) : option Z :=
  match w with
  | stopChan => None
  | requestJobChan canAcceptJob sendOk =>
      if negb canAcceptJob then Some backoff
      else Some minBackoff
  | timeAfter canAcceptJob sendOk =>
      if negb canAcceptJob then Some (min (int64 (backoff * 2)) maxBackoff)
      else
        let backoff := minBackoff in
        if negb sendOk then Some (min (int64 (backoff * 2)) maxBackoff)
        else Some backoff
  end.

(** The loop over a sequence of wake-ups: the value of [backoff] when the
    sequence is used up or the loop has returned. *)
Fixpoint jobRequestLoop_from (backoff : Z) (ws : list Wakeup) : Z :=
  match ws with
  | [] => backoff
  | w :: ws' =>
      match iteration backoff w with
      | None => backoff
      | Some b => jobRequestLoop_from b ws'
      end
  end.

Definition jobRequestLoop (ws : list Wakeup) : Z :=
  jobRequestLoop_from initialBackoff ws.

(* --------------------------------------------------------------------- *)
(** ** client.go: the running-jobs counter, request ids, one job, the
       input cache *)
(* --------------------------------------------------------------------- *)

(** The fields of [Client] that the handling of a job reads and writes.
    [requestJobChanLen] is the number of triggers waiting in the buffered
    channel [requestJobChan], whose capacity is 1. *)
Record Client : Type := mkClient {
  agentID : string;
  maxConcurrency : Z;
  paused : bool;
  runningJobs : Z;
  requestJobChanLen : Z
}.

Definition SetRunningJobs (count : Z) (c : Client) : Client :=
  mkClient (agentID c) (maxConcurrency c) (paused c) count (requestJobChanLen c).

(** [c.runningJobs++] on an [int] of 64 bits. *)
Definition incrementRunningJobs (c : Client) : Client :=
  SetRunningJobs (int64 (runningJobs c + 1)) c.

Definition decrementRunningJobs (c : Client) : Client :=
  if (runningJobs c >? 0)%Z then SetRunningJobs (int64 (runningJobs c - 1)) c
  else c.

Definition canAcceptJob (c : Client) : bool :=
  negb (paused c) && (runningJobs c <? maxConcurrency c)%Z.

(** [select { case c.requestJobChan <- struct{}{}: default: }] *)
Definition triggerRequestJob (c : Client) : Client :=
  if (requestJobChanLen c <? 1)%Z
  then mkClient (agentID c) (maxConcurrency c) (paused c) (runningJobs c)
         (requestJobChanLen c + 1)
  else c.

(** [randomHex]: [seed] starts as the reading of [time.Now().UnixNano()];
    [%] is Go's truncated remainder.  [None] is a run-time panic: of
    [make([]byte, n)] for a negative [n], or of [chars[idx]] for an index
    out of range. *)
Definition chars : string := "0123456789abcdef".

Fixpoint randomHex_loop (n : nat) (seed : Z) : option string :=
  match n with
  | O => Some ""
  | S k =>
      let seed := int64 (seed * 1103515245 + 12345) in
      let idx := Z.rem seed (Z.of_nat (String.length chars)) in
      let idx := if (idx <? 0)%Z then int64 (- idx) else idx in
      if (idx <? 0)%Z then None
      else
        match String.get (Z.to_nat idx) chars with
        | None => None
        | Some ch =>
            match randomHex_loop k seed with
            | None => None
            | Some rest => Some (String ch rest)
            end
        end
  end.

Definition randomHex (n : Z) (UnixNano : Z) : option string :=
  if (n <? 0)%Z then None else randomHex_loop (Z.to_nat n) UnixNano.

(** [generateRequestID]: [now] and [UnixNano] are the two clock readings,
    the one of [generateRequestID] and the one of [randomHex]. *)
Definition generateRequestID (now UnixNano : Z) : option string :=
  match randomHex 8 UnixNano with
  | None => None
  | Some hex => Some (pretty now +:+ "-" +:+ hex)
  end.

(** The [control.JobAssigned] message as the agent reads it. *)
Record Assigned : Type := mkAssigned {
  Assigned_JobId : string;
  Assigned_AttemptId : Z;
  Assigned_JobType : Z;
  Assigned_Command : string;
  Assigned_InputDownload : option control.OSSAccess;
  Assigned_InputKey : string;
  Assigned_OutputUpload : option control.OSSAccess;
  Assigned_OutputKey : string
}.

(** What one run of a job meets outside the agent: the result of
    [downloadInputToFile] (the temporary file, or the error), the captured
    output and the error of [cmd.Run()], the result of
    [os.ReadFile(outputFile)], and the error of [uploadOutput]. *)
Record Run : Type := mkRun {
  downloadInputToFile : string + string;
  cmdStdout : string;
  cmdStderr : string;
  cmdRun : option string;
  readOutputFile : option string;
  uploadOutput : option string
}.

Section processJob.

Variable sanitizeUTF8 : string -> string.

(** [processForwardJob] is not part of this development: the reports it
    makes for a FORWARD_HTTP job are left open. *)
Variable processForwardJob : Assigned -> list control.JobStatus.

(** [reportJobStatusWithOutput] up to [proto.Marshal]: the [JobStatus] that
    is put into an envelope under [c.agentID], a fresh request id and the
    current time.  Whether the frame reaches the server is up to the
    connection. *)
Definition reportJobStatusWithOutput (jobID : string) (attemptID : Z) (status : Z)
    (message outputKey stdout stderr : string) : control.JobStatus :=
  control.mkJobStatus jobID (gateway.int32 attemptID) status (sanitizeUTF8 message)
    outputKey (sanitizeUTF8 stdout) (sanitizeUTF8 stderr).

Definition reportJobStatus (jobID : string) (attemptID : Z) (status : Z)
    (message outputKey : string) : control.JobStatus :=
  reportJobStatusWithOutput jobID attemptID status message outputKey "" "".

(** [handleJobAssigned]: the client after the call, the reports made, and
    whether [go c.processJob(assigned)] was started. *)
Definition handleJobAssigned (c : Client) (assigned : Assigned)
    : Client * list control.JobStatus * bool :=
  let jobID := Assigned_JobId assigned in
  if jobID =? "" then (c, [], false) else
  let attemptID := Assigned_AttemptId assigned in
  if negb (canAcceptJob c) then
    (c, [reportJobStatus jobID attemptID control.JobStatusEnum_JOB_STATUS_FAILED
           "Agent cannot accept job (paused or at capacity)" ""], false)
  else (incrementRunningJobs c, [], true).

(** [len(cmdResult.OutputData)] *)
Definition lenOutputData (r : CommandResult) : Z :=
  match OutputData r with
  | Some data => Z.of_nat (String.length data)
  | None => 0
  end.

(** [processJob]: the client after the deferred function has run, and the
    reports made, in order.  [None] is a run-time panic.  ([executeCommand]
    returns a nil result only for an empty command, which [processJob] has
    excluded before the call.) *)
Definition processJob (c : Client) (assigned : Assigned) (run : Run)
    : option (Client * list control.JobStatus) :=
  let deferred := triggerRequestJob (decrementRunningJobs c) in
  let jobID := Assigned_JobId assigned in
  let attemptID := Assigned_AttemptId assigned in
  let outputKey := Assigned_OutputKey assigned in
  let running :=
    reportJobStatus jobID attemptID control.JobStatusEnum_JOB_STATUS_RUNNING
      "Processing job" "" in
  let failed message :=
    reportJobStatus jobID attemptID control.JobStatusEnum_JOB_STATUS_FAILED
      message "" in
  if (Assigned_JobType assigned =? control.JobTypeEnum_JOB_TYPE_FORWARD_HTTP)%Z
  then Some (deferred, running :: processForwardJob assigned) else
  if Assigned_Command assigned =? ""
  then Some (deferred, [running; failed "Command is required"]) else
  let input :=
    match Assigned_InputDownload assigned with
    | Some inputAccess =>
        if negb (Assigned_InputKey assigned =? "") then
          match inputAccess with
          | control.OSSAccess_PresignedUrl inputURL =>
              match downloadInputToFile run with
              | inl inputFile => inl inputFile
              | inr err => inr (failed ("Download failed: " +:+ err))
              end
          | control.OSSAccess_Sts => inr (failed "STS not supported")
          | control.OSSAccess_unset => inr (failed "Invalid input_download")
          end
        else inl ""
    | None => inl ""
    end in
  match input with
  | inr report => Some (deferred, [running; report])
  | inl inputFile =>
  match executeCommand sanitizeUTF8 (cmdStdout run) (cmdStderr run)
          (match cmdRun run with Some _ => true | None => false end)
          (readOutputFile run) with
  | None => None
  | Some (cmdResult, true) =>
      let err :=
        "command execution failed: " +:+
        (match cmdRun run with Some e => e | None => "" end) in
      Some (deferred,
            [running;
             reportJobStatusWithOutput jobID attemptID
               control.JobStatusEnum_JOB_STATUS_FAILED
               ("Command execution failed: " +:+ err) ""
               (Stdout cmdResult) (Stderr cmdResult)])
  | Some (cmdResult, false) =>
      let failedWithOutput message :=
        reportJobStatusWithOutput jobID attemptID
          control.JobStatusEnum_JOB_STATUS_FAILED message ""
          (Stdout cmdResult) (Stderr cmdResult) in
      let succeeded outputKeyToReport :=
        reportJobStatusWithOutput jobID attemptID
          control.JobStatusEnum_JOB_STATUS_SUCCEEDED "" outputKeyToReport
          (Stdout cmdResult) (Stderr cmdResult) in
      if HasOutputFile cmdResult && (lenOutputData cmdResult >? 0)%Z then
        match Assigned_OutputUpload assigned with
        | None => Some (deferred, [running; failedWithOutput "Missing output_upload"])
        | Some (control.OSSAccess_PresignedUrl outputURL) =>
            match uploadOutput run with
            | Some err =>
                Some (deferred,
                      [running; failedWithOutput ("Upload failed: " +:+ err)])
            | None => Some (deferred, [running; succeeded outputKey])
            end
        | Some control.OSSAccess_Sts =>
            Some (deferred, [running; failedWithOutput "STS not supported"])
        | Some control.OSSAccess_unset =>
            Some (deferred, [running; failedWithOutput "Invalid output_upload"])
        end
      else Some (deferred, [running; succeeded ""])
  end
  end.

End processJob.

(** The cache of downloaded inputs: [inputCacheTTL] and the map
    [inputCache] from URL to file and expiry. *)
Record cachedInput : Type := mkCachedInput {
  path : string;
  expiresAt : Z
}.

Record InputCache : Type := mkInputCache {
  inputCacheTTL : Z;
  inputCache : gmap string cachedInput
}.

(** The second result of [getCachedInputFile]: the function that does
    nothing, or the one that removes the temporary file. *)
Inductive cleanup : Type :=
  | cleanupNothing
  | cleanupRemove (tmpFile : string).

Section getCachedInputFile.

(** The two downloads, each giving the file written or the error. *)
Variable downloadInputToFile' : string -> string -> string -> string + string.
Variable downloadInputToCacheFile : string -> string -> string + string.

(** [getCachedInputFile]: [now] is the reading of [time.Now()].  The result
    carries the file and the cleanup, or the error; the cache after the
    call; the files removed by [os.Remove] during the call; and the number
    of downloads made. *)
Definition getCachedInputFile (now : Z) (url inputKey : string) (c : InputCache)
    : (string * cleanup + string) * InputCache * list string * nat :=
  let ttl := inputCacheTTL c in
  if (ttl <=? 0)%Z then
    match downloadInputToFile' url "forward" inputKey with
    | inr err => (inr err, c, [], 1%nat)
    | inl tmpFile => (inl (tmpFile, cleanupRemove tmpFile), c, [], 1%nat)
    end
  else
    let miss (c : InputCache) (removed : list string) :=
      match downloadInputToCacheFile url inputKey with
      | inr err => (inr err, c, removed, 1%nat)
      | inl cachePath =>
          (inl (cachePath, cleanupNothing),
           mkInputCache (inputCacheTTL c)
             (<[url := mkCachedInput cachePath (now + ttl)]> (inputCache c)),
           removed, 1%nat)
      end in
    match inputCache c !! url with
    | Some entry =>
        if (now <? expiresAt entry)%Z
        then (inl (path entry, cleanupNothing), c, [], 0%nat)
        else miss (mkInputCache (inputCacheTTL c) (delete url (inputCache c)))
                  [path entry]
    | None => miss c []
    end.

End getCachedInputFile.

(** The loop of [sanitizeUTF8] on the rest of the string; one unit of
    [fuel] per decoded rune. *)
Fixpoint sanitizeLoop (fuel : nat) (s : string) : string :=
  match fuel with
  | O => EmptyString
  | S k =>
      if (Z.of_nat (String.length s) >? 0)%Z then
        let '(r, size) := utf8.DecodeRuneInString s in
        let written :=
          if (r =? utf8.RuneError)%Z && (size =? 1)%Z
          then utf8.AppendRune 0xFFFD
          else utf8.AppendRune r in
        written +:+ sanitizeLoop k (utf8.from (Z.to_nat size) s)
      else EmptyString
  end.

Definition sanitizeUTF8 (s : string) : string :=
  if utf8.ValidString s then s else sanitizeLoop (String.length s) s.

(** The [JobAssigned] of the gateway as [proto.Unmarshal] hands it to the
    agent: the gateway wraps both URLs as presigned accesses and sets no job
    type. *)
Definition received (m : control.JobAssigned) : Assigned :=
  mkAssigned (control.JobAssigned_JobId m) (control.JobAssigned_AttemptId m)
    control.JobTypeEnum_JOB_TYPE_UNKNOWN (control.JobAssigned_Command m)
    (Some (control.OSSAccess_PresignedUrl (control.JobAssigned_InputDownload m)))
    (control.JobAssigned_InputKey m)
    (Some (control.OSSAccess_PresignedUrl (control.JobAssigned_OutputUpload m)))
    (control.JobAssigned_OutputKey m).

End client.

(* ===================================================================== *)
(** * Sample data *)
(* ===================================================================== *)

Module sample.

(** A job as the submission API builds it, in the given status and owned by
    the given agent. *)
Definition aJob (jobID status agent : string) : job.Job :=
  job.mkJob jobID 0 status "" "" "out" "" "" "" 1 agent "" None "echo" "" "" "".

(** A job submitted with a prefix that extends the canonical one. *)
Definition deepPrefixJob : job.Job :=
  job.mkJob "J1" 0 "PENDING" "" "" "out" "" "jobs/J1/1/extra/" "" 1 "" "" None
            "echo" "" "" "".

(** A job submitted one and a half seconds after the epoch. *)
Definition halfSecondJob : job.Job :=
  job.mkJob "J1" 1500000000 "PENDING" "" "" "out" "" "" "" 1 "" "" None
            "echo" "" "" "".

Definition emptyStore : job.SQLiteStore := job.mkStore ∅ [].

Definition anAgent (agentID : string) (maxConcurrency runningJobs : Z)
    : registry.AgentInfo :=
  registry.mkAgentInfo agentID "lab-pc" maxConcurrency false runningJobs 0 0.

(** A gateway that holds one job and one agent. *)
Definition aGateway (j : job.Job) (faults : list bool)
    (a : registry.AgentInfo) (q : list string) : gateway.Gateway :=
  gateway.mkGateway {[ registry.AgentID a := a ]}
    (job.mkStore {[ job.JobID j := j ]} faults) (Some q).

(** One second after the agents' last heartbeat; signing and marshaling
    succeed as the flags say. *)
Definition anEnv (signOk marshalOk : bool) : gateway.Env :=
  gateway.mkEnv 1000000000 "lease-1"
    (fun key => if signOk then Some ("https://oss/get/" +:+ key) else None)
    (fun key => if signOk then Some ("https://oss/put/" +:+ key) else None)
    (fun _ => marshalOk).

Definition connOf (agentID : string) : gateway.AgentConnection :=
  gateway.mkAgentConnection agentID [].

Definition headerOf (agentID : string) : control.Envelope :=
  control.mkEnvelope agentID "req-1" 0.

(** A job as the dispatcher leaves it: output key and prefix are set. *)
Definition dispatchedJob (jobID status agent : string) : job.Job :=
  job.mkJob jobID 0 status "" "" "out"
    ("jobs/" +:+ jobID +:+ "/1/output.bin") ("jobs/" +:+ jobID +:+ "/1/") "bin"
    1 agent "lease-1" None "echo" "" "" "".

(** The job J1 RUNNING on agent A1, which is at its capacity of one. *)
Definition gRunning : gateway.Gateway :=
  aGateway (dispatchedJob "J1" "RUNNING" "A1") [] (anAgent "A1" 1 1) [].

(** The job J1 still ASSIGNED to agent A1. *)
Definition gAssigned : gateway.Gateway :=
  aGateway (dispatchedJob "J1" "ASSIGNED" "A1") [] (anAgent "A1" 1 1) [].

(** Scenario S2: the queue holds a stale id before a PENDING one; agent A1
    is idle. *)
Definition gStaleThenOk : gateway.Gateway :=
  gateway.mkGateway {[ "A1" := anAgent "A1" 1 0 ]}
    (job.mkStore {[ "J_stale" := dispatchedJob "J_stale" "ASSIGNED" "A2";
                    "J_ok" := aJob "J_ok" "PENDING" "" ]} [])
    (Some ["J_stale"; "J_ok"]).

(** The PENDING job J5 at the head of the queue, agent A1 idle; [faults]
    scripts the store's driver. *)
Definition gPending (faults : list bool) : gateway.Gateway :=
  aGateway (aJob "J5" "PENDING" "") faults (anAgent "A1" 1 0) ["J5"].

(** A string of [n] bytes. *)
Fixpoint filler (n : nat) : string :=
  match n with
  | O => ""
  | S k => String "a"%char (filler k)
  end.

(** Captured outputs of 10001 and of 10000 bytes. *)
Definition output10001 : string := filler (Z.to_nat 10001).
Definition output10000 : string := filler (Z.to_nat 10000).

(** A capture of 10002 bytes in which the bytes 10000 and 10001 are the two
    bytes of one character, U+00E9. *)
Definition splitOutput : string :=
  filler (Z.to_nat 9999) +:+ utf8.bytes [0xC3; 0xA9] +:+ "!".

Definition report (jobID : string) (tag : Z) (outputKey stdout : string)
    : control.JobStatus :=
  control.mkJobStatus jobID 1 tag "" outputKey stdout "".

Definition storeOf (j : job.Job) (faults : list bool) : job.SQLiteStore :=
  job.mkStore {[ job.JobID j := j ]} faults.

(** The agent A1 with room for one job, idle and not paused. *)
Definition aClient : client.Client := client.mkClient "A1" 1 false 0 0.

(** The frame that dispatches J5 to A1, and the message A1 reads from it. *)
Definition frameJ5 : control.JobAssigned :=
  control.mkJobAssigned "J5" 1 "lease-1" 60 "https://oss/get/" ""
    "https://oss/put/jobs/J5/1/output.bin" "jobs/J5/1/" "jobs/J5/1/output.bin"
    "echo".

(** A run in which the command prints "done", writes an output file and
    the upload goes through. *)
Definition goodRun : client.Run :=
  client.mkRun (inl "") "done" "" None (Some "result") None.

(** A run in which the command fails. *)
Definition badRun : client.Run :=
  client.mkRun (inl "") "" "boom" (Some "exit status 1") None None.

(** Runs in which the command prints 10001 bytes, and the capture above. *)
Definition longRun : client.Run :=
  client.mkRun (inl "") output10001 "" None None None.

Definition splitRun : client.Run :=
  client.mkRun (inl "") splitOutput "" None None None.

(** An input cache that keeps files for ten minutes and holds the file of
    one URL until the instant 1000. *)
Definition aCache : client.InputCache :=
  client.mkInputCache (600 * client.Second)
    {[ "https://oss/get/in" := client.mkCachedInput "/tmp/cache/in" 1000 ]}.

End sample.

(* ===================================================================== *)
(** * Properties *)
(* ===================================================================== *)

Import job.

(** ** Strings and statuses *)

Ltac eqb_cases :=
  repeat match goal with
         | |- context [String.eqb ?a ?b] => destruct (String.eqb_spec a b); subst
         | H : context [String.eqb ?a ?b] |- _ => destruct (String.eqb_spec a b); subst
         end.

Lemma IsValid_inv (s : string) :
  IsValid s = true ->
  s = StatusPending \/ s = StatusAssigned \/ s = StatusRunning \/
  s = StatusSucceeded \/ s = StatusFailed \/ s = StatusCanceled \/
  s = StatusLost.
Proof.
  unfold IsValid. intros H.
  repeat (apply orb_prop in H; destruct H as [H | H]);
    apply String.eqb_eq in H; tauto.
Qed.

Lemma IsTerminal_inv (s : string) :
  IsTerminal s = true ->
  s = StatusSucceeded \/ s = StatusFailed \/ s = StatusCanceled \/ s = StatusLost.
Proof.
  unfold IsTerminal. intros H.
  repeat (apply orb_prop in H; destruct H as [H | H]);
    apply String.eqb_eq in H; tauto.
Qed.

Lemma CanTransitionTo_table (s t : string) :
  CanTransitionTo s t = true <-> In (s, t) transition_table.
Proof.
  split.
  - unfold CanTransitionTo, transition_table,
      StatusPending, StatusAssigned, StatusRunning, StatusSucceeded,
      StatusFailed, StatusCanceled, StatusLost.
    intros H. eqb_cases; simpl in H; try discriminate; simpl; tauto.
  - intros H. simpl in H.
    repeat (destruct H as [H | H]; [inversion H; subst; reflexivity |]).
    destruct H.
Qed.

Lemma terminal_no_edge (s t : string) :
  IsTerminal s = true -> CanTransitionTo s t = false.
Proof.
  intros H. apply IsTerminal_inv in H.
  destruct H as [-> | [-> | [-> | ->]]]; reflexivity.
Qed.

(** ** The store *)

Lemma Exec_UPDATE (f : Job -> Job) (jobID : string) (st : SQLiteStore) :
  Exec (UPDATE f jobID) st =
    if driver_ok st
    then (None, mkStore (alter f jobID (rows st)) (tail (faults st)))
    else (Some ErrBackend, mkStore (rows st) (tail (faults st))).
Proof.
  unfold Exec, driver_ok, UPDATE. destruct st as [r [| [] fs]]; reflexivity.
Qed.

Lemma alter_present (f : Job -> Job) (jobID : string) (j : Job)
    (r : gmap string Job) :
  r !! jobID = Some j -> alter f jobID r = <[jobID := f j]> r.
Proof.
  intros H. apply map_eq. intros i.
  destruct (decide (jobID = i)) as [<- | Hne].
  - rewrite lookup_alter_eq, lookup_insert_eq, H. reflexivity.
  - rewrite lookup_alter_ne, lookup_insert_ne by assumption. reflexivity.
Qed.

Lemma UpdateStatus_present (jobID t : string) (st : SQLiteStore) (j : Job) :
  rows st !! jobID = Some j ->
  UpdateStatus jobID t st =
    if negb (IsValid t) then (Some ErrInvalidStatus, st)
    else if negb (IsValid (Status j)) then (Some ErrBackend, st)
    else if negb (CanTransitionTo (Status j) t) then (Some ErrInvalidTransition, st)
    else Exec (UPDATE (with_Status t) jobID) st.
Proof.
  intros Hj. unfold UpdateStatus, Get. rewrite Hj.
  destruct (IsValid t), (IsValid (Status j)); reflexivity.
Qed.

Lemma UpdateStatus_absent (jobID t : string) (st : SQLiteStore) :
  rows st !! jobID = None ->
  UpdateStatus jobID t st =
    if negb (IsValid t) then (Some ErrInvalidStatus, st)
    else (Some ErrJobNotFound, st).
Proof.
  intros Hj. unfold UpdateStatus, Get. rewrite Hj. reflexivity.
Qed.

Lemma UpdateStatus_rejected (jobID t : string) (st : SQLiteStore) (j : Job) :
  rows st !! jobID = Some j ->
  CanTransitionTo (Status j) t = false ->
  rows (snd (UpdateStatus jobID t st)) = rows st /\
  faults (snd (UpdateStatus jobID t st)) = faults st /\
  fst (UpdateStatus jobID t st) <> None.
Proof.
  intros Hj Hno. rewrite (UpdateStatus_present _ _ _ _ Hj), Hno.
  destruct (IsValid t), (IsValid (Status j)); cbn;
    repeat split; discriminate.
Qed.

Lemma UpdateStatus_rows_cases (jobID t : string) (st : SQLiteStore) :
  (fst (UpdateStatus jobID t st) = None /\
   exists j, rows st !! jobID = Some j /\
             CanTransitionTo (Status j) t = true /\
             rows (snd (UpdateStatus jobID t st)) = <[jobID := with_Status t j]> (rows st)) \/
  (fst (UpdateStatus jobID t st) <> None /\
   rows (snd (UpdateStatus jobID t st)) = rows st).
Proof.
  destruct (rows st !! jobID) as [j |] eqn:Hj.
  2:{ rewrite (UpdateStatus_absent _ _ _ Hj).
      right. destruct (IsValid t); split; (discriminate || reflexivity). }
  rewrite (UpdateStatus_present _ _ _ _ Hj).
  destruct (IsValid t); cbn [negb fst snd];
    [| right; split; [discriminate | reflexivity]].
  destruct (IsValid (Status j)); cbn [negb fst snd];
    [| right; split; [discriminate | reflexivity]].
  destruct (CanTransitionTo (Status j) t) eqn:Hc; cbn [negb fst snd];
    [| right; split; [discriminate | reflexivity]].
  rewrite Exec_UPDATE. destruct (driver_ok st); cbn [fst snd rows].
  - left. split; [reflexivity |]. exists j. repeat split; try assumption.
    apply alter_present; assumption.
  - right. split; [discriminate | reflexivity].
Qed.

(** C1: [UpdateStatus] applies exactly the edges of the transition table.
    For a stored job with status [s] and a target [t] (both among the seven
    statuses): [CanTransitionTo] is the table of section 4.3; if [s -> t] is
    an edge and the driver executes the statement, the call returns [nil] and
    the stored status becomes [t]; the call returns [nil] only for an edge,
    and then the status stored under the job's id is [t], every other field
    of the job is as before and every other row is untouched; if [s -> t] is
    not an edge, it fails with [ErrInvalidTransition] and the store is
    unchanged; no failing call changes the table; and once the status is
    terminal, no run of [UpdateStatus] calls changes the table. *)
Theorem UpdateStatus_follows_transition_table
    (st : SQLiteStore) (jobID : string) (j : Job) (t : string) :
  rows st !! jobID = Some j ->
  IsValid (Status j) = true ->
  IsValid t = true ->
  (CanTransitionTo (Status j) t = true <-> In (Status j, t) transition_table) /\
  (In (Status j, t) transition_table -> driver_ok st = true ->
     fst (UpdateStatus jobID t st) = None /\
     rows (snd (UpdateStatus jobID t st)) = <[jobID := with_Status t j]> (rows st) /\
     Status <$> (rows (snd (UpdateStatus jobID t st)) !! jobID) = Some t) /\
  (fst (UpdateStatus jobID t st) = None ->
     In (Status j, t) transition_table /\
     rows (snd (UpdateStatus jobID t st)) !! jobID = Some (with_Status t j) /\
     (exists j',
        rows (snd (UpdateStatus jobID t st)) !! jobID = Some j' /\
        Status j' = t /\
        j' = mkJob (JobID j) (CreatedAt j) t (InputBucket j) (InputKey j)
               (OutputBucket j) (OutputKey j) (OutputPrefix j)
               (OutputExtension j) (AttemptID j) (AssignedAgentID j)
               (LeaseID j) (LeaseDeadline j) (Command j) (Message j)
               (Stdout j) (Stderr j)) /\
     (forall other, other <> jobID ->
        rows (snd (UpdateStatus jobID t st)) !! other = rows st !! other)) /\
  (~ In (Status j, t) transition_table ->
     UpdateStatus jobID t st = (Some ErrInvalidTransition, st)) /\
  (fst (UpdateStatus jobID t st) <> None ->
     rows (snd (UpdateStatus jobID t st)) = rows st) /\
  (IsTerminal (Status j) = true ->
     forall targets : list string,
       rows (UpdateStatus_calls jobID targets st) = rows st).
Proof.
  intros Hj Hs Ht.
  split; [apply CanTransitionTo_table |].
  split.
  { intros Hin Hok. apply CanTransitionTo_table in Hin.
    rewrite (UpdateStatus_present _ _ _ _ Hj), Ht, Hs, Hin. cbn [negb].
    rewrite Exec_UPDATE, Hok. cbn [fst snd rows]. split; [reflexivity |].
    rewrite (alter_present _ _ _ _ Hj). split; [reflexivity |].
    rewrite lookup_insert_eq. reflexivity. }
  split.
  { intros Hnil.
    destruct (UpdateStatus_rows_cases jobID t st) as [[_ (j' & Hj' & Hc & Hr)] | [Hne _]];
      [| contradiction].
    rewrite Hj in Hj'. injection Hj' as <-.
    split; [apply CanTransitionTo_table; assumption |].
    rewrite Hr. split; [apply lookup_insert_eq |]. split.
    - exists (with_Status t j). split; [apply lookup_insert_eq |].
      split; reflexivity.
    - intros other Hne. apply lookup_insert_ne. congruence. }
  split.
  { intros Hnot. rewrite (UpdateStatus_present _ _ _ _ Hj), Ht, Hs. cbn [negb].
    destruct (CanTransitionTo (Status j) t) eqn:Hc; [| reflexivity].
    exfalso. apply Hnot, CanTransitionTo_table. assumption. }
  split.
  { intros Hne.
    destruct (UpdateStatus_rows_cases jobID t st) as [[Hnil _] | [_ Hr]];
      [contradiction | assumption]. }
  intros Hterm targets. revert st Hj.
  induction targets as [| t' ts IH]; intros st Hj; [reflexivity |].
  simpl.
  destruct (UpdateStatus_rejected jobID t' st j Hj (terminal_no_edge _ t' Hterm))
    as (Hr & _ & _).
  rewrite IH by (rewrite Hr; assumption). assumption.
Qed.

(** The table at work: a PENDING job is moved to ASSIGNED, and ASSIGNED
    is the status then stored. *)
Lemma UpdateStatus_follows_transition_table_witness :
  rows (sample.storeOf (sample.aJob "J1" "PENDING" "") []) !! "J1"
    = Some (sample.aJob "J1" "PENDING" "") /\
  IsValid (Status (sample.aJob "J1" "PENDING" "")) = true /\
  IsValid "ASSIGNED" = true /\
  fst (UpdateStatus "J1" "ASSIGNED"
         (sample.storeOf (sample.aJob "J1" "PENDING" "") [])) = None /\
  rows (snd (UpdateStatus "J1" "ASSIGNED"
               (sample.storeOf (sample.aJob "J1" "PENDING" "") [])))
    = <["J1" := with_Status "ASSIGNED" (sample.aJob "J1" "PENDING" "")]>
        (rows (sample.storeOf (sample.aJob "J1" "PENDING" "") [])) /\
  Status <$> (rows (snd (UpdateStatus "J1" "ASSIGNED"
                           (sample.storeOf (sample.aJob "J1" "PENDING" "") [])))
                !! "J1") = Some "ASSIGNED".
Proof.
  assert (H1 : rows (sample.storeOf (sample.aJob "J1" "PENDING" "") []) !! "J1"
               = Some (sample.aJob "J1" "PENDING" "")) by reflexivity.
  assert (H2 : IsValid (Status (sample.aJob "J1" "PENDING" "")) = true)
    by reflexivity.
  assert (H3 : IsValid "ASSIGNED" = true) by reflexivity.
  split; [exact H1 |]. split; [exact H2 |]. split; [exact H3 |].
  apply (UpdateStatus_follows_transition_table _ _ _ _ H1 H2 H3);
    [vm_compute; tauto | reflexivity].
Defined.

(** ** Output prefix normalisation *)

Lemma substring_all (s : string) : String.substring 0 (String.length s) s = s.
Proof. induction s as [| c s IH]; simpl; [reflexivity | now rewrite IH]. Qed.

Lemma startsWith_refl (s : string) : startsWith s s = true.
Proof.
  unfold startsWith. rewrite substring_all, String.eqb_refl.
  rewrite Nat.leb_refl. reflexivity.
Qed.

Lemma EnsureOutputPrefix_cases (j : Job) :
  JobID (EnsureOutputPrefix j) = JobID j /\
  AttemptID (EnsureOutputPrefix j) = AttemptID j /\
  (OutputPrefix (EnsureOutputPrefix j) = generateDefaultOutputPrefix j \/
   (OutputPrefix j <> "" /\
    startsWith (OutputPrefix j) (generateDefaultOutputPrefix j) = true /\
    OutputPrefix (EnsureOutputPrefix j) = OutputPrefix j)).
Proof.
  unfold EnsureOutputPrefix.
  destruct (String.eqb_spec (OutputPrefix j) "") as [He | Hne]; cbn [andb negb].
  - destruct (OutputKey j =? ""); cbn [negb];
      [| destruct (startsWith _ _)]; cbn; auto.
  - destruct (String.eqb_spec (OutputPrefix j) (generateDefaultOutputPrefix j))
      as [Heq | Hneq]; cbn [andb negb].
    + repeat split; try reflexivity. left. assumption.
    + destruct (startsWith (OutputPrefix j) (generateDefaultOutputPrefix j)) eqn:Hs;
        cbn [negb]; cbn; auto 6.
Qed.

Lemma Exec_INSERT_ok (j : Job) (st st' : SQLiteStore) :
  Exec (INSERT j) st = (None, st') -> rows st' = <[JobID j := inserted j]> (rows st).
Proof.
  unfold Exec, INSERT. intros H.
  destruct (faults st) as [| [] fs]; try discriminate;
    destruct (rows st !! JobID j); try discriminate;
    destruct ((1 <=? AttemptID j)%Z && IsValid (Status j)); try discriminate;
    injection H as <-; reflexivity.
Qed.

(** C3 (amended): for every job that [Create] accepts, the persisted
    [output_prefix] (that of the row written, which is the returned job with
    its instants cut to whole seconds) begins with the canonical string
    ["jobs/" + job_id + "/" + attempt_id + "/"].  A submitted prefix that
    does not begin with the canonical string (the empty one included) is
    overwritten with it; a non-empty submitted prefix that begins with the
    canonical string is persisted as submitted, also when it is longer. *)
Theorem Create_output_prefix (j j' : Job) (st st' : SQLiteStore) :
  Create j st = (None, j', st') ->
  let canonical := "jobs/" +:+ JobID j +:+ "/" +:+ intToString (AttemptID j) +:+ "/" in
  rows st' !! JobID j = Some (inserted j') /\
  OutputPrefix (inserted j') = OutputPrefix j' /\
  OutputPrefix <$> (rows st' !! JobID j) = Some (OutputPrefix j') /\
  startsWith (OutputPrefix j') canonical = true /\
  (startsWith (OutputPrefix j) canonical = false -> OutputPrefix j' = canonical) /\
  (OutputPrefix j <> "" -> startsWith (OutputPrefix j) canonical = true ->
   OutputPrefix j' = OutputPrefix j).
Proof.
  intros H canonical. unfold Create in H.
  destruct (Validate j); [discriminate |].
  destruct (Exec (INSERT (EnsureOutputPrefix j)) st) as [err s1] eqn:HE.
  injection H as -> <- <-.
  apply Exec_INSERT_ok in HE.
  destruct (EnsureOutputPrefix_cases j) as (Hid & _ & Hp).
  fold canonical in Hp. change (generateDefaultOutputPrefix j) with canonical in Hp.
  split.
  { rewrite HE, Hid. apply lookup_insert_eq. }
  split; [reflexivity |].
  split.
  { rewrite HE, Hid, lookup_insert_eq. reflexivity. }
  split.
  { destruct Hp as [-> | (_ & Hs & ->)]; [apply startsWith_refl | exact Hs]. }
  split.
  { intros Hno. destruct Hp as [Hp | (_ & Hs & _)]; [exact Hp | congruence]. }
  intros Hne Hs. unfold EnsureOutputPrefix.
  change (generateDefaultOutputPrefix j) with canonical.
  destruct (String.eqb_spec (OutputPrefix j) "") as [He | _]; [contradiction |].
  cbn [andb negb]. rewrite Hs. cbn [negb]. rewrite andb_false_r. reflexivity.
Qed.

(** A job submitted without output fields is stored with the canonical
    prefix. *)
Lemma Create_output_prefix_witness :
  Create (sample.aJob "J1" "PENDING" "") sample.emptyStore
    = (None, EnsureOutputPrefix (sample.aJob "J1" "PENDING" ""),
       mkStore {[ "J1" := EnsureOutputPrefix (sample.aJob "J1" "PENDING" "") ]} []) /\
  OutputPrefix (EnsureOutputPrefix (sample.aJob "J1" "PENDING" "")) = "jobs/J1/1/".
Proof.
  assert (H : Create (sample.aJob "J1" "PENDING" "") sample.emptyStore
    = (None, EnsureOutputPrefix (sample.aJob "J1" "PENDING" ""),
       mkStore {[ "J1" := EnsureOutputPrefix (sample.aJob "J1" "PENDING" "") ]} []))
    by reflexivity.
  split; [exact H |].
  apply (Create_output_prefix _ _ _ _ H). reflexivity.
Defined.

(** C3, as the specification states it, fails: [Create] accepts a job whose
    submitted prefix ["jobs/J1/1/extra/"] differs from the canonical
    ["jobs/J1/1/"] and persists it unchanged. *)
Lemma Create_keeps_longer_prefix :
  fst (fst (Create sample.deepPrefixJob sample.emptyStore)) = None /\
  OutputPrefix <$> (rows (snd (Create sample.deepPrefixJob sample.emptyStore)) !! "J1")
    = Some "jobs/J1/1/extra/" /\
  "jobs/" +:+ JobID sample.deepPrefixJob +:+ "/" +:+
     intToString (AttemptID sample.deepPrefixJob) +:+ "/" = "jobs/J1/1/" /\
  "jobs/J1/1/extra/" <> "jobs/J1/1/".
Proof.
  repeat split; try reflexivity. discriminate.
Qed.

(** ** The status reconciler *)

Import control gateway.

Lemma no_edge_to_pending (s : string) : CanTransitionTo s StatusPending = false.
Proof.
  unfold CanTransitionTo, StatusPending, StatusAssigned, StatusRunning,
    StatusSucceeded, StatusFailed, StatusCanceled, StatusLost.
  eqb_cases; try discriminate; reflexivity.
Qed.

Lemma jobStatusFromProto_unrecognized (tag : Z) :
  tag <> JobStatusEnum_JOB_STATUS_ASSIGNED ->
  tag <> JobStatusEnum_JOB_STATUS_RUNNING ->
  tag <> JobStatusEnum_JOB_STATUS_SUCCEEDED ->
  tag <> JobStatusEnum_JOB_STATUS_FAILED ->
  tag <> JobStatusEnum_JOB_STATUS_CANCELED ->
  tag <> JobStatusEnum_JOB_STATUS_LOST ->
  jobStatusFromProto tag = StatusPending.
Proof.
  intros H1 H2 H3 H4 H5 H6. unfold jobStatusFromProto.
  apply Z.eqb_neq in H1, H2, H3, H4, H5, H6.
  rewrite H1, H2, H3, H4, H5, H6. reflexivity.
Qed.

(** C10: a [JobStatus] whose status tag is none of ASSIGNED, RUNNING,
    SUCCEEDED, FAILED, CANCELED, LOST (the UNKNOWN tag and any other [int32]
    included) is mapped to PENDING by [jobStatusFromProto], and
    [handleJobStatus] returns with the job store, the registry and the queue
    exactly as they were. *)
Theorem unrecognized_status_changes_nothing
    (env : Env) (g : Gateway) (agentConn : AgentConnection)
    (envelope : Envelope) (status : JobStatus) :
  JobStatus_Status status <> JobStatusEnum_JOB_STATUS_ASSIGNED ->
  JobStatus_Status status <> JobStatusEnum_JOB_STATUS_RUNNING ->
  JobStatus_Status status <> JobStatusEnum_JOB_STATUS_SUCCEEDED ->
  JobStatus_Status status <> JobStatusEnum_JOB_STATUS_FAILED ->
  JobStatus_Status status <> JobStatusEnum_JOB_STATUS_CANCELED ->
  JobStatus_Status status <> JobStatusEnum_JOB_STATUS_LOST ->
  jobStatusFromProto (JobStatus_Status status) = StatusPending /\
  handleJobStatus env g agentConn envelope status = g.
Proof.
  intros H1 H2 H3 H4 H5 H6.
  pose proof (jobStatusFromProto_unrecognized _ H1 H2 H3 H4 H5 H6) as Hp.
  split; [exact Hp |].
  unfold handleJobStatus. rewrite Hp.
  destruct (AgentId envelope =? ""); [reflexivity |].
  destruct (negb (AgentID agentConn =? AgentId envelope)); [reflexivity |].
  destruct (JobStatus_JobId status =? ""); [reflexivity |].
  destruct (Get (JobStatus_JobId status) (jobStore g)) as [j | e]; [| reflexivity].
  destruct (negb (AssignedAgentID j =? AgentId envelope)); [reflexivity |].
  destruct (negb (JobStatus_AttemptId status =? AttemptID j)%Z); [reflexivity |].
  destruct (IsTerminal (Status j)); [reflexivity |].
  change (IsValid StatusPending) with true.
  cbn [negb]. unfold applyStatus.
  change (StatusPending =? StatusRunning) with false.
  change (StatusPending =? StatusSucceeded) with false.
  change (StatusPending =? StatusFailed) with false.
  change (StatusPending =? StatusCanceled) with false.
  change (StatusPending =? StatusLost) with false.
  cbn [negb orb]. rewrite no_edge_to_pending. reflexivity.
Qed.

(** The tag 42 reported for a RUNNING job changes nothing. *)
Lemma unrecognized_status_changes_nothing_witness :
  (42 <> JobStatusEnum_JOB_STATUS_ASSIGNED /\
   42 <> JobStatusEnum_JOB_STATUS_RUNNING /\
   42 <> JobStatusEnum_JOB_STATUS_SUCCEEDED /\
   42 <> JobStatusEnum_JOB_STATUS_FAILED /\
   42 <> JobStatusEnum_JOB_STATUS_CANCELED /\
   42 <> JobStatusEnum_JOB_STATUS_LOST) /\
  handleJobStatus (sample.anEnv true true)
    (sample.aGateway (sample.aJob "J1" "RUNNING" "A1") [] (sample.anAgent "A1" 1 1) [])
    (sample.connOf "A1") (sample.headerOf "A1") (sample.report "J1" 42 "" "out")
  = sample.aGateway (sample.aJob "J1" "RUNNING" "A1") [] (sample.anAgent "A1" 1 1) [].
Proof.
  split; [repeat split; discriminate |].
  apply (unrecognized_status_changes_nothing (sample.anEnv true true)
           (sample.aGateway (sample.aJob "J1" "RUNNING" "A1") []
              (sample.anAgent "A1" 1 1) [])
           (sample.connOf "A1") (sample.headerOf "A1")
           (sample.report "J1" 42 "" "out")); discriminate.
Defined.

Lemma Get_present (jobID : string) (st : SQLiteStore) (j : Job) :
  Get jobID st = Ok j -> rows st !! jobID = Some j /\ IsValid (Status j) = true.
Proof.
  unfold Get. destruct (rows st !! jobID) as [j' |]; [| discriminate].
  destruct (IsValid (Status j')) eqn:Hv; cbn [negb]; [| discriminate].
  intros H. injection H as <-. split; [reflexivity | assumption].
Qed.

Lemma handleJobStatus_terminal (env : Env) (g : Gateway)
    (agentConn : AgentConnection) (envelope : Envelope) (status : JobStatus)
    (j : Job) :
  rows (jobStore g) !! JobStatus_JobId status = Some j ->
  IsTerminal (Status j) = true ->
  handleJobStatus env g agentConn envelope status = g.
Proof.
  intros Hj Ht. unfold handleJobStatus.
  destruct (AgentId envelope =? ""); [reflexivity |].
  destruct (negb (AgentID agentConn =? AgentId envelope)); [reflexivity |].
  destruct (JobStatus_JobId status =? ""); [reflexivity |].
  destruct (Get (JobStatus_JobId status) (jobStore g)) as [j' | e] eqn:HG;
    [| reflexivity].
  apply Get_present in HG. destruct HG as [HG _].
  rewrite Hj in HG. injection HG as <-.
  destruct (negb (AssignedAgentID j =? AgentId envelope)); [reflexivity |].
  destruct (negb (JobStatus_AttemptId status =? AttemptID j)%Z); [reflexivity |].
  destruct (negb (IsValid (jobStatusFromProto (JobStatus_Status status))));
    [reflexivity |].
  rewrite Ht. reflexivity.
Qed.

(** C6: when a first delivery of a [JobStatus] report has left the job in a
    terminal status, delivering the same report again (at any later time)
    returns the gateway unchanged: job store, registry (and so every
    [RunningJobs] count) and queue are what the first delivery left. *)
Theorem terminal_report_redelivery (env1 env2 : Env) (g : Gateway)
    (agentConn : AgentConnection) (envelope : Envelope) (status : JobStatus)
    (j1 : Job) :
  rows (jobStore (handleJobStatus env1 g agentConn envelope status))
    !! JobStatus_JobId status = Some j1 ->
  IsTerminal (Status j1) = true ->
  handleJobStatus env2 (handleJobStatus env1 g agentConn envelope status)
    agentConn envelope status
  = handleJobStatus env1 g agentConn envelope status.
Proof.
  intros H1 Ht. exact (handleJobStatus_terminal _ _ _ _ _ _ H1 Ht).
Qed.

(** SUCCEEDED reported twice for a RUNNING job: the second delivery changes
    nothing. *)
Lemma terminal_report_redelivery_witness :
  Status <$> (rows (jobStore sample.gRunning) !! "J1") = Some "RUNNING" /\
  Status <$> (rows (jobStore
      (handleJobStatus (sample.anEnv true true) sample.gRunning
         (sample.connOf "A1") (sample.headerOf "A1")
         (sample.report "J1" 3 "" "out"))) !! "J1") = Some "SUCCEEDED" /\
  handleJobStatus (sample.anEnv true true)
    (handleJobStatus (sample.anEnv true true) sample.gRunning
       (sample.connOf "A1") (sample.headerOf "A1") (sample.report "J1" 3 "" "out"))
    (sample.connOf "A1") (sample.headerOf "A1") (sample.report "J1" 3 "" "out")
  = handleJobStatus (sample.anEnv true true) sample.gRunning
      (sample.connOf "A1") (sample.headerOf "A1") (sample.report "J1" 3 "" "out").
Proof.
  split; [reflexivity |]. split; [reflexivity |].
  apply (terminal_report_redelivery (sample.anEnv true true)
           (sample.anEnv true true) sample.gRunning (sample.connOf "A1")
           (sample.headerOf "A1") (sample.report "J1" 3 "" "out")
           (with_Status "SUCCEEDED"
              (with_StdoutStderr "out" ""
                 (sample.dispatchedJob "J1" "RUNNING" "A1"))));
    reflexivity.
Defined.

Lemma setStore_same (g : Gateway) : setStore (jobStore g) g = g.
Proof. destruct g; reflexivity. Qed.

Lemma UpdateStdoutStderr_rows (jobID out err : string) (st : SQLiteStore) (j : Job) :
  rows st !! jobID = Some j ->
  rows (snd (UpdateStdoutStderr jobID out err st)) =
    if driver_ok st then <[jobID := with_StdoutStderr out err j]> (rows st)
    else rows st.
Proof.
  intros Hj. unfold UpdateStdoutStderr. rewrite Exec_UPDATE.
  destruct (driver_ok st); cbn [snd rows]; [| reflexivity].
  apply alter_present; assumption.
Qed.

Lemma UpdateStdoutStderr_keeps (jobID out err : string) (st : SQLiteStore) (j : Job) :
  rows st !! jobID = Some j ->
  exists j1, rows (snd (UpdateStdoutStderr jobID out err st)) !! jobID = Some j1 /\
             Status j1 = Status j /\ OutputKey j1 = OutputKey j.
Proof.
  intros Hj. rewrite (UpdateStdoutStderr_rows _ _ _ _ _ Hj).
  destruct (driver_ok st).
  - exists (with_StdoutStderr out err j). rewrite lookup_insert_eq. auto.
  - exists j. auto.
Qed.

Lemma UpdateStatus_no_edge (jobID t : string) (st : SQLiteStore) (j : Job) :
  rows st !! jobID = Some j ->
  CanTransitionTo (Status j) t = false ->
  exists e, UpdateStatus jobID t st = (Some e, st).
Proof.
  intros Hj Hno. rewrite (UpdateStatus_present _ _ _ _ Hj), Hno.
  destruct (IsValid t), (IsValid (Status j)); cbn [negb]; eauto.
Qed.

Lemma updateStatusThenRelease_no_edge (env : Env) (agentID jobID t : string)
    (g : Gateway) (j : Job) :
  rows (jobStore g) !! jobID = Some j ->
  CanTransitionTo (Status j) t = false ->
  updateStatusThenRelease env agentID jobID t g = g.
Proof.
  intros Hj Hno. unfold updateStatusThenRelease.
  destruct (UpdateStatus_no_edge _ _ _ _ Hj Hno) as [e ->].
  apply setStore_same.
Qed.

Lemma succeeded_failed_same_sources (s : string) :
  CanTransitionTo s StatusFailed = CanTransitionTo s StatusSucceeded.
Proof.
  unfold CanTransitionTo, StatusPending, StatusAssigned, StatusRunning,
    StatusSucceeded, StatusFailed, StatusCanceled, StatusLost.
  eqb_cases; try discriminate; try congruence; reflexivity.
Qed.

Lemma jobStatusFromProto_valid (tag : Z) :
  IsValid (jobStatusFromProto tag) = true.
Proof.
  unfold jobStatusFromProto.
  repeat match goal with |- context [Z.eqb ?a ?b] => destruct (Z.eqb a b) end;
    reflexivity.
Qed.

Lemma persist_output (g : Gateway) (jobID out err : string) (j : Job) :
  rows (jobStore g) !! jobID = Some j ->
  registry (setStore (snd (UpdateStdoutStderr jobID out err (jobStore g))) g)
    = registry g /\
  jobQueue (setStore (snd (UpdateStdoutStderr jobID out err (jobStore g))) g)
    = jobQueue g /\
  rows (jobStore (setStore (snd (UpdateStdoutStderr jobID out err (jobStore g))) g))
    = (if driver_ok (jobStore g)
       then <[jobID := with_StdoutStderr out err j]> (rows (jobStore g))
       else rows (jobStore g)) /\
  exists j1,
    rows (jobStore (setStore (snd (UpdateStdoutStderr jobID out err (jobStore g))) g))
      !! jobID = Some j1 /\
    Status j1 = Status j /\ OutputKey j1 = OutputKey j.
Proof.
  intros Hj. cbn [registry jobQueue jobStore setStore].
  repeat split; try reflexivity.
  - apply UpdateStdoutStderr_rows; assumption.
  - apply UpdateStdoutStderr_keeps; assumption.
Qed.

Lemma setStore_UpdateStatus_no_edge (g : Gateway) (jobID t : string) (j : Job) :
  rows (jobStore g) !! jobID = Some j ->
  CanTransitionTo (Status j) t = false ->
  setStore (snd (UpdateStatus jobID t (jobStore g))) g = g.
Proof.
  intros Hj Hno. destruct (UpdateStatus_no_edge _ _ _ _ Hj Hno) as [e ->].
  apply setStore_same.
Qed.

Lemma applyStatus_no_edge (env : Env) (g : Gateway) (agentID jobID : string)
    (j : Job) (status : JobStatus) (newStatus : string) :
  rows (jobStore g) !! jobID = Some j ->
  CanTransitionTo (Status j) newStatus = false ->
  registry (applyStatus env g agentID jobID j status newStatus) = registry g /\
  jobQueue (applyStatus env g agentID jobID j status newStatus) = jobQueue g /\
  (rows (jobStore (applyStatus env g agentID jobID j status newStatus))
     = rows (jobStore g) \/
   rows (jobStore (applyStatus env g agentID jobID j status newStatus))
     = <[jobID := with_StdoutStderr (JobStatus_Stdout status)
                    (JobStatus_Stderr status) j]> (rows (jobStore g))) /\
  (newStatus <> StatusRunning -> newStatus <> StatusSucceeded ->
   newStatus <> StatusFailed ->
   applyStatus env g agentID jobID j status newStatus = g) /\
  (driver_ok (jobStore g) = true ->
   newStatus = StatusSucceeded \/ newStatus = StatusFailed \/
   (newStatus = StatusRunning /\
    (JobStatus_Stdout status <> "" \/ JobStatus_Stderr status <> "")) ->
   rows (jobStore (applyStatus env g agentID jobID j status newStatus))
     = <[jobID := with_StdoutStderr (JobStatus_Stdout status)
                    (JobStatus_Stderr status) j]> (rows (jobStore g))).
Proof.
  intros Hj Hno.
  destruct (persist_output g jobID (JobStatus_Stdout status)
              (JobStatus_Stderr status) j Hj) as (Hr & Hq & Hrows & j1 & Hj1 & Hs1 & _).
  assert (Hno1 : CanTransitionTo (Status j1) newStatus = false) by (rewrite Hs1; exact Hno).
  assert (Hcases :
    rows (jobStore (setStore (snd (UpdateStdoutStderr jobID (JobStatus_Stdout status)
                                     (JobStatus_Stderr status) (jobStore g))) g))
      = rows (jobStore g) \/
    rows (jobStore (setStore (snd (UpdateStdoutStderr jobID (JobStatus_Stdout status)
                                     (JobStatus_Stderr status) (jobStore g))) g))
      = <[jobID := with_StdoutStderr (JobStatus_Stdout status)
                     (JobStatus_Stderr status) j]> (rows (jobStore g))).
  { rewrite Hrows. destruct (driver_ok (jobStore g)); auto. }
  unfold applyStatus.
  destruct (String.eqb_spec newStatus StatusRunning) as [-> | HnR].
  { (* RUNNING *)
    destruct (negb (JobStatus_Stdout status =? "") ||
              negb (JobStatus_Stderr status =? "")) eqn:Hc.
    - rewrite (setStore_UpdateStatus_no_edge _ _ _ _ Hj1 Hno1).
      repeat split; try assumption; try congruence.
      intros Hok _. rewrite Hrows, Hok. reflexivity.
    - rewrite (setStore_UpdateStatus_no_edge _ _ _ _ Hj Hno).
      repeat split; auto; try congruence.
      intros _ [H | [H | [_ H]]]; try discriminate.
      apply orb_false_elim in Hc. destruct Hc as [Ho He].
      apply negb_false_iff in Ho, He. apply String.eqb_eq in Ho, He.
      tauto. }
  destruct (String.eqb_spec newStatus StatusSucceeded) as [-> | HnS].
  { (* SUCCEEDED: the write tried is FAILED or SUCCEEDED, neither an edge *)
    assert (HnoF : CanTransitionTo (Status j1) StatusFailed = false)
      by (rewrite succeeded_failed_same_sources; exact Hno1).
    assert (Hres : forall t, t = StatusFailed \/ t = StatusSucceeded ->
      updateStatusThenRelease env agentID jobID t
        (setStore (snd (UpdateStdoutStderr jobID (JobStatus_Stdout status)
                          (JobStatus_Stderr status) (jobStore g))) g)
      = setStore (snd (UpdateStdoutStderr jobID (JobStatus_Stdout status)
                         (JobStatus_Stderr status) (jobStore g))) g).
    { intros t [-> | ->];
        eapply updateStatusThenRelease_no_edge; eassumption. }
    destruct (negb (JobStatus_OutputKey status =? ""));
      [destruct (OutputKey j =? "");
       [| destruct (negb (JobStatus_OutputKey status =? OutputKey j))] |];
      rewrite Hres by auto;
      (repeat split; try assumption; try congruence;
       intros Hok _; rewrite Hrows, Hok; reflexivity). }
  destruct (String.eqb_spec newStatus StatusFailed) as [-> | HnF].
  { rewrite (updateStatusThenRelease_no_edge _ _ _ _ _ _ Hj1 Hno1).
    repeat split; try assumption; try congruence.
    intros Hok _. rewrite Hrows, Hok. reflexivity. }
  rewrite Hno. cbn [negb].
  destruct ((newStatus =? StatusCanceled) || (newStatus =? StatusLost));
    (repeat split; auto; intros _ [H | [H | [H _]]]; contradiction).
Qed.

Lemma handleJobStatus_cases (env : Env) (g : Gateway)
    (agentConn : AgentConnection) (envelope : Envelope) (status : JobStatus)
    (j : Job) :
  rows (jobStore g) !! JobStatus_JobId status = Some j ->
  handleJobStatus env g agentConn envelope status = g \/
  handleJobStatus env g agentConn envelope status
    = applyStatus env g (AgentId envelope) (JobStatus_JobId status) j status
        (jobStatusFromProto (JobStatus_Status status)).
Proof.
  intros Hj. unfold handleJobStatus.
  destruct (AgentId envelope =? ""); [left; reflexivity |].
  destruct (negb (AgentID agentConn =? AgentId envelope)); [left; reflexivity |].
  destruct (JobStatus_JobId status =? ""); [left; reflexivity |].
  destruct (Get (JobStatus_JobId status) (jobStore g)) as [j' | e] eqn:HG;
    [| left; reflexivity].
  apply Get_present in HG. destruct HG as [HG _].
  rewrite Hj in HG. injection HG as <-.
  destruct (negb (AssignedAgentID j =? AgentId envelope)); [left; reflexivity |].
  destruct (negb (JobStatus_AttemptId status =? AttemptID j)%Z); [left; reflexivity |].
  destruct (negb (IsValid (jobStatusFromProto (JobStatus_Status status))));
    [left; reflexivity |].
  destruct (IsTerminal (Status j)); [left; reflexivity |].
  right; reflexivity.
Qed.

Lemma handleJobStatus_delivered (env : Env) (g : Gateway)
    (agentConn : AgentConnection) (envelope : Envelope) (status : JobStatus)
    (j : Job) :
  fromAssignedAgent g agentConn envelope status j ->
  IsValid (Status j) = true ->
  IsTerminal (Status j) = false ->
  handleJobStatus env g agentConn envelope status
    = applyStatus env g (AgentId envelope) (JobStatus_JobId status) j status
        (jobStatusFromProto (JobStatus_Status status)).
Proof.
  intros (Ha & Hc & Hid & Hj & Hown & Hatt) Hv Ht. unfold handleJobStatus, Get.
  apply String.eqb_neq in Ha, Hid. rewrite Ha, Hc, String.eqb_refl, Hid, Hj, Hv.
  cbn [negb]. rewrite Hown, String.eqb_refl, Hatt, Z.eqb_refl.
  cbn [negb]. rewrite jobStatusFromProto_valid, Ht. reflexivity.
Qed.

Lemma with_StdoutStderr_back (out err : string) (j : Job) :
  with_StdoutStderr (Stdout j) (Stderr j) (with_StdoutStderr out err j) = j.
Proof. destruct j; reflexivity. Qed.

Lemma with_StdoutStderr_same (j : Job) :
  with_StdoutStderr (Stdout j) (Stderr j) j = j.
Proof. destruct j; reflexivity. Qed.




Lemma updateStatusThenRelease_ok (env : Env) (agentID jobID t : string)
    (g : Gateway) (j : Job) :
  rows (jobStore g) !! jobID = Some j ->
  IsValid t = true ->
  IsValid (Status j) = true ->
  CanTransitionTo (Status j) t = true ->
  driver_ok (jobStore g) = true ->
  updateStatusThenRelease env agentID jobID t g =
    releaseCapacity env agentID
      (setStore (mkStore (<[jobID := with_Status t j]> (rows (jobStore g)))
                   (tail (faults (jobStore g)))) g).
Proof.
  intros Hj Ht Hv Hc Hok. unfold updateStatusThenRelease.
  rewrite (UpdateStatus_present _ _ _ _ Hj), Ht, Hv, Hc. cbn [negb].
  rewrite Exec_UPDATE, Hok. rewrite (alter_present _ _ _ _ Hj). reflexivity.
Qed.

Lemma releaseCapacity_store (env : Env) (agentID : string) (g : Gateway) :
  jobStore (releaseCapacity env agentID g) = jobStore g.
Proof.
  unfold releaseCapacity.
  destruct (registry.GetAgent _ _ _) as [a |]; [| reflexivity].
  destruct (registry.RunningJobs a >? 0)%Z; reflexivity.
Qed.

Lemma releaseCapacity_registry (env : Env) (agentID : string) (g : Gateway)
    (st : SQLiteStore) :
  registry (releaseCapacity env agentID (setStore st g))
    = registry (releaseCapacity env agentID g).
Proof.
  unfold releaseCapacity. cbn [registry setStore].
  destruct (registry.GetAgent _ _ _) as [a |]; [| reflexivity].
  destruct (registry.RunningJobs a >? 0)%Z; reflexivity.
Qed.

Lemma GetAgent_present (now : Z) (agentID : string)
    (agents : gmap string registry.AgentInfo) (a : registry.AgentInfo) :
  registry.GetAgent now agentID agents = Some a -> agents !! agentID = Some a.
Proof.
  unfold registry.GetAgent. destruct (agents !! agentID) as [a' |]; [| discriminate].
  destruct (now - registry.LastHeartbeat a' >=? 60 * registry.Second)%Z;
    [discriminate | congruence].
Qed.

Lemma releaseCapacity_effect (env : Env) (agentID : string) (g : Gateway) :
  (forall a, registry.GetAgent (now env) agentID (registry g) = Some a ->
             (0 < registry.RunningJobs a)%Z ->
     registry (releaseCapacity env agentID g) =
       <[agentID := registry.mkAgentInfo (registry.AgentID a) (registry.Hostname a)
                      (registry.MaxConcurrency a) (registry.Paused a)
                      (registry.RunningJobs a - 1) (now env)
                      (registry.ConnectedAt a)]> (registry g)) /\
  (registry.GetAgent (now env) agentID (registry g) = None ->
     registry (releaseCapacity env agentID g) = registry g) /\
  (forall a, registry.GetAgent (now env) agentID (registry g) = Some a ->
             (registry.RunningJobs a <= 0)%Z ->
     registry (releaseCapacity env agentID g) = registry g).
Proof.
  unfold releaseCapacity. repeat split.
  - intros a Ha Hpos. rewrite Ha.
    assert (Hgt : (registry.RunningJobs a >? 0)%Z = true) by lia.
    rewrite Hgt. cbn [registry setRegistry]. unfold registry.UpdateHeartbeat.
    rewrite (GetAgent_present _ _ _ _ Ha). reflexivity.
  - intros ->. reflexivity.
  - intros a Ha Hle. rewrite Ha.
    assert (Hgt : (registry.RunningJobs a >? 0)%Z = false) by lia.
    rewrite Hgt. reflexivity.
Qed.

Lemma succeeded_report_applied (env : Env) (g : Gateway) (agentID jobID : string)
    (j : Job) (status : JobStatus) :
  rows (jobStore g) !! jobID = Some j ->
  Status j = StatusRunning ->
  faults (jobStore g) = [] ->
  let final :=
    if negb (JobStatus_OutputKey status =? "") &&
       negb (JobStatus_OutputKey status =? OutputKey j)
    then StatusFailed else StatusSucceeded in
  rows (jobStore (applyStatus env g agentID jobID j status StatusSucceeded)) !! jobID
    = Some (with_Status final
              (with_StdoutStderr (JobStatus_Stdout status) (JobStatus_Stderr status) j)) /\
  registry (applyStatus env g agentID jobID j status StatusSucceeded)
    = registry (releaseCapacity env agentID g).
Proof.
  intros Hj Hs Hf final.
  set (j1 := with_StdoutStderr (JobStatus_Stdout status) (JobStatus_Stderr status) j).
  assert (Hok : driver_ok (jobStore g) = true) by (unfold driver_ok; rewrite Hf; reflexivity).
  unfold applyStatus.
  change (StatusSucceeded =? StatusRunning) with false.
  change (StatusSucceeded =? StatusSucceeded) with true.
  cbv beta iota.
  set (g1 := setStore (snd (UpdateStdoutStderr jobID (JobStatus_Stdout status)
                              (JobStatus_Stderr status) (jobStore g))) g).
  assert (Hg1 : jobStore g1 = mkStore (<[jobID := j1]> (rows (jobStore g))) []).
  { unfold g1, UpdateStdoutStderr. rewrite Exec_UPDATE, Hok, Hf.
    rewrite (alter_present _ _ _ _ Hj). reflexivity. }
  assert (Hj1 : rows (jobStore g1) !! jobID = Some j1)
    by (rewrite Hg1; apply lookup_insert_eq).
  assert (Hv1 : IsValid (Status j1) = true) by (cbn; rewrite Hs; reflexivity).
  assert (Hok1 : driver_ok (jobStore g1) = true) by (rewrite Hg1; reflexivity).
  assert (Hfin : forall t, t = StatusFailed \/ t = StatusSucceeded ->
    rows (jobStore (updateStatusThenRelease env agentID jobID t g1)) !! jobID
      = Some (with_Status t j1) /\
    registry (updateStatusThenRelease env agentID jobID t g1)
      = registry (releaseCapacity env agentID g)).
  { intros t Ht.
    rewrite (updateStatusThenRelease_ok env agentID jobID t g1 j1 Hj1);
      try assumption.
    - rewrite releaseCapacity_store, releaseCapacity_registry.
      split; [apply lookup_insert_eq |].
      unfold g1. apply releaseCapacity_registry.
    - destruct Ht as [-> | ->]; reflexivity.
    - cbn. rewrite Hs. destruct Ht as [-> | ->]; reflexivity. }
  unfold final.
  destruct (String.eqb_spec (JobStatus_OutputKey status) "") as [He | Hne];
    cbn [negb andb]; [apply Hfin; auto |].
  destruct (String.eqb_spec (OutputKey j) "") as [Hk | Hnk].
  - destruct (String.eqb_spec (JobStatus_OutputKey status) (OutputKey j)) as [E | _];
      [congruence |]. cbn [negb]. apply Hfin; auto.
  - destruct (String.eqb_spec (JobStatus_OutputKey status) (OutputKey j));
      cbn [negb]; apply Hfin; auto.
Qed.

Lemma edge_to_SUCCEEDED (s : string) :
  s <> StatusRunning -> CanTransitionTo s StatusSucceeded = false.
Proof.
  intros Hne. destruct (CanTransitionTo s StatusSucceeded) eqn:Hc; [| reflexivity].
  exfalso. apply Hne. apply CanTransitionTo_table in Hc. simpl in Hc.
  repeat (destruct Hc as [Hc | Hc];
          [inversion Hc; subst; reflexivity || discriminate |]).
  destruct Hc.
Qed.




(** ** The dispatcher *)

Lemma dequeueLoop_skips (st : SQLiteStore) (skipped : list string) :
  Forall (stale st) skipped ->
  forall (n : nat) (jobID : string) (j : option Job) (rest : list string),
    (length skipped <= n)%nat ->
    (forall j0, j = Some j0 -> Status j0 <> StatusPending) ->
    exists jobID' j',
      (forall j0, j' = Some j0 -> Status j0 <> StatusPending) /\
      dequeueLoop n jobID j (skipped ++ rest)%list st
        = dequeueLoop (n - length skipped) jobID' j' rest st.
Proof.
  induction 1 as [| x skipped Hx _ IH]; intros n jobID j rest Hlen Hj.
  - exists jobID, j. split; [assumption |].
    cbn [length app]. rewrite Nat.sub_0_r. reflexivity.
  - cbn [length] in Hlen. destruct n as [| n]; [lia |].
    cbn [app length dequeueLoop queue.Dequeue Nat.sub].
    unfold stale in Hx.
    destruct (Get x st) as [jx | e].
    + apply String.eqb_neq in Hx. rewrite Hx. cbn [negb].
      apply IH; [lia |]. intros j0 [= <-]. apply String.eqb_neq. assumption.
    + apply IH; [lia |]. intros j0 [=].
Qed.

Lemma dequeueLoop_bound (st : SQLiteStore) (n : nat) :
  forall (jobID : string) (j : option Job) (q : list string),
    match dequeueLoop n jobID j q st with
    | LoopReturn q' | LoopDone _ _ q' =>
        exists k : nat, (k <= n)%nat /\ q' = drop k q
    end.
Proof.
  induction n as [| n IH]; intros jobID j q.
  - exists 0%nat. split; [lia | reflexivity].
  - cbn [dequeueLoop]. destruct q as [| x q]; cbn [queue.Dequeue].
    + exists 0%nat. split; [lia | reflexivity].
    + assert (Hstep : forall jobID' j',
        match dequeueLoop n jobID' j' q st with
        | LoopReturn q' | LoopDone _ _ q' =>
            exists k : nat, (k <= S n)%nat /\ q' = drop k (x :: q)
        end).
      { intros jobID' j'. specialize (IH jobID' j' q).
        destruct (dequeueLoop n jobID' j' q st);
          destruct IH as (k & Hk & ->); exists (S k); (split; [lia | reflexivity]). }
      destruct (Get x st) as [jx | e]; [| apply Hstep].
      destruct (negb (Status jx =? StatusPending)); [apply Hstep |].
      exists 1%nat. split; [lia | reflexivity].
Qed.

Lemma reEnqueue_setStore (jobID : string) (g : Gateway) (st : SQLiteStore) :
  jobQueue (reEnqueue jobID (setStore st g)) = jobQueue (reEnqueue jobID g).
Proof. unfold reEnqueue. cbn. destruct (jobQueue g); reflexivity. Qed.

Lemma commitAssignment_queue (env : Env) (g : Gateway)
    (agentConn : AgentConnection) (envelope : Envelope) (agentID : string)
    (info : registry.AgentInfo) (jobID : string) (j : Job) (attemptID : Z) :
  jobQueue (fst (commitAssignment env g agentConn envelope agentID info jobID j
                   attemptID)) = jobQueue g \/
  jobQueue (fst (commitAssignment env g agentConn envelope agentID info jobID j
                   attemptID)) = jobQueue (reEnqueue jobID g).
Proof.
  unfold commitAssignment.
  repeat match goal with
         | |- context [let '(_, _) := ?x in _] => destruct x
         | |- context [match ?x with _ => _ end] => destruct x
         end;
    cbn [fst jobQueue setStore setRegistry jobStore registry];
    rewrite ?reEnqueue_setStore; auto.
Qed.

Lemma assignJob_queue (env : Env) (g : Gateway) (agentConn : AgentConnection)
    (envelope : Envelope) (agentID : string) (info : registry.AgentInfo)
    (jobID : string) (j : Job) :
  jobQueue (fst (assignJob env g agentConn envelope agentID info jobID j))
    = jobQueue g \/
  jobQueue (fst (assignJob env g agentConn envelope agentID info jobID j))
    = jobQueue (reEnqueue jobID g).
Proof.
  unfold assignJob.
  destruct (AttemptID j <? 1)%Z.
  - destruct (UpdateAttemptID jobID 1 (jobStore g)) as [[e |] st].
    + right. cbn [fst]. apply reEnqueue_setStore.
    + destruct (commitAssignment_queue env (setStore st g) agentConn envelope
                  agentID info jobID (with_AttemptID 1 j) 1) as [-> | ->].
      * left. reflexivity.
      * right. apply reEnqueue_setStore.
  - destruct (AttemptID j >? 1)%Z; apply commitAssignment_queue.
Qed.

Lemma handleRequestJob_past_admission (env : Env) (g : Gateway)
    (agentConn : AgentConnection) (envelope : Envelope) (req : RequestJob)
    (info : registry.AgentInfo) (q : list string) :
  RequestJob_AgentId req = "" \/ RequestJob_AgentId req = AgentId envelope ->
  AgentId envelope <> "" ->
  registry.GetAgent (now env) (AgentId envelope) (registry g) = Some info ->
  registry.Paused info = false ->
  (registry.RunningJobs info < registry.MaxConcurrency info)%Z ->
  jobQueue g = Some q ->
  handleRequestJob env g agentConn envelope req =
    match dequeueLoop maxDequeueAttempts "" None q (jobStore g) with
    | LoopReturn q => (setQueue q g, agentConn)
    | LoopDone jobID j q =>
        match j with
        | None => (setQueue q g, agentConn)
        | Some j =>
            if negb (Status j =? StatusPending) then (setQueue q g, agentConn)
            else assignJob env (setQueue q g) agentConn envelope
                   (AgentId envelope) info jobID j
        end
    end.
Proof.
  intros Hreq Hid Hget Hp Hcap Hq. unfold handleRequestJob.
  assert (Hc : negb (RequestJob_AgentId req =? "") &&
               negb (RequestJob_AgentId req =? AgentId envelope) = false).
  { destruct Hreq as [-> | ->]; [reflexivity |].
    rewrite String.eqb_refl. apply andb_false_r. }
  rewrite Hc. apply String.eqb_neq in Hid. rewrite Hid, Hget, Hp.
  assert (Hge : (registry.RunningJobs info >=? registry.MaxConcurrency info)%Z = false)
    by lia.
  rewrite Hge, Hq. reflexivity.
Qed.

Lemma setQueue_same (g : Gateway) (q : list string) :
  jobQueue g = Some q -> setQueue q g = g.
Proof. destruct g; cbn. intros ->. reflexivity. Qed.

(** C7: the dequeue-and-validate loop of [handleRequestJob], for an agent
    that passes admission.  The loop takes at most 5 ids from the queue.  On
    an empty queue the handler returns with nothing changed and no reply.
    Ids that the store does not know or whose job is not PENDING are
    skipped and not put back: if the queue holds fewer than 5 ids, all of
    them such, the handler drains it and returns without a reply; if the
    first 5 ids are all such, the handler drops exactly these 5 and returns
    without a reply, store and registry untouched; and if a PENDING job
    follows fewer than 5 such ids, it is that job (the first PENDING one)
    that goes on to be assigned, with the ids before it dropped: afterwards
    the queue is what followed that job, with at most that job's id
    appended. *)
Theorem dequeue_loop_bounded_skip (env : Env) (g : Gateway)
    (agentConn : AgentConnection) (envelope : Envelope) (req : RequestJob)
    (info : registry.AgentInfo) (q : list string) :
  RequestJob_AgentId req = "" \/ RequestJob_AgentId req = AgentId envelope ->
  AgentId envelope <> "" ->
  registry.GetAgent (now env) (AgentId envelope) (registry g) = Some info ->
  registry.Paused info = false ->
  (registry.RunningJobs info < registry.MaxConcurrency info)%Z ->
  jobQueue g = Some q ->
  match dequeueLoop maxDequeueAttempts "" None q (jobStore g) with
  | LoopReturn q' | LoopDone _ _ q' =>
      exists k : nat, (k <= 5)%nat /\ q' = drop k q
  end /\
  (q = [] -> handleRequestJob env g agentConn envelope req = (g, agentConn)) /\
  ((length q < 5)%nat -> Forall (stale (jobStore g)) q ->
   handleRequestJob env g agentConn envelope req = (setQueue [] g, agentConn)) /\
  (forall skipped rest,
     q = (skipped ++ rest)%list -> length skipped = 5%nat ->
     Forall (stale (jobStore g)) skipped ->
     handleRequestJob env g agentConn envelope req = (setQueue rest g, agentConn)) /\
  (forall skipped jobID j rest,
     q = (skipped ++ jobID :: rest)%list -> (length skipped < 5)%nat ->
     Forall (stale (jobStore g)) skipped ->
     Get jobID (jobStore g) = Ok j -> Status j = StatusPending ->
     handleRequestJob env g agentConn envelope req =
       assignJob env (setQueue rest g) agentConn envelope (AgentId envelope)
         info jobID j /\
     (jobQueue (fst (handleRequestJob env g agentConn envelope req)) = Some rest \/
      jobQueue (fst (handleRequestJob env g agentConn envelope req))
        = Some (rest ++ [jobID])%list)).
Proof.
  intros Hreq Hid Hget Hp Hcap Hq.
  rewrite (handleRequestJob_past_admission env g agentConn envelope req info q
             Hreq Hid Hget Hp Hcap Hq).
  split; [apply (dequeueLoop_bound (jobStore g) maxDequeueAttempts) |].
  split.
  { intros ->. cbn. rewrite (setQueue_same g [] Hq). reflexivity. }
  split.
  { intros Hlen Hst.
    destruct (dequeueLoop_skips (jobStore g) q Hst maxDequeueAttempts "" None []
                ltac:(unfold maxDequeueAttempts; lia) ltac:(discriminate))
      as (jobID' & j' & _ & E).
    rewrite app_nil_r in E. rewrite E.
    unfold maxDequeueAttempts.
    destruct (5 - length q)%nat as [| m] eqn:Hm; [lia |]. reflexivity. }
  split.
  { intros skipped rest -> Hlen Hst.
    destruct (dequeueLoop_skips (jobStore g) skipped Hst maxDequeueAttempts "" None rest
                ltac:(unfold maxDequeueAttempts; lia) ltac:(discriminate))
      as (jobID' & j' & Hj' & E).
    rewrite E. unfold maxDequeueAttempts. rewrite Hlen. cbn [Nat.sub dequeueLoop].
    destruct j' as [j0 |]; [| reflexivity].
    specialize (Hj' j0 eq_refl). apply String.eqb_neq in Hj'. rewrite Hj'.
    reflexivity. }
  intros skipped jobID j rest -> Hlen Hst HG Hs.
  destruct (dequeueLoop_skips (jobStore g) skipped Hst maxDequeueAttempts "" None
              (jobID :: rest) ltac:(unfold maxDequeueAttempts; lia) ltac:(discriminate))
    as (jobID' & j' & _ & E).
  rewrite E. unfold maxDequeueAttempts.
  destruct (5 - length skipped)%nat as [| m] eqn:Hm; [lia |].
  cbn [dequeueLoop queue.Dequeue]. rewrite HG, Hs.
  change (StatusPending =? StatusPending) with true. cbn [negb].
  rewrite Hs. change (StatusPending =? StatusPending) with true. cbn [negb].
  split; [reflexivity |].
  destruct (assignJob_queue env (setQueue rest g) agentConn envelope
              (AgentId envelope) info jobID j) as [-> | ->].
  - left. reflexivity.
  - unfold reEnqueue, queue.Enqueue. cbn [jobQueue setQueue].
    destruct (jobID =? ""); cbn [snd jobQueue setQueue]; auto.
Qed.

(** Scenario S2: the stale id is skipped and the PENDING job behind it goes
    on to be assigned. *)
Lemma dequeue_loop_bounded_skip_witness :
  (RequestJob_AgentId (mkRequestJob "A1") = "" \/
   RequestJob_AgentId (mkRequestJob "A1") = AgentId (sample.headerOf "A1")) /\
  AgentId (sample.headerOf "A1") <> "" /\
  registry.GetAgent (now (sample.anEnv true true)) (AgentId (sample.headerOf "A1"))
    (registry sample.gStaleThenOk) = Some (sample.anAgent "A1" 1 0) /\
  registry.Paused (sample.anAgent "A1" 1 0) = false /\
  (registry.RunningJobs (sample.anAgent "A1" 1 0)
   < registry.MaxConcurrency (sample.anAgent "A1" 1 0))%Z /\
  jobQueue sample.gStaleThenOk = Some ["J_stale"; "J_ok"] /\
  handleRequestJob (sample.anEnv true true) sample.gStaleThenOk
    (sample.connOf "A1") (sample.headerOf "A1") (mkRequestJob "A1")
  = assignJob (sample.anEnv true true) (setQueue [] sample.gStaleThenOk)
      (sample.connOf "A1") (sample.headerOf "A1") "A1" (sample.anAgent "A1" 1 0)
      "J_ok" (sample.aJob "J_ok" "PENDING" "").
Proof.
  assert (H1 : RequestJob_AgentId (mkRequestJob "A1") = "" \/
               RequestJob_AgentId (mkRequestJob "A1") = AgentId (sample.headerOf "A1"))
    by (right; reflexivity).
  assert (H2 : AgentId (sample.headerOf "A1") <> "") by discriminate.
  assert (H3 : registry.GetAgent (now (sample.anEnv true true))
                 (AgentId (sample.headerOf "A1")) (registry sample.gStaleThenOk)
               = Some (sample.anAgent "A1" 1 0)) by reflexivity.
  assert (H4 : registry.Paused (sample.anAgent "A1" 1 0) = false) by reflexivity.
  assert (H5 : (registry.RunningJobs (sample.anAgent "A1" 1 0)
                < registry.MaxConcurrency (sample.anAgent "A1" 1 0))%Z)
    by reflexivity.
  assert (H6 : jobQueue sample.gStaleThenOk = Some ["J_stale"; "J_ok"])
    by reflexivity.
  repeat (split; [assumption |]).
  apply (proj2 (proj2 (proj2 (proj2
           (dequeue_loop_bounded_skip (sample.anEnv true true) sample.gStaleThenOk
              (sample.connOf "A1") (sample.headerOf "A1") (mkRequestJob "A1")
              (sample.anAgent "A1" 1 0) ["J_stale"; "J_ok"] H1 H2 H3 H4 H5 H6))))
         ["J_stale"] "J_ok" (sample.aJob "J_ok" "PENDING" "") []).
  - reflexivity.
  - repeat constructor.
  - constructor; [| constructor]. unfold stale.
    replace (Get "J_stale" (jobStore sample.gStaleThenOk))
      with (Ok (sample.dispatchedJob "J_stale" "ASSIGNED" "A2")) by reflexivity.
    discriminate.
  - reflexivity.
  - reflexivity.
Defined.

Lemma UpdateStatus_to_PENDING_fails (jobID : string) (st : SQLiteStore) :
  exists e, UpdateStatus jobID StatusPending st = (Some e, st).
Proof.
  destruct (rows st !! jobID) as [j |] eqn:Hj.
  - apply (UpdateStatus_no_edge _ _ _ _ Hj). apply no_edge_to_pending.
  - rewrite (UpdateStatus_absent _ _ _ Hj). cbn. eauto.
Qed.

(** C2 fails on the code.  The rollback of the dispatcher calls
    [UpdateStatus(jobID, PENDING)], and that call is refused for every job
    and every store: no edge of the transition table leads to PENDING.  So
    when the output write ([UpdateOutput], the third write of the commit
    sequence) fails for the PENDING job J5, or when marshaling JobAssigned
    fails, the handler sends nothing and re-enqueues J5 with an empty
    [assigned_agent_id], but leaves its status ASSIGNED, not PENDING. *)
Theorem rollback_leaves_job_ASSIGNED :
  (forall jobID st, fst (UpdateStatus jobID StatusPending st) <> None /\
                    snd (UpdateStatus jobID StatusPending st) = st) /\
  (SendChan (snd (handleRequestJob (sample.anEnv true true)
                    (sample.gPending [false; false; true]) (sample.connOf "A1")
                    (sample.headerOf "A1") (mkRequestJob "A1"))) = [] /\
   jobQueue (fst (handleRequestJob (sample.anEnv true true)
                    (sample.gPending [false; false; true]) (sample.connOf "A1")
                    (sample.headerOf "A1") (mkRequestJob "A1"))) = Some ["J5"] /\
   (fun j => (Status j, AssignedAgentID j)) <$>
     (rows (jobStore (fst (handleRequestJob (sample.anEnv true true)
                      (sample.gPending [false; false; true]) (sample.connOf "A1")
                      (sample.headerOf "A1") (mkRequestJob "A1")))) !! "J5")
   = Some ("ASSIGNED", "")) /\
  (SendChan (snd (handleRequestJob (sample.anEnv true false)
                    (sample.gPending []) (sample.connOf "A1")
                    (sample.headerOf "A1") (mkRequestJob "A1"))) = [] /\
   jobQueue (fst (handleRequestJob (sample.anEnv true false)
                    (sample.gPending []) (sample.connOf "A1")
                    (sample.headerOf "A1") (mkRequestJob "A1"))) = Some ["J5"] /\
   (fun j => (Status j, AssignedAgentID j)) <$>
     (rows (jobStore (fst (handleRequestJob (sample.anEnv true false)
                      (sample.gPending []) (sample.connOf "A1")
                      (sample.headerOf "A1") (mkRequestJob "A1")))) !! "J5")
   = Some ("ASSIGNED", "")).
Proof.
  split.
  { intros jobID st. destruct (UpdateStatus_to_PENDING_fails jobID st) as [e ->].
    split; [discriminate | reflexivity]. }
  split; repeat split; vm_compute; reflexivity.
Qed.

(** The earlier steps of the commit sequence do compensate: when signing
    fails, when the assignment write fails, or when the status write fails,
    the job J5 is back in the queue, PENDING and unassigned, and nothing is
    sent. *)
Lemma earlier_failures_leave_job_PENDING :
  forall (signOk : bool) (script : list bool),
    (signOk, script) = (false, []) \/ (signOk, script) = (true, [true]) \/
    (signOk, script) = (true, [false; true]) ->
    SendChan (snd (handleRequestJob (sample.anEnv signOk true)
                     (sample.gPending script) (sample.connOf "A1")
                     (sample.headerOf "A1") (mkRequestJob "A1"))) = [] /\
    jobQueue (fst (handleRequestJob (sample.anEnv signOk true)
                     (sample.gPending script) (sample.connOf "A1")
                     (sample.headerOf "A1") (mkRequestJob "A1"))) = Some ["J5"] /\
    (fun j => (Status j, AssignedAgentID j)) <$>
      (rows (jobStore (fst (handleRequestJob (sample.anEnv signOk true)
                       (sample.gPending script) (sample.connOf "A1")
                       (sample.headerOf "A1") (mkRequestJob "A1")))) !! "J5")
    = Some ("PENDING", "").
Proof.
  intros signOk script [H | [H | H]]; injection H as -> ->;
    repeat split; vm_compute; reflexivity.
Qed.

(** ** The agent: truncation of the captured output *)

Import client.

Lemma substring_split (n : nat) (s : string) :
  (n <= String.length s)%nat ->
  String.length (String.substring 0 n s) = n /\
  s = String.substring 0 n s +:+ String.substring n (String.length s - n) s.
Proof.
  revert s. induction n as [| n IH]; intros s Hn.
  - rewrite Nat.sub_0_r, substring_all.
    destruct s; cbn; split; reflexivity.
  - destruct s as [| c s]; cbn [String.length] in Hn; [lia |].
    destruct (IH s ltac:(lia)) as [Hl Hs].
    cbn [String.substring String.length Nat.sub String.append]. split.
    + cbn [String.length]. rewrite Hl. reflexivity.
    + rewrite Hs at 1. reflexivity.
Qed.

(** ** The agent: backoff of the pull loop *)

Lemma min_is_Zmin (a b : Z) : client.min a b = Z.min a b.
Proof. unfold client.min. destruct (Z.ltb_spec a b); lia. Qed.

Lemma int64_small (n : Z) : (0 <= n < 2 ^ 63)%Z -> int64 n = n.
Proof.
  intros H. unfold int64.
  replace ((n + 2 ^ 63) mod 2 ^ 64)%Z with (n + 2 ^ 63)%Z; [lia |].
  symmetry. apply Z.mod_small. lia.
Qed.

Lemma iteration_in_range (b : Z) (w : Wakeup) (b' : Z) :
  (minBackoff <= b <= maxBackoff)%Z ->
  iteration b w = Some b' ->
  (minBackoff <= b' <= maxBackoff)%Z.
Proof.
  unfold minBackoff, maxBackoff, Second, Millisecond. intros Hb.
  destruct w as [| can ok | can ok]; cbn [iteration]; [discriminate | |].
  - destruct can; cbn [negb]; intros [= <-]; unfold minBackoff, Millisecond; lia.
  - destruct can; cbn [negb].
    + destruct ok; cbn [negb]; intros [= <-].
      * unfold minBackoff, Millisecond. lia.
      * rewrite min_is_Zmin. unfold minBackoff, maxBackoff, Second, Millisecond.
        rewrite int64_small by lia. lia.
    + intros [= <-]. rewrite min_is_Zmin.
      unfold maxBackoff, Second, Millisecond. rewrite int64_small by lia. lia.
Qed.

Lemma jobRequestLoop_from_in_range (ws : list Wakeup) :
  forall b, (minBackoff <= b <= maxBackoff)%Z ->
            (minBackoff <= jobRequestLoop_from b ws <= maxBackoff)%Z.
Proof.
  induction ws as [| w ws IH]; intros b Hb; cbn [jobRequestLoop_from];
    [assumption |].
  destruct (iteration b w) as [b' |] eqn:E; [| assumption].
  apply IH. eapply iteration_in_range; eassumption.
Qed.



(* ===================================================================== *)
(** * Further properties of the job model and the store *)
(* ===================================================================== *)

Lemma default_prefix_not_empty (j : Job) :
  (generateDefaultOutputPrefix j =? "") = false.
Proof. reflexivity. Qed.

Lemma Exec_UPDATE_lookup (f : Job -> Job) (jobID : string) (st : SQLiteStore)
    (other : string) (j' : Job) :
  rows (snd (Exec (UPDATE f jobID) st)) !! other = Some j' ->
  exists j, rows st !! other = Some j /\
            (j' = j \/ (other = jobID /\ j' = f j)).
Proof.
  rewrite Exec_UPDATE. destruct (driver_ok st); cbn [snd rows].
  - destruct (decide (jobID = other)) as [<- | Hne].
    + rewrite lookup_alter_eq. destruct (rows st !! jobID) as [j |]; [| discriminate].
      cbn. intros [= <-]. exists j. auto.
    + rewrite lookup_alter_ne by assumption. intros H. exists j'. auto.
  - intros H. exists j'. auto.
Qed.

Lemma Exec_UPDATE_absent (f : Job -> Job) (jobID : string) (st : SQLiteStore) :
  rows st !! jobID = None ->
  rows (snd (Exec (UPDATE f jobID) st)) = rows st /\
  (driver_ok st = true -> fst (Exec (UPDATE f jobID) st) = None).
Proof.
  intros Hj. rewrite Exec_UPDATE. destruct (driver_ok st); cbn [fst snd rows].
  - split; [| reflexivity]. apply map_eq. intros i.
    destruct (decide (jobID = i)) as [<- | Hne].
    + rewrite lookup_alter_eq, Hj. reflexivity.
    + rewrite lookup_alter_ne by assumption. reflexivity.
  - split; [reflexivity | discriminate].
Qed.

Lemma Validate_accepts (j : Job) :
  Validate j = None ->
  JobID j <> "" /\ IsValid (Status j) = true /\ (1 <= AttemptID j)%Z /\
  (InputBucket j = "" <-> InputKey j = "").
Proof.
  unfold Validate.
  destruct (String.eqb_spec (JobID j) ""); [discriminate |].
  destruct (IsValid (Status j)); cbn [negb]; [| discriminate].
  destruct (String.eqb_spec (InputBucket j) ""), (String.eqb_spec (InputKey j) "");
    cbn [negb andb orb]; try discriminate;
    (destruct (Z.ltb_spec (AttemptID j) 1); [discriminate |]);
    intros _; repeat split; try assumption; try lia; tauto.
Qed.

Lemma EnsureOutputPrefix_keeps (j : Job) :
  Status (EnsureOutputPrefix j) = Status j /\
  JobID (EnsureOutputPrefix j) = JobID j /\
  AttemptID (EnsureOutputPrefix j) = AttemptID j.
Proof.
  unfold EnsureOutputPrefix.
  repeat match goal with |- context [if ?c then _ else _] => destruct c end;
    repeat split; reflexivity.
Qed.

Lemma inserted_whole (k : Job) :
  wholeSeconds (CreatedAt k) = CreatedAt k ->
  wholeSeconds <$> LeaseDeadline k = LeaseDeadline k ->
  inserted k = k.
Proof.
  destruct k. unfold inserted. cbn. intros -> ->. reflexivity.
Qed.

Lemma wholeSeconds_floor (t : Z) :
  (wholeSeconds t <= t < wholeSeconds t + 1000000000)%Z /\
  wholeSeconds (wholeSeconds t) = wholeSeconds t.
Proof.
  unfold wholeSeconds. split.
  - pose proof (Z.mod_pos_bound t 1000000000 ltac:(lia)) as Hm.
    pose proof (Z.div_mod t 1000000000 ltac:(lia)) as Hd. lia.
  - rewrite Z.div_mul by lia. reflexivity.
Qed.

(** X1: a job that [Create] accepts can be read back, to the second.  The
    id was free before; the caller's job comes back with its output fields
    normalised by [EnsureOutputPrefix]; [Get] on the job's id returns that
    job with [created_at] and [lease_deadline] cut down to whole seconds
    (less than a second before the instants submitted) and every other
    field as returned, so exactly the returned job when its instants are
    whole seconds; and every other row of the table is as it was. *)
Theorem Create_then_Get (j j' : Job) (st st' : SQLiteStore) :
  Create j st = (None, j', st') ->
  rows st !! JobID j = None /\
  j' = EnsureOutputPrefix j /\
  Get (JobID j) st' = Ok (inserted j') /\
  inserted j' = mkJob (JobID j') (wholeSeconds (CreatedAt j')) (Status j')
                  (InputBucket j') (InputKey j') (OutputBucket j') (OutputKey j')
                  (OutputPrefix j') (OutputExtension j') (AttemptID j')
                  (AssignedAgentID j') (LeaseID j')
                  (wholeSeconds <$> LeaseDeadline j') (Command j') (Message j')
                  (job.Stdout j') (job.Stderr j') /\
  (wholeSeconds (CreatedAt j') <= CreatedAt j'
     < wholeSeconds (CreatedAt j') + 1000000000)%Z /\
  (wholeSeconds (CreatedAt j') = CreatedAt j' ->
   wholeSeconds <$> LeaseDeadline j' = LeaseDeadline j' ->
   Get (JobID j) st' = Ok j') /\
  (forall other, other <> JobID j -> rows st' !! other = rows st !! other).
Proof.
  intros H. unfold Create in H.
  destruct (Validate j) eqn:HV; [discriminate |].
  destruct (Exec (INSERT (EnsureOutputPrefix j)) st) as [err s1] eqn:HE.
  injection H as -> <- <-.
  destruct (Validate_accepts j HV) as (_ & Hvalid & _).
  destruct (EnsureOutputPrefix_keeps j) as (Hs & Hid & _).
  pose proof (Exec_INSERT_ok _ _ _ HE) as Hrows. rewrite Hid in Hrows.
  assert (HG : Get (JobID j) s1 = Ok (inserted (EnsureOutputPrefix j))).
  { unfold Get. rewrite Hrows, lookup_insert_eq.
    cbn [inserted Status]. rewrite Hs, Hvalid. reflexivity. }
  split.
  { unfold Exec, INSERT in HE. rewrite Hid in HE.
    destruct (faults st) as [| [] fs]; try discriminate;
      destruct (rows st !! JobID j); try discriminate; reflexivity. }
  split; [reflexivity |]. split; [exact HG |]. split; [reflexivity |].
  split; [apply wholeSeconds_floor |]. split.
  - intros Hc Hl. rewrite HG, (inserted_whole _ Hc Hl). reflexivity.
  - intros other Hne. rewrite Hrows. apply lookup_insert_ne. congruence.
Qed.

(** A job submitted one and a half seconds after the epoch, without output
    fields, is stored under its id with the canonical prefix filled in, and
    read back with [created_at] at one second. *)
Lemma Create_then_Get_witness :
  Create sample.halfSecondJob sample.emptyStore
    = (None, EnsureOutputPrefix sample.halfSecondJob,
       mkStore {[ "J1" := inserted (EnsureOutputPrefix sample.halfSecondJob) ]} []) /\
  Get "J1"
    (mkStore {[ "J1" := inserted (EnsureOutputPrefix sample.halfSecondJob) ]} [])
    = Ok (inserted (EnsureOutputPrefix sample.halfSecondJob)) /\
  CreatedAt (EnsureOutputPrefix sample.halfSecondJob) = 1500000000%Z /\
  CreatedAt (inserted (EnsureOutputPrefix sample.halfSecondJob)) = 1000000000%Z.
Proof.
  assert (H : Create sample.halfSecondJob sample.emptyStore
    = (None, EnsureOutputPrefix sample.halfSecondJob,
       mkStore {[ "J1" := inserted (EnsureOutputPrefix sample.halfSecondJob) ]} []))
    by reflexivity.
  split; [exact H |].
  split; [apply (Create_then_Get _ _ _ _ H) |].
  split; reflexivity.
Defined.

(** X2: what [Create] refuses.  A refused [Create] leaves the table as it
    was.  It is refused when the id is empty, when the status is not one of
    the seven, when exactly one of input bucket and input key is given, when
    [attempt_id] is below 1, and when the id is already in the table (the
    existing job is not overwritten).  A job that passes [Validate], under a
    free id, is accepted whenever the driver executes the INSERT. *)
Theorem Create_refusals (j : Job) (st : SQLiteStore) :
  (fst (fst (Create j st)) <> None -> rows (snd (Create j st)) = rows st) /\
  (JobID j = "" -> fst (fst (Create j st)) = Some ErrInvalidJobID) /\
  (JobID j <> "" -> IsValid (Status j) = false ->
     fst (fst (Create j st)) = Some ErrInvalidStatus) /\
  (JobID j <> "" -> IsValid (Status j) = true ->
   (InputBucket j = "" /\ InputKey j <> "") \/ (InputBucket j <> "" /\ InputKey j = "") ->
     fst (fst (Create j st)) = Some ErrInvalidInput) /\
  (JobID j <> "" -> IsValid (Status j) = true ->
   (InputBucket j = "" <-> InputKey j = "") -> (AttemptID j < 1)%Z ->
     fst (fst (Create j st)) = Some ErrInvalidAttemptID) /\
  (is_Some (rows st !! JobID j) -> fst (fst (Create j st)) <> None) /\
  (Validate j = None -> rows st !! JobID j = None -> driver_ok st = true ->
     fst (fst (Create j st)) = None).
Proof.
  split.
  { unfold Create. destruct (Validate j); [reflexivity |].
    unfold Exec, INSERT.
    destruct (faults st) as [| [] fs];
      destruct (rows st !! JobID (EnsureOutputPrefix j));
      try destruct (_ && _); cbn [fst snd rows]; congruence. }
  split.
  { intros H. unfold Create, Validate. rewrite H. reflexivity. }
  split.
  { intros H Hv. apply String.eqb_neq in H. unfold Create, Validate.
    rewrite H, Hv. reflexivity. }
  split.
  { intros H Hv Hin. apply String.eqb_neq in H. unfold Create, Validate.
    rewrite H, Hv. cbn [negb].
    destruct Hin as [[-> Hk] | [Hb ->]].
    - apply String.eqb_neq in Hk. rewrite Hk. reflexivity.
    - apply String.eqb_neq in Hb. rewrite Hb. reflexivity. }
  split.
  { intros H Hv Hin Hatt. apply String.eqb_neq in H. unfold Create, Validate.
    rewrite H, Hv. cbn [negb].
    assert (Hc : ((InputBucket j =? "") && negb (InputKey j =? "")) ||
                 (negb (InputBucket j =? "") && (InputKey j =? "")) = false).
    { destruct (String.eqb_spec (InputBucket j) ""),
               (String.eqb_spec (InputKey j) ""); cbn; tauto. }
    rewrite Hc. assert (Hl : (AttemptID j <? 1)%Z = true) by lia.
    rewrite Hl. reflexivity. }
  split.
  { intros [j0 Hj0]. unfold Create. destruct (Validate j); [discriminate |].
    destruct (EnsureOutputPrefix_keeps j) as (_ & Hid & _).
    unfold Exec, INSERT. rewrite Hid, Hj0.
    destruct (faults st) as [| [] fs]; cbn [fst]; discriminate. }
  intros HV Hfree Hok. unfold Create. rewrite HV.
  destruct (Validate_accepts j HV) as (_ & Hvalid & Hatt & _).
  destruct (EnsureOutputPrefix_keeps j) as (Hs & Hid & Ha).
  unfold Exec, INSERT. rewrite Hid, Hfree, Hs, Ha, Hvalid.
  assert (Hle : (1 <=? AttemptID j)%Z = true) by lia. rewrite Hle.
  unfold driver_ok in Hok.
  destruct (faults st) as [| [] fs]; try discriminate; reflexivity.
Qed.

(** X3: [EnsureOutputPrefix] is idempotent: normalising a job a second time
    changes nothing. *)
Theorem EnsureOutputPrefix_idempotent (j : Job) :
  EnsureOutputPrefix (EnsureOutputPrefix j) = EnsureOutputPrefix j.
Proof.
  assert (Hself : forall k : Job,
            OutputPrefix k <> "" ->
            (OutputPrefix k = generateDefaultOutputPrefix k \/
             startsWith (OutputPrefix k) (generateDefaultOutputPrefix k) = true) ->
            EnsureOutputPrefix k = k).
  { intros k Hne Hk. unfold EnsureOutputPrefix.
    apply String.eqb_neq in Hne. rewrite Hne. cbn [andb negb].
    destruct Hk as [Hk | Hk].
    - rewrite Hk at 1. rewrite String.eqb_refl. reflexivity.
    - rewrite Hk. cbn [negb]. rewrite andb_false_r. reflexivity. }
  destruct (EnsureOutputPrefix_keeps j) as (_ & Hid & Hatt).
  assert (Hexp : generateDefaultOutputPrefix (EnsureOutputPrefix j)
                 = generateDefaultOutputPrefix j).
  { unfold generateDefaultOutputPrefix. rewrite Hid, Hatt. reflexivity. }
  destruct (EnsureOutputPrefix_cases j) as (_ & _ & [Hp | (Hne & Hs & Hp)]).
  - apply Hself.
    + rewrite Hp. apply String.eqb_neq. apply default_prefix_not_empty.
    + left. rewrite Hexp. exact Hp.
  - apply Hself.
    + rewrite Hp. exact Hne.
    + right. rewrite Hexp, Hp. exact Hs.
Qed.

(** X4: what [EnsureOutputPrefix] does to the output key.  When no prefix
    was submitted, the key is dropped (whether or not it lay under the
    canonical prefix); when a prefix was submitted, the key is kept as
    submitted, whatever it is.  So the output path of a normalised job lies
    under ["jobs/" + job_id + "/" + attempt_id + "/"] whenever the job was
    submitted without a prefix or without a key. *)
Theorem EnsureOutputPrefix_output_key (j : Job) :
  (OutputPrefix j = "" -> OutputKey (EnsureOutputPrefix j) = "") /\
  (OutputPrefix j <> "" -> OutputKey (EnsureOutputPrefix j) = OutputKey j) /\
  (OutputPrefix j = "" \/ OutputKey j = "" ->
   startsWith (GetOutputPath (EnsureOutputPrefix j))
     ("jobs/" +:+ JobID j +:+ "/" +:+ intToString (AttemptID j) +:+ "/") = true).
Proof.
  assert (H1 : OutputPrefix j = "" -> OutputKey (EnsureOutputPrefix j) = "").
  { intros Hp. unfold EnsureOutputPrefix. rewrite Hp. cbn [andb negb].
    change ("" =? "") with true. cbn [andb negb].
    destruct (String.eqb_spec (OutputKey j) ""); cbn [negb];
      [assumption |]. destruct (startsWith _ _); reflexivity. }
  assert (H2 : OutputPrefix j <> "" -> OutputKey (EnsureOutputPrefix j) = OutputKey j).
  { intros Hp. unfold EnsureOutputPrefix. apply String.eqb_neq in Hp.
    rewrite Hp. cbn [andb negb]. destruct (_ && _); reflexivity. }
  split; [exact H1 |]. split; [exact H2 |].
  intros Hor.
  assert (Hk : OutputKey (EnsureOutputPrefix j) = "").
  { destruct (String.eqb_spec (OutputPrefix j) "") as [Hp | Hp]; [auto |].
    destruct Hor as [Hp' | Hk]; [contradiction |]. rewrite (H2 Hp). exact Hk. }
  unfold GetOutputPath. rewrite Hk. change ("" =? "") with true. cbn [negb].
  change ("jobs/" +:+ JobID j +:+ "/" +:+ intToString (AttemptID j) +:+ "/")
    with (generateDefaultOutputPrefix j).
  destruct (EnsureOutputPrefix_cases j) as (_ & _ & [-> | (_ & Hs & ->)]);
    [apply startsWith_refl | exact Hs].
Qed.

(** X5: updates of a job the table does not hold.  [UpdateStatus] reports
    [ErrJobNotFound] (or [ErrInvalidStatus] for a target that is no status)
    and touches nothing.  The other updates run an UPDATE that matches no
    row: they leave the table as it was and return [nil] whenever the
    driver executes the statement. *)
Theorem updates_of_unknown_job (jobID : string) (st : SQLiteStore) :
  rows st !! jobID = None ->
  (forall t, UpdateStatus jobID t st =
               (Some (if IsValid t then ErrJobNotFound else ErrInvalidStatus), st)) /\
  (forall agentID leaseID deadline,
     rows (snd (UpdateAssignment jobID agentID leaseID deadline st)) = rows st /\
     (driver_ok st = true ->
      fst (UpdateAssignment jobID agentID leaseID deadline st) = None)) /\
  (forall key pre,
     rows (snd (UpdateOutput jobID key pre st)) = rows st /\
     (driver_ok st = true -> fst (UpdateOutput jobID key pre st) = None)) /\
  (forall n,
     rows (snd (UpdateAttemptID jobID n st)) = rows st /\
     (driver_ok st = true -> (1 <= n)%Z ->
      fst (UpdateAttemptID jobID n st) = None)) /\
  (forall out err,
     rows (snd (UpdateStdoutStderr jobID out err st)) = rows st /\
     (driver_ok st = true -> fst (UpdateStdoutStderr jobID out err st) = None)) /\
  (forall msg,
     rows (snd (UpdateMessage jobID msg st)) = rows st /\
     (driver_ok st = true -> fst (UpdateMessage jobID msg st) = None)).
Proof.
  intros Hj.
  split.
  { intros t. rewrite (UpdateStatus_absent _ _ _ Hj). destruct (IsValid t); reflexivity. }
  split; [intros; apply Exec_UPDATE_absent; assumption |].
  split; [intros; apply Exec_UPDATE_absent; assumption |].
  split.
  { intros n. unfold UpdateAttemptID. destruct (Z.ltb_spec n 1).
    - split; [reflexivity | lia].
    - destruct (Exec_UPDATE_absent (with_AttemptID n) jobID st Hj) as [Hr Hn].
      split; [exact Hr | intros; apply Hn; assumption]. }
  split; intros; apply Exec_UPDATE_absent; assumption.
Qed.

(** No job is stored under the id "nope": a status update for it reports
    [ErrJobNotFound]. *)
Lemma updates_of_unknown_job_witness :
  rows (sample.storeOf (sample.aJob "J1" "PENDING" "") []) !! "nope" = None /\
  UpdateStatus "nope" "ASSIGNED" (sample.storeOf (sample.aJob "J1" "PENDING" "") [])
    = (Some ErrJobNotFound, sample.storeOf (sample.aJob "J1" "PENDING" "") []).
Proof.
  assert (H : rows (sample.storeOf (sample.aJob "J1" "PENDING" "") []) !! "nope"
              = None) by reflexivity.
  split; [exact H |].
  apply (proj1 (updates_of_unknown_job "nope" _ H) "ASSIGNED").
Defined.

Lemma Exec_UPDATE_undo (f : Job -> Job) (undo : Job -> Job -> Job)
    (jobID : string) (st : SQLiteStore) (other : string) (j' : Job) :
  (forall j, undo j (f j) = j) -> (forall j, undo j j = j) ->
  rows (snd (Exec (UPDATE f jobID) st)) !! other = Some j' ->
  exists j, rows st !! other = Some j /\ undo j j' = j /\
            (other <> jobID -> j' = j).
Proof.
  intros Hf Hid H. apply Exec_UPDATE_lookup in H.
  destruct H as (j & Hj & [-> | [-> ->]]); exists j.
  - auto.
  - split; [assumption |]. split; [apply Hf | congruence].
Qed.

Lemma Exec_UPDATE_keeps (f : Job -> Job) (jobID : string) (st : SQLiteStore)
    (other : string) :
  (other <> jobID ->
   rows (snd (Exec (UPDATE f jobID) st)) !! other = rows st !! other) /\
  (is_Some (rows st !! other) ->
   is_Some (rows (snd (Exec (UPDATE f jobID) st)) !! other)).
Proof.
  rewrite Exec_UPDATE. destruct (driver_ok st); cbn [snd rows]; [| auto].
  split.
  - intros Hne. apply lookup_alter_ne. congruence.
  - intros [j Hj]. destruct (decide (jobID = other)) as [<- | Hne].
    + rewrite lookup_alter_eq, Hj. cbn. eauto.
    + rewrite lookup_alter_ne by assumption. eauto.
Qed.

(** X6: each update of the store writes only its own columns of its own
    row.  Whatever the driver does, a row found after the update was there
    before, rows of other jobs are identical, and the updated row differs
    from the old one at most in the columns the update names: the status
    for [UpdateStatus] (moved along an edge of the table, if at all), the
    three assignment columns for [UpdateAssignment], output key and prefix
    for [UpdateOutput], [attempt_id] for [UpdateAttemptID], stdout and
    stderr for [UpdateStdoutStderr], the message for [UpdateMessage].
    Conversely no update removes a row: under every id other than the
    addressed one the table holds after the update exactly what it held
    before, and a row that was there before is there after. *)
Theorem updates_write_their_columns (jobID : string) (st : SQLiteStore)
    (other : string) (j' : Job) :
  (forall t, rows (snd (UpdateStatus jobID t st)) !! other = Some j' ->
     exists j, rows st !! other = Some j /\ with_Status (Status j) j' = j /\
               (other <> jobID -> j' = j) /\
               (Status j' = Status j \/ CanTransitionTo (Status j) (Status j') = true)) /\
  (forall a l d, rows (snd (UpdateAssignment jobID a l d st)) !! other = Some j' ->
     exists j, rows st !! other = Some j /\
               with_Assignment (AssignedAgentID j) (LeaseID j) (LeaseDeadline j) j' = j /\
               (other <> jobID -> j' = j)) /\
  (forall key pre, rows (snd (UpdateOutput jobID key pre st)) !! other = Some j' ->
     exists j, rows st !! other = Some j /\
               with_Output (OutputKey j) (OutputPrefix j) j' = j /\
               (other <> jobID -> j' = j)) /\
  (forall n, rows (snd (UpdateAttemptID jobID n st)) !! other = Some j' ->
     exists j, rows st !! other = Some j /\ with_AttemptID (AttemptID j) j' = j /\
               (other <> jobID -> j' = j)) /\
  (forall out err, rows (snd (UpdateStdoutStderr jobID out err st)) !! other = Some j' ->
     exists j, rows st !! other = Some j /\
               with_StdoutStderr (job.Stdout j) (job.Stderr j) j' = j /\
               (other <> jobID -> j' = j)) /\
  (forall msg, rows (snd (UpdateMessage jobID msg st)) !! other = Some j' ->
     exists j, rows st !! other = Some j /\ with_Message (Message j) j' = j /\
               (other <> jobID -> j' = j)) /\
  (forall t,
     (other <> jobID ->
      rows (snd (UpdateStatus jobID t st)) !! other = rows st !! other) /\
     (is_Some (rows st !! other) ->
      is_Some (rows (snd (UpdateStatus jobID t st)) !! other))) /\
  (forall a l d,
     (other <> jobID ->
      rows (snd (UpdateAssignment jobID a l d st)) !! other = rows st !! other) /\
     (is_Some (rows st !! other) ->
      is_Some (rows (snd (UpdateAssignment jobID a l d st)) !! other))) /\
  (forall key pre,
     (other <> jobID ->
      rows (snd (UpdateOutput jobID key pre st)) !! other = rows st !! other) /\
     (is_Some (rows st !! other) ->
      is_Some (rows (snd (UpdateOutput jobID key pre st)) !! other))) /\
  (forall n,
     (other <> jobID ->
      rows (snd (UpdateAttemptID jobID n st)) !! other = rows st !! other) /\
     (is_Some (rows st !! other) ->
      is_Some (rows (snd (UpdateAttemptID jobID n st)) !! other))) /\
  (forall out err,
     (other <> jobID ->
      rows (snd (UpdateStdoutStderr jobID out err st)) !! other = rows st !! other) /\
     (is_Some (rows st !! other) ->
      is_Some (rows (snd (UpdateStdoutStderr jobID out err st)) !! other))) /\
  (forall msg,
     (other <> jobID ->
      rows (snd (UpdateMessage jobID msg st)) !! other = rows st !! other) /\
     (is_Some (rows st !! other) ->
      is_Some (rows (snd (UpdateMessage jobID msg st)) !! other))).
Proof.
  split.
  { intros t H.
    destruct (UpdateStatus_rows_cases jobID t st)
      as [(_ & j & Hj & Hc & Hr) | (_ & Hr)]; rewrite Hr in H.
    - destruct (decide (jobID = other)) as [<- | Hne].
      + rewrite lookup_insert_eq in H. injection H as <-.
        exists j. repeat split; try assumption.
        * destruct j; reflexivity.
        * congruence.
        * right. exact Hc.
      + rewrite lookup_insert_ne in H by assumption.
        exists j'. repeat split; try assumption; try (destruct j'; reflexivity); auto.
    - exists j'. repeat split; try assumption; try (destruct j'; reflexivity); auto. }
  split.
  { intros a l d.
    apply (Exec_UPDATE_undo _
             (fun j k => with_Assignment (AssignedAgentID j) (LeaseID j)
                           (LeaseDeadline j) k)); intros []; reflexivity. }
  split.
  { intros key pre.
    apply (Exec_UPDATE_undo _
             (fun j k => with_Output (OutputKey j) (OutputPrefix j) k));
      intros []; reflexivity. }
  split.
  { intros n. unfold UpdateAttemptID. destruct (n <? 1)%Z.
    - cbn [snd]. intros H. exists j'. repeat split; auto. destruct j'; reflexivity.
    - apply (Exec_UPDATE_undo _ (fun j k => with_AttemptID (AttemptID j) k));
        intros []; reflexivity. }
  split.
  { intros out err.
    apply (Exec_UPDATE_undo _
             (fun j k => with_StdoutStderr (job.Stdout j) (job.Stderr j) k));
      intros []; reflexivity. }
  split.
  { intros msg.
    apply (Exec_UPDATE_undo _ (fun j k => with_Message (Message j) k));
      intros []; reflexivity. }
  split.
  { intros t.
    destruct (UpdateStatus_rows_cases jobID t st)
      as [(_ & j & Hj & _ & Hr) | (_ & Hr)]; rewrite Hr; [| auto].
    split.
    - intros Hne. apply lookup_insert_ne. congruence.
    - intros Hsome. destruct (decide (jobID = other)) as [<- | Hne].
      + rewrite lookup_insert_eq. eauto.
      + rewrite lookup_insert_ne by assumption. exact Hsome. }
  split; [intros a l d; apply Exec_UPDATE_keeps |].
  split; [intros key pre; apply Exec_UPDATE_keeps |].
  split.
  { intros n. unfold UpdateAttemptID. destruct (n <? 1)%Z; cbn [snd]; [auto |].
    apply Exec_UPDATE_keeps. }
  split; [intros out err; apply Exec_UPDATE_keeps |].
  intros msg. apply Exec_UPDATE_keeps.
Qed.

Lemma schema_ok_after (f : Job -> Job) (jobID : string) (st : SQLiteStore) :
  (forall j, JobID (f j) = JobID j) ->
  (forall j, IsValid (Status j) = true -> IsValid (Status (f j)) = true) ->
  (forall j, (1 <= AttemptID j)%Z -> (1 <= AttemptID (f j))%Z) ->
  schema_ok (rows st) ->
  schema_ok (rows (snd (Exec (UPDATE f jobID) st))).
Proof.
  intros Hid Hv Ha Hok other j' H. apply Exec_UPDATE_lookup in H.
  destruct H as (j & Hj & [-> | [-> ->]]);
    destruct (Hok _ _ Hj) as (H1 & H2 & H3); [auto |].
  rewrite Hid. auto.
Qed.

Lemma Create_rows (j : Job) (st : SQLiteStore) :
  rows (snd (Create j st)) = rows st \/
  (Validate j = None /\
   rows (snd (Create j st))
     = <[JobID j := inserted (EnsureOutputPrefix j)]> (rows st)).
Proof.
  unfold Create. destruct (Validate j) eqn:HV; [left; reflexivity |].
  destruct (Exec (INSERT (EnsureOutputPrefix j)) st) as [[e |] s1] eqn:HE;
    cbn [snd].
  - left. unfold Exec, INSERT in HE.
    destruct (faults st) as [| [] fs];
      destruct (rows st !! JobID (EnsureOutputPrefix j));
      try destruct (_ && _); try discriminate; injection HE as _ <-; reflexivity.
  - right. split; [reflexivity |].
    rewrite (Exec_INSERT_ok _ _ _ HE).
    destruct (EnsureOutputPrefix_keeps j) as (_ & -> & _). reflexivity.
Qed.

(** X7: every operation of the store keeps the guarantees of the schema.
    If each row sits under its own [job_id] with one of the seven statuses
    and an [attempt_id] of at least 1, the same holds after [Create] and
    after any update, whether the call succeeds, is refused or hits a driver
    error. *)
Theorem store_keeps_schema (st : SQLiteStore) :
  schema_ok (rows st) ->
  (forall j, schema_ok (rows (snd (Create j st)))) /\
  (forall jobID t, schema_ok (rows (snd (UpdateStatus jobID t st)))) /\
  (forall jobID a l d, schema_ok (rows (snd (UpdateAssignment jobID a l d st)))) /\
  (forall jobID key pre, schema_ok (rows (snd (UpdateOutput jobID key pre st)))) /\
  (forall jobID n, schema_ok (rows (snd (UpdateAttemptID jobID n st)))) /\
  (forall jobID out err, schema_ok (rows (snd (UpdateStdoutStderr jobID out err st)))) /\
  (forall jobID msg, schema_ok (rows (snd (UpdateMessage jobID msg st)))).
Proof.
  intros Hok. split.
  { intros j. destruct (Create_rows j st) as [-> | [HV ->]]; [exact Hok |].
    intros other k Hk. destruct (decide (JobID j = other)) as [<- | Hne].
    - rewrite lookup_insert_eq in Hk. injection Hk as <-.
      destruct (EnsureOutputPrefix_keeps j) as (Hs & Hid & Ha).
      apply Validate_accepts in HV. destruct HV as (_ & Hv & Hatt & _).
      cbn [inserted JobID Status AttemptID]. rewrite Hs, Hid, Ha. auto.
    - rewrite lookup_insert_ne in Hk by assumption. exact (Hok _ _ Hk). }
  split.
  { intros jobID t.
    destruct (UpdateStatus_rows_cases jobID t st)
      as [(Hnil & j & Hj & Hc & Hr) | (_ & Hr)]; rewrite Hr; [| exact Hok].
    intros other k Hk. destruct (decide (jobID = other)) as [<- | Hne].
    - rewrite lookup_insert_eq in Hk. injection Hk as <-.
      destruct (Hok _ _ Hj) as (H1 & _ & H3). cbn. split; [exact H1 |].
      split; [| exact H3].
      unfold UpdateStatus in Hnil. destruct (IsValid t); [reflexivity |].
      cbn in Hnil. discriminate.
    - rewrite lookup_insert_ne in Hk by assumption. exact (Hok _ _ Hk). }
  split; [intros; apply schema_ok_after; auto |].
  split; [intros; apply schema_ok_after; auto |].
  split.
  { intros jobID n. unfold UpdateAttemptID. destruct (Z.ltb_spec n 1); [exact Hok |].
    apply schema_ok_after; auto. }
  split; intros; apply schema_ok_after; auto.
Qed.

(** The table that holds the one PENDING job J1 meets the schema, and still
    does after J1 is moved to ASSIGNED. *)
Lemma store_keeps_schema_witness :
  schema_ok (rows (sample.storeOf (sample.aJob "J1" "PENDING" "") [])) /\
  schema_ok (rows (snd (UpdateStatus "J1" "ASSIGNED"
                          (sample.storeOf (sample.aJob "J1" "PENDING" "") [])))).
Proof.
  assert (H : schema_ok (rows (sample.storeOf (sample.aJob "J1" "PENDING" "") []))).
  { intros jobID j Hj. unfold sample.storeOf in Hj. cbn [rows] in Hj.
    apply lookup_singleton_Some in Hj. destruct Hj as [<- <-].
    repeat split. discriminate. }
  split; [exact H |].
  apply (proj1 (proj2 (store_keeps_schema _ H)) "J1" "ASSIGNED").
Defined.

Lemma edge_makes_progress (s t : string) :
  CanTransitionTo s t = true -> (progress s < progress t)%nat.
Proof.
  intros H. apply CanTransitionTo_table in H. simpl in H.
  repeat (destruct H as [H | H]; [inversion H; subst; cbv; lia |]).
  destruct H.
Qed.

Lemma progress_bound (s : string) : (progress s <= 3)%nat.
Proof.
  unfold progress.
  repeat match goal with |- context [if ?c then _ else _] => destruct c end; lia.
Qed.

Lemma UpdateStatus_successes_bound (jobID : string) (targets : list string) :
  forall st,
    match rows st !! jobID with
    | Some j => (UpdateStatus_successes jobID targets st <= 3 - progress (Status j))%nat
    | None => UpdateStatus_successes jobID targets st = 0%nat
    end.
Proof.
  induction targets as [| t ts IH]; intros st.
  - cbn. destruct (rows st !! jobID); [lia | reflexivity].
  - cbn [UpdateStatus_successes].
    destruct (UpdateStatus jobID t st) as [err st'] eqn:HU.
    specialize (IH st').
    destruct (UpdateStatus_rows_cases jobID t st)
      as [(Hnil & j & Hj & Hc & Hr) | (Hne & Hr)];
      rewrite HU in *; cbn [fst snd] in *.
    + subst err. rewrite Hr, lookup_insert_eq in IH. rewrite Hj.
      cbn [Status with_Status] in IH.
      pose proof (edge_makes_progress _ _ Hc).
      pose proof (progress_bound t). lia.
    + destruct err; [| contradiction]. rewrite Hr in IH.
      destruct (rows st !! jobID); cbn; lia.
Qed.

(** X8: a job changes status at most three times.  In any run of
    [UpdateStatus] calls on one job, whatever the targets and whatever the
    driver does, at most three calls return [nil]; for a job that is already
    ASSIGNED at most two, for a RUNNING job at most one, for a terminal job
    and for an id the table does not hold none: every successful call moves
    the job strictly forward along PENDING, ASSIGNED, RUNNING, terminal. *)
Theorem at_most_three_status_changes (jobID : string) (targets : list string)
    (st : SQLiteStore) :
  (UpdateStatus_successes jobID targets st <= 3)%nat /\
  match rows st !! jobID with
  | Some j => (UpdateStatus_successes jobID targets st <= 3 - progress (Status j))%nat
  | None => UpdateStatus_successes jobID targets st = 0%nat
  end /\
  (forall s t, CanTransitionTo s t = true -> (progress s < progress t <= 3)%nat).
Proof.
  pose proof (UpdateStatus_successes_bound jobID targets st) as H.
  split; [destruct (rows st !! jobID); lia |].
  split; [exact H |].
  intros s t Hc. split; [apply edge_makes_progress; exact Hc | apply progress_bound].
Qed.

(* ===================================================================== *)
(** * Further properties of the queue *)
(* ===================================================================== *)

Lemma EnqueueAll_app (jobIDs items : list string) :
  Forall (fun jobID => jobID <> "") jobIDs ->
  queue.EnqueueAll jobIDs items = (items ++ jobIDs)%list.
Proof.
  intros H. revert items. induction H as [| x l Hx _ IH]; intros items.
  - cbn. rewrite app_nil_r. reflexivity.
  - cbn [queue.EnqueueAll]. unfold queue.Enqueue.
    apply String.eqb_neq in Hx. rewrite Hx. cbn [snd].
    rewrite IH, <- app_assoc. reflexivity.
Qed.

Lemma DequeueN_all (items : list string) :
  queue.DequeueN (length items) items = (items, []).
Proof.
  induction items as [| x l IH]; [reflexivity |].
  cbn [length queue.DequeueN queue.Dequeue]. rewrite IH. reflexivity.
Qed.

(** X9: the queue is first in, first out.  Ids enqueued on a queue come out
    after the ids that were already waiting and in the order in which they
    were enqueued; [Enqueue] refuses the empty id and leaves the queue as it
    was; [Peek] shows the id that [Dequeue] returns next without removing
    it; [Size] grows by one with every accepted [Enqueue]; [Dequeue] and
    [Peek] report [ErrQueueEmpty] on the empty queue, each on that queue
    only, and neither reports any other error. *)
Theorem queue_is_fifo (items : list string) :
  (forall jobIDs, Forall (fun jobID => jobID <> "") jobIDs ->
     queue.DequeueN (length items + length jobIDs) (queue.EnqueueAll jobIDs items)
       = ((items ++ jobIDs)%list, [])) /\
  queue.Enqueue "" items = (Some queue.ErrEmptyJobID, items) /\
  (forall jobID, jobID <> "" ->
     fst (queue.Enqueue jobID items) = None /\
     queue.Size (snd (queue.Enqueue jobID items)) = (queue.Size items + 1)%Z) /\
  (forall jobID rest, queue.Dequeue items = inl (jobID, rest) <->
                      items = jobID :: rest) /\
  (forall jobID, queue.Peek items = inl jobID <->
                 exists rest, queue.Dequeue items = inl (jobID, rest)) /\
  (queue.Dequeue items = inr queue.ErrQueueEmpty <-> items = []) /\
  (queue.Peek items = inr queue.ErrQueueEmpty <-> items = []) /\
  (forall e, queue.Dequeue items = inr e -> e = queue.ErrQueueEmpty) /\
  (forall e, queue.Peek items = inr e -> e = queue.ErrQueueEmpty).
Proof.
  split.
  { intros jobIDs H. rewrite (EnqueueAll_app _ _ H), <- length_app.
    apply DequeueN_all. }
  split; [reflexivity |].
  split.
  { intros jobID Hne. unfold queue.Enqueue, queue.Size.
    apply String.eqb_neq in Hne. rewrite Hne. cbn [fst snd].
    split; [reflexivity |]. rewrite length_app. cbn. lia. }
  split.
  { intros jobID rest. destruct items; cbn; split; intros H;
      try discriminate; congruence. }
  split.
  { intros jobID. destruct items as [| x l]; cbn; split.
    - discriminate.
    - intros [rest H]. discriminate.
    - intros [= ->]. eauto.
    - intros [rest [= -> _]]. reflexivity. }
  split.
  { destruct items; cbn; split; intros H; try discriminate; reflexivity. }
  split.
  { destruct items; cbn; split; intros H; try discriminate; reflexivity. }
  split; intros e; destruct items; cbn; intros H; try discriminate;
    injection H as <-; reflexivity.
Qed.

Lemma removeFirst_found (jobID : string) (items items' : list string) :
  queue.removeFirst jobID items = Some items' ->
  exists before after,
    items = (before ++ jobID :: after)%list /\ ~ In jobID before /\
    items' = (before ++ after)%list.
Proof.
  revert items'. induction items as [| x l IH]; intros items'; cbn; [discriminate |].
  destruct (String.eqb_spec x jobID) as [-> | Hne].
  - intros [= <-]. exists [], l. auto.
  - destruct (queue.removeFirst jobID l) as [l' |]; [| discriminate].
    intros [= <-]. destruct (IH l' eq_refl) as (b & a & -> & Hb & ->).
    exists (x :: b), a. repeat split; try reflexivity.
    intros [H | H]; [congruence | contradiction].
Qed.

Lemma removeFirst_missing (jobID : string) (items : list string) :
  queue.removeFirst jobID items = None <-> ~ In jobID items.
Proof.
  induction items as [| x l IH]; cbn; [tauto |].
  destruct (String.eqb_spec x jobID) as [-> | Hne].
  - split; [discriminate | tauto].
  - destruct (queue.removeFirst jobID l).
    + split; [discriminate |]. intros H. exfalso.
      destruct (in_dec string_dec jobID l) as [Hin | Hout]; [tauto |].
      apply (proj2 IH) in Hout. discriminate Hout.
    + split; [| reflexivity]. intros _ [H | H]; [congruence |].
      apply (proj1 IH); [reflexivity | assumption].
Qed.

(** X10: [Remove] takes out the first occurrence of an id and nothing else.
    For a non-empty id that is in the queue it returns [nil], the ids before
    and after the first occurrence keep their order (later duplicates stay),
    and the size drops by exactly one.  For an id that is not in the queue
    it reports [ErrJobNotInQueue], and for the empty id an error, the queue
    unchanged in both cases. *)
Theorem Remove_first_occurrence (jobID : string) (items : list string) :
  (jobID <> "" -> In jobID items ->
   exists before after,
     items = (before ++ jobID :: after)%list /\ ~ In jobID before /\
     queue.Remove jobID items = (None, (before ++ after)%list) /\
     queue.Size (snd (queue.Remove jobID items)) = (queue.Size items - 1)%Z) /\
  (jobID <> "" -> ~ In jobID items ->
   queue.Remove jobID items = (Some queue.ErrJobNotInQueue, items)) /\
  (jobID = "" -> queue.Remove jobID items = (Some queue.RemoveEmptyJobID, items)).
Proof.
  split.
  { intros Hne Hin. unfold queue.Remove. apply String.eqb_neq in Hne. rewrite Hne.
    destruct (queue.removeFirst jobID items) as [items' |] eqn:E.
    - destruct (removeFirst_found _ _ _ E) as (b & a & -> & Hb & ->).
      exists b, a. repeat split; try assumption. cbn [snd]. unfold queue.Size.
      rewrite !length_app. cbn [length]. lia.
    - apply removeFirst_missing in E. contradiction. }
  split.
  { intros Hne Hin. unfold queue.Remove. apply String.eqb_neq in Hne. rewrite Hne.
    apply removeFirst_missing in Hin. rewrite Hin. reflexivity. }
  intros ->. reflexivity.
Qed.

(* ===================================================================== *)
(** * Further properties of the registry *)
(* ===================================================================== *)

(** X11: a heartbeat keeps an agent online for the next 60 seconds, and no
    longer.  After [UpdateHeartbeat] at time [t] for a registered agent,
    [GetAgent] at time [now] finds the agent exactly when [now - t] is less
    than 60 seconds, and then shows the reported [paused] and [runningJobs]
    in place of the registry's own, the other fields as they were. *)
Theorem heartbeat_keeps_agent_online (t now : Z) (agentID : string)
    (paused : bool) (runningJobs : Z) (agents : gmap string registry.AgentInfo)
    (a : registry.AgentInfo) :
  agents !! agentID = Some a ->
  registry.GetAgent now agentID
    (registry.UpdateHeartbeat t agentID paused runningJobs agents)
  = if (now - t <? 60 * registry.Second)%Z
    then Some (registry.mkAgentInfo (registry.AgentID a) (registry.Hostname a)
                 (registry.MaxConcurrency a) paused runningJobs t
                 (registry.ConnectedAt a))
    else None.
Proof.
  intros Ha. unfold registry.GetAgent, registry.UpdateHeartbeat.
  rewrite Ha, lookup_insert_eq. cbn [registry.LastHeartbeat].
  destruct (Z.ltb_spec (now - t) (60 * registry.Second)),
           (Z.geb_spec (now - t) (60 * registry.Second)); try lia; reflexivity.
Qed.

(** A heartbeat at second 10: the agent is found at second 69 with the
    reported count. *)
Lemma heartbeat_keeps_agent_online_witness :
  ({[ "A1" := sample.anAgent "A1" 2 0 ]} : gmap string registry.AgentInfo) !! "A1"
    = Some (sample.anAgent "A1" 2 0) /\
  registry.GetAgent 69000000000 "A1"
    (registry.UpdateHeartbeat 10000000000 "A1" false 1
       {[ "A1" := sample.anAgent "A1" 2 0 ]})
  = Some (registry.mkAgentInfo "A1" "lab-pc" 2 false 1 10000000000 0).
Proof.
  assert (H : ({[ "A1" := sample.anAgent "A1" 2 0 ]}
               : gmap string registry.AgentInfo) !! "A1"
              = Some (sample.anAgent "A1" 2 0)) by reflexivity.
  split; [exact H |].
  rewrite (heartbeat_keeps_agent_online 10000000000 69000000000 "A1" false 1 _ _ H).
  reflexivity.
Defined.

(** X12: [Register] of a returning agent keeps its job count.  A new agent
    starts unpaused with [RunningJobs] 0 and [ConnectedAt] set to the
    registration time; an agent that is already in the registry gets the new
    hostname and [MaxConcurrency] and a fresh heartbeat, but keeps
    [RunningJobs], [Paused] and [ConnectedAt].  Either way the agent is
    online for the following 60 seconds. *)
Theorem Register_new_or_returning (t : Z) (agentID hostname : string)
    (maxConcurrency : Z) (agents : gmap string registry.AgentInfo) :
  (agents !! agentID = None ->
   registry.Register t agentID hostname maxConcurrency agents !! agentID
     = Some (registry.mkAgentInfo agentID hostname maxConcurrency false 0 t t)) /\
  (forall a, agents !! agentID = Some a ->
   registry.Register t agentID hostname maxConcurrency agents !! agentID
     = Some (registry.mkAgentInfo (registry.AgentID a) hostname maxConcurrency
               (registry.Paused a) (registry.RunningJobs a) t
               (registry.ConnectedAt a))) /\
  (forall now, (now - t < 60 * registry.Second)%Z ->
   registry.GetAgent now agentID
     (registry.Register t agentID hostname maxConcurrency agents)
   = registry.Register t agentID hostname maxConcurrency agents !! agentID /\
   is_Some (registry.Register t agentID hostname maxConcurrency agents !! agentID)).
Proof.
  split.
  { intros H. unfold registry.Register. rewrite H. apply lookup_insert_eq. }
  split.
  { intros a H. unfold registry.Register. rewrite H. apply lookup_insert_eq. }
  intros now Hlt. unfold registry.GetAgent, registry.Register.
  destruct (agents !! agentID) as [a |]; rewrite lookup_insert_eq;
    cbn [registry.LastHeartbeat];
    (destruct (Z.geb_spec (now - t) (60 * registry.Second)); [lia |]);
    split; eauto.
Qed.

(** X13: [GetOnline] and [GetAgent] agree: an agent is in the list of
    online agents exactly when [GetAgent] returns it under some id. *)
Theorem GetOnline_agrees_with_GetAgent (now : Z)
    (agents : gmap string registry.AgentInfo) (a : registry.AgentInfo) :
  In a (registry.GetOnline now agents) <->
  exists agentID, registry.GetAgent now agentID agents = Some a.
Proof.
  unfold registry.GetOnline, registry.GetAgent.
  rewrite filter_In, in_map_iff. split.
  - intros [[[agentID a'] [Heq Hin]] Hlt]. cbn in Heq. subst a'.
    apply list_elem_of_In, elem_of_map_to_list in Hin.
    exists agentID. rewrite Hin.
    destruct (Z.geb_spec (now - registry.LastHeartbeat a) (60 * registry.Second));
      [lia | reflexivity].
  - intros [agentID H].
    destruct (agents !! agentID) as [a' |] eqn:Ha; [| discriminate].
    destruct (Z.geb_spec (now - registry.LastHeartbeat a') (60 * registry.Second));
      [discriminate |].
    injection H as ->. split; [| lia].
    exists (agentID, a). split; [reflexivity |].
    apply list_elem_of_In, elem_of_map_to_list. exact Ha.
Qed.

(** X14: the registry's operations touch one agent only.  [Unregister]
    removes the agent, so that [GetAgent] no longer finds it at any time;
    [UpdateHeartbeat] for an agent that is not registered changes nothing
    (it does not bring the agent back); and [Register], [UpdateHeartbeat]
    and [Unregister] leave the entry of every other agent as it was. *)
Theorem registry_touches_one_agent (t : Z) (agentID : string)
    (agents : gmap string registry.AgentInfo) :
  (forall now, registry.GetAgent now agentID (registry.Unregister agentID agents) = None) /\
  (agents !! agentID = None ->
   forall paused runningJobs,
     registry.UpdateHeartbeat t agentID paused runningJobs agents = agents) /\
  (forall other, other <> agentID ->
     (forall hostname maxConcurrency,
        registry.Register t agentID hostname maxConcurrency agents !! other
          = agents !! other) /\
     (forall paused runningJobs,
        registry.UpdateHeartbeat t agentID paused runningJobs agents !! other
          = agents !! other) /\
     registry.Unregister agentID agents !! other = agents !! other).
Proof.
  split.
  { intros now. unfold registry.GetAgent, registry.Unregister.
    rewrite lookup_delete_eq. reflexivity. }
  split.
  { intros H paused runningJobs. unfold registry.UpdateHeartbeat. rewrite H.
    reflexivity. }
  intros other Hne. split; [| split].
  - intros hostname maxConcurrency. unfold registry.Register.
    destruct (agents !! agentID); apply lookup_insert_ne; congruence.
  - intros paused runningJobs. unfold registry.UpdateHeartbeat.
    destruct (agents !! agentID); [apply lookup_insert_ne; congruence | reflexivity].
  - unfold registry.Unregister. apply lookup_delete_ne. congruence.
Qed.

(* ===================================================================== *)
(** * Further properties of the dispatcher *)
(* ===================================================================== *)

(** X15: admission.  [handleRequestJob] changes nothing and sends nothing
    when the payload names another agent than the envelope, when the
    envelope names no agent, when the agent is not in the registry or its
    last heartbeat is 60 seconds old or more, when the agent is paused,
    when it already runs [MaxConcurrency] jobs or more, and when the gateway
    has no queue: no job is dequeued for a request that is not admitted. *)
Theorem RequestJob_not_admitted (env : Env) (g : Gateway)
    (agentConn : AgentConnection) (envelope : Envelope) (req : RequestJob) :
  (RequestJob_AgentId req <> "" /\ RequestJob_AgentId req <> AgentId envelope) \/
  AgentId envelope = "" \/
  registry g !! AgentId envelope = None \/
  (exists a, registry g !! AgentId envelope = Some a /\
             ((60 * registry.Second <= now env - registry.LastHeartbeat a)%Z \/
              registry.Paused a = true \/
              (registry.MaxConcurrency a <= registry.RunningJobs a)%Z)) \/
  jobQueue g = None ->
  handleRequestJob env g agentConn envelope req = (g, agentConn).
Proof.
  intros H. unfold handleRequestJob, registry.GetAgent.
  destruct (negb (RequestJob_AgentId req =? "") &&
            negb (RequestJob_AgentId req =? AgentId envelope)) eqn:Hm; [reflexivity |].
  destruct (String.eqb_spec (AgentId envelope) ""); [reflexivity |].
  destruct (registry g !! AgentId envelope) as [a |] eqn:Ha; [| reflexivity].
  destruct (Z.geb_spec (now env - registry.LastHeartbeat a) (60 * registry.Second));
    [reflexivity |].
  destruct (registry.Paused a) eqn:Hp; [reflexivity |].
  destruct (Z.geb_spec (registry.RunningJobs a) (registry.MaxConcurrency a));
    [reflexivity |].
  destruct (jobQueue g) eqn:Hq; [| reflexivity].
  exfalso. destruct H as [[Hx Hy] | [H | [H | [(a' & Ha' & H) | H]]]];
    try congruence.
  - apply String.eqb_neq in Hx, Hy. rewrite Hx, Hy in Hm. discriminate.
  - injection Ha' as <-. destruct H as [H | [H | H]]; try congruence; lia.
Qed.

(** Scenario S4: agent A1 already runs its one job; its request takes
    nothing from the queue. *)
Lemma RequestJob_not_admitted_witness :
  (exists a, registry (sample.aGateway (sample.aJob "J5" "PENDING" "") []
                         (sample.anAgent "A1" 1 1) ["J5"]) !! "A1" = Some a /\
             (registry.MaxConcurrency a <= registry.RunningJobs a)%Z) /\
  handleRequestJob (sample.anEnv true true)
    (sample.aGateway (sample.aJob "J5" "PENDING" "") [] (sample.anAgent "A1" 1 1) ["J5"])
    (sample.connOf "A1") (sample.headerOf "A1") (mkRequestJob "A1")
  = (sample.aGateway (sample.aJob "J5" "PENDING" "") [] (sample.anAgent "A1" 1 1) ["J5"],
     sample.connOf "A1").
Proof.
  split.
  - exists (sample.anAgent "A1" 1 1). split; [reflexivity |]. cbn. discriminate.
  - apply RequestJob_not_admitted. right. right. right. left.
    exists (sample.anAgent "A1" 1 1). split; [reflexivity |].
    right. right. cbn. discriminate.
Defined.

Lemma Exec_UPDATE_nil (f : Job -> Job) (jobID : string) (st st' : SQLiteStore) :
  Exec (UPDATE f jobID) st = (None, st') ->
  rows st' = alter f jobID (rows st) /\ faults st' = tail (faults st).
Proof.
  rewrite Exec_UPDATE. destruct (driver_ok st); [| discriminate].
  intros [= <-]. split; reflexivity.
Qed.

Lemma UpdateStatus_nil (jobID t : string) (st st' : SQLiteStore) :
  UpdateStatus jobID t st = (None, st') ->
  exists j, rows st !! jobID = Some j /\
            CanTransitionTo (Status j) t = true /\
            rows st' = <[jobID := with_Status t j]> (rows st).
Proof.
  intros H.
  destruct (UpdateStatus_rows_cases jobID t st) as [(_ & j & Hj & Hc & Hr) | (Hne & _)];
    rewrite H in *; cbn [fst snd] in *; [eauto | contradiction].
Qed.

Lemma edge_to_ASSIGNED (s : string) :
  CanTransitionTo s StatusAssigned = true -> s = StatusPending.
Proof.
  intros H. apply CanTransitionTo_table in H. simpl in H.
  repeat (destruct H as [H | H]; [inversion H; subst; reflexivity || discriminate |]).
  destruct H.
Qed.

Lemma registry_reEnqueue (jobID : string) (g : Gateway) :
  registry (reEnqueue jobID g) = registry g /\
  jobStore (reEnqueue jobID g) = jobStore g.
Proof. unfold reEnqueue. destruct (jobQueue g); split; reflexivity. Qed.

(** What [commitAssignment] can leave behind: either nothing is sent and the
    registry is untouched, or exactly one frame is sent and the table holds
    what the frame says. *)
Lemma commitAssignment_outcome (env : Env) (g : Gateway)
    (agentConn : AgentConnection) (envelope : Envelope) (agentID : string)
    (info : registry.AgentInfo) (jobID : string) (j : Job) (attemptID : Z) :
  (snd (commitAssignment env g agentConn envelope agentID info jobID j attemptID)
     = agentConn /\
   registry (fst (commitAssignment env g agentConn envelope agentID info jobID j
                    attemptID)) = registry g) \/
  (exists m j0,
     snd (commitAssignment env g agentConn envelope agentID info jobID j attemptID)
       = mkAgentConnection (AgentID agentConn) (SendChan agentConn ++ [m])%list /\
     JobAssigned_JobId (Out_JobAssigned m) = jobID /\
     JobAssigned_AttemptId (Out_JobAssigned m) = int32 attemptID /\
     JobAssigned_OutputPrefix (Out_JobAssigned m)
       = "jobs/" +:+ jobID +:+ "/" +:+ pretty attemptID +:+ "/" /\
     JobAssigned_OutputKey (Out_JobAssigned m)
       = ("jobs/" +:+ jobID +:+ "/" +:+ pretty attemptID +:+ "/") +:+ "output." +:+
         outputExtensionOf j /\
     Marshal_ok env m = true /\
     rows (jobStore g) !! jobID = Some j0 /\
     Status j0 = StatusPending /\
     rows (jobStore (fst (commitAssignment env g agentConn envelope agentID info
                            jobID j attemptID)))
       = <[jobID :=
             with_Output (JobAssigned_OutputKey (Out_JobAssigned m))
               (JobAssigned_OutputPrefix (Out_JobAssigned m))
               (with_Status StatusAssigned
                  (with_Assignment agentID (JobAssigned_LeaseId (Out_JobAssigned m))
                     None j0))]> (rows (jobStore g)) /\
     jobQueue (fst (commitAssignment env g agentConn envelope agentID info jobID j
                      attemptID)) = jobQueue g /\
     registry (fst (commitAssignment env g agentConn envelope agentID info jobID j
                      attemptID))
       = registry.UpdateHeartbeat (now env) agentID (registry.Paused info)
           (registry.RunningJobs info + 1) (registry g)).
Proof.
  unfold commitAssignment.
  destruct (GenerateDownloadURL env (InputKey j)) as [inURL |];
    [| left; cbn [fst snd]; split; [reflexivity | apply registry_reEnqueue]].
  destruct (GenerateUploadURL env _) as [outURL |];
    [| left; cbn [fst snd]; split; [reflexivity | apply registry_reEnqueue]].
  destruct (UpdateAssignment jobID agentID (NewUUID env) None (jobStore g))
    as [[e1 |] st1] eqn:E1;
    [left; cbn [fst snd]; split; [reflexivity |];
     rewrite (proj1 (registry_reEnqueue _ _)); reflexivity |].
  cbn [jobStore setStore].
  destruct (UpdateStatus jobID StatusAssigned st1) as [[e2 |] st2] eqn:E2.
  { destruct (UpdateAssignment jobID "" "" None st2) as [e3 st3].
    left; cbn [fst snd]; split; [reflexivity |].
    rewrite (proj1 (registry_reEnqueue _ _)); reflexivity. }
  destruct (UpdateOutput jobID _ _ st2) as [[e3 |] st3] eqn:E3.
  { destruct (UpdateStatus jobID StatusPending st3) as [e4 st4].
    cbn [jobStore setStore].
    destruct (UpdateAssignment jobID "" "" None st4) as [e5 st5].
    left; cbn [fst snd]; split; [reflexivity |].
    rewrite (proj1 (registry_reEnqueue _ _)); reflexivity. }
  match goal with
  | |- context [if negb (Marshal_ok env ?m) then _ else _] =>
      destruct (Marshal_ok env m) eqn:EM; cbn [negb]
  end.
  2:{ destruct (UpdateStatus jobID StatusPending st3) as [e4 st4].
      cbn [jobStore setStore].
      destruct (UpdateAssignment jobID "" "" None st4) as [e5 st5].
      left; cbn [fst snd]; split; [reflexivity |].
      rewrite (proj1 (registry_reEnqueue _ _)); reflexivity. }
  right.
  apply Exec_UPDATE_nil in E1. destruct E1 as [R1 _].
  apply UpdateStatus_nil in E2. destruct E2 as (j1 & Hj1 & Hc & R2).
  apply Exec_UPDATE_nil in E3. destruct E3 as [R3 _].
  rewrite R1 in Hj1.
  destruct (rows (jobStore g) !! jobID) as [j0 |] eqn:Hj0;
    [| rewrite lookup_alter_eq, Hj0 in Hj1; discriminate].
  rewrite lookup_alter_eq, Hj0 in Hj1. cbn in Hj1. injection Hj1 as <-.
  eexists _, j0. cbn [fst snd Out_JobAssigned JobAssigned_JobId
    JobAssigned_AttemptId JobAssigned_OutputPrefix JobAssigned_OutputKey
    JobAssigned_LeaseId jobStore jobQueue registry setStore setRegistry].
  repeat split; try reflexivity.
  - exact EM.
  - apply edge_to_ASSIGNED. exact Hc.
  - rewrite R3, R2, R1.
    apply map_eq. intros i. destruct (decide (jobID = i)) as [<- | Hne].
    + rewrite lookup_alter_eq, !lookup_insert_eq. reflexivity.
    + rewrite lookup_alter_ne, !lookup_insert_ne, lookup_alter_ne by assumption.
      reflexivity.
Qed.

Lemma assignJob_outcome (env : Env) (g : Gateway) (agentConn : AgentConnection)
    (envelope : Envelope) (agentID : string) (info : registry.AgentInfo)
    (jobID : string) (j : Job) :
  rows (jobStore g) !! jobID = Some j ->
  (snd (assignJob env g agentConn envelope agentID info jobID j) = agentConn /\
   registry (fst (assignJob env g agentConn envelope agentID info jobID j))
     = registry g) \/
  (exists m j',
     snd (assignJob env g agentConn envelope agentID info jobID j)
       = mkAgentConnection (AgentID agentConn) (SendChan agentConn ++ [m])%list /\
     Marshal_ok env m = true /\
     Status j = StatusPending /\
     JobAssigned_JobId (Out_JobAssigned m) = jobID /\
     rows (jobStore (fst (assignJob env g agentConn envelope agentID info jobID j)))
       !! jobID = Some j' /\
     Status j' = StatusAssigned /\
     AssignedAgentID j' = agentID /\
     OutputKey j' = JobAssigned_OutputKey (Out_JobAssigned m) /\
     OutputPrefix j' = JobAssigned_OutputPrefix (Out_JobAssigned m) /\
     LeaseID j' = JobAssigned_LeaseId (Out_JobAssigned m) /\
     JobAssigned_AttemptId (Out_JobAssigned m) = int32 (AttemptID j') /\
     registry (fst (assignJob env g agentConn envelope agentID info jobID j))
       = registry.UpdateHeartbeat (now env) agentID (registry.Paused info)
           (registry.RunningJobs info + 1) (registry g) /\
     (1 <= AttemptID j')%Z).
Proof.
  intros Hj. unfold assignJob.
  destruct (Z.ltb_spec (AttemptID j) 1) as [Hlt | Hge].
  - destruct (UpdateAttemptID jobID 1 (jobStore g)) as [[e |] st] eqn:EA.
    + left. cbn [fst snd]. split; [reflexivity |].
      rewrite (proj1 (registry_reEnqueue _ _)). reflexivity.
    + unfold UpdateAttemptID in EA. cbn in EA.
      apply Exec_UPDATE_nil in EA. destruct EA as [RA _].
      destruct (commitAssignment_outcome env (setStore st g) agentConn envelope
                  agentID info jobID (with_AttemptID 1 j) 1)
        as [[H1 H2] | (m & j0 & Hs & Hid & Hatt & Hpre & Hkey & HM & Hj0 & Hp & Hr & _ & Hreg)].
      * left. split; [exact H1 | exact H2].
      * right. cbn [jobStore setStore] in Hj0. rewrite RA, lookup_alter_eq, Hj in Hj0.
        cbn in Hj0. injection Hj0 as <-.
        exists m. eexists. split; [exact Hs |]. split; [exact HM |].
        split; [exact Hp |]. split; [exact Hid |].
        split; [rewrite Hr; apply lookup_insert_eq |].
        cbn. repeat split; try reflexivity; first [exact Hatt | exact Hreg | lia].
  - assert (Hcommit : forall attemptID, attemptID = AttemptID j ->
      (snd (commitAssignment env g agentConn envelope agentID info jobID j attemptID)
         = agentConn /\
       registry (fst (commitAssignment env g agentConn envelope agentID info jobID j
                        attemptID)) = registry g) \/
      (exists m j',
         snd (commitAssignment env g agentConn envelope agentID info jobID j attemptID)
           = mkAgentConnection (AgentID agentConn) (SendChan agentConn ++ [m])%list /\
         Marshal_ok env m = true /\
         Status j = StatusPending /\
         JobAssigned_JobId (Out_JobAssigned m) = jobID /\
         rows (jobStore (fst (commitAssignment env g agentConn envelope agentID info
                                jobID j attemptID))) !! jobID = Some j' /\
         Status j' = StatusAssigned /\
         AssignedAgentID j' = agentID /\
         OutputKey j' = JobAssigned_OutputKey (Out_JobAssigned m) /\
         OutputPrefix j' = JobAssigned_OutputPrefix (Out_JobAssigned m) /\
         LeaseID j' = JobAssigned_LeaseId (Out_JobAssigned m) /\
         JobAssigned_AttemptId (Out_JobAssigned m) = int32 (AttemptID j') /\
         registry (fst (commitAssignment env g agentConn envelope agentID info jobID j
                          attemptID))
           = registry.UpdateHeartbeat (now env) agentID (registry.Paused info)
               (registry.RunningJobs info + 1) (registry g) /\
         (1 <= AttemptID j')%Z)).
    { intros attemptID Heq.
      destruct (commitAssignment_outcome env g agentConn envelope agentID info
                  jobID j attemptID)
        as [[H1 H2] | (m & j0 & Hs & Hid & Hatt & Hpre & Hkey & HM & Hj0 & Hp & Hr & _ & Hreg)].
      - left. split; [exact H1 | exact H2].
      - right. rewrite Hj in Hj0. injection Hj0 as <-.
        exists m. eexists. split; [exact Hs |]. split; [exact HM |].
        split; [exact Hp |]. split; [exact Hid |].
        split; [rewrite Hr; apply lookup_insert_eq |].
        cbn. repeat split; try reflexivity.
        + rewrite Hatt, Heq. reflexivity.
        + exact Hreg.
        + lia. }
    destruct (Z.gtb_spec (AttemptID j) 1); apply Hcommit; [reflexivity | lia].
Qed.

Lemma dequeueLoop_done (st : SQLiteStore) (n : nat) :
  forall (jobID0 : string) (j0 : option Job) (q : list string)
         (jobID : string) (j : Job) (q' : list string),
    dequeueLoop n jobID0 j0 q st = LoopDone jobID (Some j) q' ->
    (jobID = jobID0 /\ j0 = Some j) \/ Get jobID st = Ok j.
Proof.
  induction n as [| n IH]; intros jobID0 j0 q jobID j q'; cbn [dequeueLoop].
  - intros [= <- -> _]. left. auto.
  - destruct q as [| x q]; cbn [queue.Dequeue]; [discriminate |].
    destruct (Get x st) as [jx | e] eqn:HG.
    + destruct (negb (Status jx =? StatusPending)).
      * intros H. apply IH in H. destruct H as [[-> [= <-]] | H]; right; assumption.
      * intros [= <- <- _]. right. exact HG.
    + intros H. apply IH in H. destruct H as [[_ [=]] | H]. right. exact H.
Qed.


Lemma Exec_UPDATE_fault_free (f : Job -> Job) (jobID : string) (st : SQLiteStore) :
  faults st = [] ->
  Exec (UPDATE f jobID) st = (None, mkStore (alter f jobID (rows st)) []).
Proof.
  intros Hf. rewrite Exec_UPDATE. unfold driver_ok. rewrite Hf. reflexivity.
Qed.

Lemma commitAssignment_fault_free (env : Env) (g : Gateway)
    (agentConn : AgentConnection) (envelope : Envelope) (agentID : string)
    (info : registry.AgentInfo) (jobID : string) (j : Job) (attemptID : Z)
    (inURL outURL outputPrefix outputKey : string) (m : JobAssignedEnvelope) :
  rows (jobStore g) !! jobID = Some j ->
  Status j = StatusPending ->
  faults (jobStore g) = [] ->
  outputPrefix = "jobs/" +:+ jobID +:+ "/" +:+ pretty attemptID +:+ "/" ->
  outputKey = outputPrefix +:+ "output." +:+ outputExtensionOf j ->
  GenerateDownloadURL env (InputKey j) = Some inURL ->
  GenerateUploadURL env outputKey = Some outURL ->
  m = mkJobAssignedEnvelope (RequestId envelope) (now env / 1000000)
        (mkJobAssigned jobID (int32 attemptID) (NewUUID env) 60 inURL (InputKey j)
           outURL outputPrefix outputKey (Command j)) ->
  Marshal_ok env m = true ->
  commitAssignment env g agentConn envelope agentID info jobID j attemptID =
    (mkGateway
       (registry.UpdateHeartbeat (now env) agentID (registry.Paused info)
          (registry.RunningJobs info + 1) (registry g))
       (mkStore
          (<[jobID := with_Output outputKey outputPrefix
                        (with_Status StatusAssigned
                           (with_Assignment agentID (NewUUID env) None j))]>
             (rows (jobStore g))) [])
       (jobQueue g),
     mkAgentConnection (AgentID agentConn) (SendChan agentConn ++ [m])%list).
Proof.
  intros Hj Hs Hf -> -> Hin Hout -> HM.
  unfold commitAssignment. fold (outputExtensionOf j).
  rewrite Hin, Hout.
  unfold UpdateAssignment. rewrite (Exec_UPDATE_fault_free _ _ _ Hf).
  cbn [jobStore setStore].
  rewrite (UpdateStatus_present jobID StatusAssigned _
             (with_Assignment agentID (NewUUID env) None j))
    by (cbn [rows]; rewrite lookup_alter_eq, Hj; reflexivity).
  cbn [with_Assignment Status]. rewrite Hs.
  change (negb (IsValid StatusAssigned)) with false.
  change (negb (IsValid StatusPending)) with false.
  change (negb (CanTransitionTo StatusPending StatusAssigned)) with false.
  cbn iota.
  rewrite Exec_UPDATE_fault_free by reflexivity.
  cbn [jobStore setStore rows].
  unfold UpdateOutput. rewrite Exec_UPDATE_fault_free by reflexivity.
  cbn [jobStore setStore rows].
  rewrite HM. cbn [negb]. cbv zeta. unfold setRegistry, setStore.
  cbn [registry jobStore jobQueue rows].
  f_equal. f_equal. f_equal.
  apply map_eq. intros i. destruct (decide (jobID = i)) as [<- | Hne].
  - rewrite !lookup_alter_eq, lookup_insert_eq, Hj. reflexivity.
  - rewrite !lookup_alter_ne, lookup_insert_ne by assumption. reflexivity.
Qed.

Lemma handleRequestJob_to_commit (env : Env) (g : Gateway)
    (agentConn : AgentConnection) (envelope : Envelope) (req : RequestJob)
    (info : registry.AgentInfo) (jobID : string) (rest : list string) (j : Job) :
  RequestJob_AgentId req = "" \/ RequestJob_AgentId req = AgentId envelope ->
  AgentId envelope <> "" ->
  registry.GetAgent (now env) (AgentId envelope) (registry g) = Some info ->
  registry.Paused info = false ->
  (registry.RunningJobs info < registry.MaxConcurrency info)%Z ->
  jobQueue g = Some (jobID :: rest) ->
  rows (jobStore g) !! jobID = Some j ->
  Status j = StatusPending ->
  (1 <= AttemptID j)%Z ->
  handleRequestJob env g agentConn envelope req =
    commitAssignment env (setQueue rest g) agentConn envelope (AgentId envelope)
      info jobID j (AttemptID j).
Proof.
  intros Hreq Hid HG Hp Hcap Hq Hj Hs Hatt.
  unfold handleRequestJob.
  replace (negb (RequestJob_AgentId req =? "") &&
           negb (RequestJob_AgentId req =? AgentId envelope)) with false.
  2:{ destruct Hreq as [-> | ->]; [reflexivity |].
      rewrite String.eqb_refl. cbn [negb]. symmetry. apply andb_false_r. }
  apply String.eqb_neq in Hid. rewrite Hid, HG, Hp.
  destruct (Z.geb_spec (registry.RunningJobs info) (registry.MaxConcurrency info));
    [lia |].
  rewrite Hq. cbn [maxDequeueAttempts dequeueLoop queue.Dequeue].
  unfold Get at 1. rewrite Hj. cbn beta iota. rewrite !Hs.
  change (negb (IsValid StatusPending)) with false. cbn beta iota.
  rewrite ?Hs. change (negb (StatusPending =? StatusPending)) with false.
  cbn beta iota zeta. rewrite ?Hs.
  change (negb (StatusPending =? StatusPending)) with false.
  cbn beta iota.
  unfold assignJob.
  destruct (Z.ltb_spec (AttemptID j) 1); [lia |].
  destruct (Z.gtb_spec (AttemptID j) 1); [reflexivity |].
  assert (Hone : AttemptID j = 1%Z) by lia.
  rewrite Hone. reflexivity.
Qed.



(* --------------------------------------------------------------------- *)
(** ** Further properties of the reconciler *)
(* --------------------------------------------------------------------- *)

(** X18: who may report on a job.  [handleJobStatus] leaves the gateway as
    it is, store, registry and queue, when the envelope names no agent, when
    the connection is bound to another agent than the envelope names, when
    the report names no job, when the store has no readable job under the
    reported id, when the job is assigned to another agent, or when the
    report carries another attempt than the job's; whatever status and
    output the report carries. *)
Theorem report_from_elsewhere_is_ignored (env : Env) (g : Gateway)
    (agentConn : AgentConnection) (envelope : Envelope) (status : JobStatus) :
  AgentId envelope = "" \/
  AgentID agentConn <> AgentId envelope \/
  JobStatus_JobId status = "" \/
  (exists e, Get (JobStatus_JobId status) (jobStore g) = Err e) \/
  (exists j, rows (jobStore g) !! JobStatus_JobId status = Some j /\
             (AssignedAgentID j <> AgentId envelope \/
              JobStatus_AttemptId status <> AttemptID j)) ->
  handleJobStatus env g agentConn envelope status = g.
Proof.
  intros H. unfold handleJobStatus.
  destruct (String.eqb_spec (AgentId envelope) "") as [| Ha]; [reflexivity |].
  destruct (String.eqb_spec (AgentID agentConn) (AgentId envelope)) as [Hc |];
    [| reflexivity].
  destruct (String.eqb_spec (JobStatus_JobId status) "") as [| Hid]; [reflexivity |].
  cbn [negb].
  destruct H as [H | [H | [H | [[e H] | (j & Hj & H)]]]]; try contradiction.
  - rewrite H. reflexivity.
  - destruct (Get (JobStatus_JobId status) (jobStore g)) as [j' | e] eqn:HG;
      [| reflexivity].
    apply Get_present in HG. destruct HG as [HG _]. rewrite Hj in HG.
    injection HG as <-.
    destruct (String.eqb_spec (AssignedAgentID j) (AgentId envelope)) as [Hown |];
      [| reflexivity].
    destruct (Z.eqb_spec (JobStatus_AttemptId status) (AttemptID j)) as [Hatt |];
      [| reflexivity].
    destruct H; contradiction.
Qed.

(** The RUNNING job J1 belongs to agent A1: the same SUCCEEDED report sent
    by agent A2 over its own connection changes nothing. *)
Lemma report_from_elsewhere_is_ignored_witness :
  (exists j, rows (jobStore sample.gRunning) !! "J1" = Some j /\
             AssignedAgentID j <> "A2") /\
  handleJobStatus (sample.anEnv true true) sample.gRunning (sample.connOf "A2")
    (sample.headerOf "A2")
    (sample.report "J1" JobStatusEnum_JOB_STATUS_SUCCEEDED "" "done")
  = sample.gRunning.
Proof.
  split.
  - exists (sample.dispatchedJob "J1" "RUNNING" "A1"). split; [reflexivity | discriminate].
  - apply report_from_elsewhere_is_ignored. right. right. right. right.
    exists (sample.dispatchedJob "J1" "RUNNING" "A1").
    split; [reflexivity | left; discriminate].
Defined.

Ltac decide_eqb :=
  repeat match goal with
         | |- context [String.eqb ?a ?b] =>
             first [ change (String.eqb a b) with true
                   | change (String.eqb a b) with false ]
         end;
  cbn [negb orb andb].

Lemma UpdateStatus_fault_free (jobID t : string) (st : SQLiteStore) (j : Job) :
  rows st !! jobID = Some j ->
  CanTransitionTo (Status j) t = true ->
  faults st = [] ->
  UpdateStatus jobID t st
    = (None, mkStore (<[jobID := with_Status t j]> (rows st)) []).
Proof.
  intros Hj Hc Hf. rewrite (UpdateStatus_present _ _ _ _ Hj), Hc.
  apply CanTransitionTo_table in Hc. simpl in Hc.
  assert (Hv : IsValid t = true /\ IsValid (Status j) = true).
  { repeat (destruct Hc as [Hc | Hc];
            [injection Hc as <- <-; split; reflexivity |]). destruct Hc. }
  destruct Hv as [-> ->]. cbn [negb].
  rewrite (Exec_UPDATE_fault_free _ _ _ Hf), (alter_present _ _ _ _ Hj).
  reflexivity.
Qed.

Lemma edge_from_live (s t : string) :
  CanTransitionTo s t = true -> IsValid s = true /\ IsTerminal s = false.
Proof.
  intros Hc. apply CanTransitionTo_table in Hc. simpl in Hc.
  repeat (destruct Hc as [Hc | Hc];
          [injection Hc as <- <-; split; reflexivity |]). destruct Hc.
Qed.

Lemma updateStatusThenRelease_fault_free (env : Env) (agentID jobID t : string)
    (g : Gateway) (j : Job) :
  rows (jobStore g) !! jobID = Some j ->
  CanTransitionTo (Status j) t = true ->
  faults (jobStore g) = [] ->
  updateStatusThenRelease env agentID jobID t g =
    releaseCapacity env agentID
      (setStore (mkStore (<[jobID := with_Status t j]> (rows (jobStore g))) []) g).
Proof.
  intros Hj Hc Hf. unfold updateStatusThenRelease.
  rewrite (UpdateStatus_fault_free _ _ _ _ Hj Hc Hf). reflexivity.
Qed.

Lemma releaseCapacity_queue (env : Env) (agentID : string) (g : Gateway) :
  jobQueue (releaseCapacity env agentID g) = jobQueue g.
Proof.
  unfold releaseCapacity.
  destruct (registry.GetAgent _ _ _) as [a |]; [| reflexivity].
  destruct (registry.RunningJobs a >? 0)%Z; reflexivity.
Qed.



(* --------------------------------------------------------------------- *)
(** ** What the two handlers keep *)
(* --------------------------------------------------------------------- *)

Lemma same_statuses_refl (t : gmap string Job) : same_statuses t t.
Proof. intros i. reflexivity. Qed.

Lemma same_statuses_trans (a b c : gmap string Job) :
  same_statuses a b -> same_statuses b c -> same_statuses a c.
Proof. intros H1 H2 i. rewrite H2. apply H1. Qed.

Lemma same_is_step (a b : gmap string Job) : same_statuses a b -> one_step a b.
Proof.
  intros H i. specialize (H i).
  destruct (a !! i), (b !! i); cbn in H; try discriminate; [| exact I].
  left. congruence.
Qed.

Lemma same_then_step (a b c : gmap string Job) :
  same_statuses a b -> one_step b c -> one_step a c.
Proof.
  intros H1 H2 i. specialize (H1 i). specialize (H2 i).
  destruct (a !! i), (b !! i), (c !! i); cbn in H1; try discriminate;
    try contradiction; try exact I.
  injection H1 as H1. rewrite <- H1. exact H2.
Qed.

Lemma step_then_same (a b c : gmap string Job) :
  one_step a b -> same_statuses b c -> one_step a c.
Proof.
  intros H1 H2 i. specialize (H1 i). specialize (H2 i).
  destruct (a !! i), (b !! i), (c !! i); cbn in H2; try discriminate;
    try contradiction; try exact I.
  injection H2 as H2. rewrite H2. exact H1.
Qed.

Lemma Exec_UPDATE_same_statuses (f : Job -> Job) (jobID : string)
    (st : SQLiteStore) :
  (forall k, Status (f k) = Status k) ->
  same_statuses (rows st) (rows (snd (Exec (UPDATE f jobID) st))).
Proof.
  intros Hf. rewrite Exec_UPDATE. destruct (driver_ok st); cbn [snd rows].
  - intros i. destruct (decide (jobID = i)) as [<- | Hne].
    + rewrite lookup_alter_eq. destruct (rows st !! jobID); cbn; [| reflexivity].
      rewrite Hf. reflexivity.
    + rewrite lookup_alter_ne by assumption. reflexivity.
  - apply same_statuses_refl.
Qed.

Lemma UpdateStatus_one_step (jobID t : string) (st : SQLiteStore) :
  one_step (rows st) (rows (snd (UpdateStatus jobID t st))).
Proof.
  destruct (UpdateStatus_rows_cases jobID t st) as [(_ & j & Hj & Hc & ->) | (_ & ->)].
  - intros i. destruct (decide (jobID = i)) as [<- | Hne].
    + rewrite lookup_insert_eq, Hj. right. exact Hc.
    + rewrite lookup_insert_ne by assumption.
      destruct (rows st !! i); [left; reflexivity | exact I].
  - apply same_is_step, same_statuses_refl.
Qed.

Lemma UpdateStatus_PENDING_same (jobID : string) (st : SQLiteStore) :
  snd (UpdateStatus jobID StatusPending st) = st.
Proof. destruct (UpdateStatus_to_PENDING_fails jobID st) as [e ->]. reflexivity. Qed.

Lemma UpdateAssignment_same_statuses (jobID a l : string) (d : option Z)
    (st : SQLiteStore) :
  same_statuses (rows st) (rows (snd (UpdateAssignment jobID a l d st))).
Proof. apply Exec_UPDATE_same_statuses. reflexivity. Qed.

Lemma UpdateOutput_same_statuses (jobID k p : string) (st : SQLiteStore) :
  same_statuses (rows st) (rows (snd (UpdateOutput jobID k p st))).
Proof. apply Exec_UPDATE_same_statuses. reflexivity. Qed.

Lemma UpdateStdoutStderr_same_statuses (jobID o e : string) (st : SQLiteStore) :
  same_statuses (rows st) (rows (snd (UpdateStdoutStderr jobID o e st))).
Proof. apply Exec_UPDATE_same_statuses. reflexivity. Qed.

Lemma UpdateAttemptID_same_statuses (jobID : string) (n : Z) (st : SQLiteStore) :
  same_statuses (rows st) (rows (snd (UpdateAttemptID jobID n st))).
Proof.
  unfold UpdateAttemptID. destruct (n <? 1)%Z; [apply same_statuses_refl |].
  apply Exec_UPDATE_same_statuses. reflexivity.
Qed.

Lemma commitAssignment_one_step (env : Env) (g : Gateway)
    (agentConn : AgentConnection) (envelope : Envelope) (agentID : string)
    (info : registry.AgentInfo) (jobID : string) (j : Job) (attemptID : Z) :
  one_step (rows (jobStore g))
    (rows (jobStore (fst (commitAssignment env g agentConn envelope agentID info
                            jobID j attemptID)))).
Proof.
  unfold commitAssignment.
  destruct (GenerateDownloadURL env (InputKey j)) as [inURL |];
    [| cbn [fst]; rewrite (proj2 (registry_reEnqueue _ _));
       apply same_is_step, same_statuses_refl].
  destruct (GenerateUploadURL env _) as [outURL |];
    [| cbn [fst]; rewrite (proj2 (registry_reEnqueue _ _));
       apply same_is_step, same_statuses_refl].
  pose proof (UpdateAssignment_same_statuses jobID agentID (NewUUID env) None
                (jobStore g)) as S1.
  destruct (UpdateAssignment jobID agentID (NewUUID env) None (jobStore g))
    as [e1 st1]. cbn [snd] in S1. cbn [jobStore setStore].
  destruct e1 as [e1 |];
    [cbn [fst]; rewrite (proj2 (registry_reEnqueue _ _)); cbn [jobStore setStore];
     apply same_is_step; exact S1 |].
  pose proof (UpdateStatus_one_step jobID StatusAssigned st1) as S2.
  destruct (UpdateStatus jobID StatusAssigned st1) as [e2 st2]. cbn [snd] in S2.
  pose proof (same_then_step _ _ _ S1 S2) as S12.
  destruct e2 as [e2 |].
  { pose proof (UpdateAssignment_same_statuses jobID "" "" None st2) as S3.
    destruct (UpdateAssignment jobID "" "" None st2) as [e3 st3]. cbn [snd] in S3.
    cbn [fst]. rewrite (proj2 (registry_reEnqueue _ _)). cbn [jobStore setStore].
    exact (step_then_same _ _ _ S12 S3). }
  pose proof (UpdateOutput_same_statuses jobID
    (("jobs/" +:+ jobID +:+ "/" +:+ pretty attemptID +:+ "/") +:+ "output." +:+
       outputExtensionOf j)
    ("jobs/" +:+ jobID +:+ "/" +:+ pretty attemptID +:+ "/") st2) as S3.
  fold (outputExtensionOf j).
  destruct (UpdateOutput jobID _ _ st2) as [e3 st3]. cbn [snd] in S3.
  pose proof (step_then_same _ _ _ S12 S3) as S123.
  assert (Hroll :
    one_step (rows (jobStore g))
      (rows (jobStore (fst
         (let '(_, st) := UpdateStatus jobID StatusPending st3 in
          let g0 := setStore st (setStore st3 (setStore st2 (setStore st1 g))) in
          let '(_, st0) := UpdateAssignment jobID "" "" None (jobStore g0) in
          (reEnqueue jobID (setStore st0 g0), agentConn)))))).
  { pose proof (UpdateStatus_PENDING_same jobID st3) as S4.
    destruct (UpdateStatus jobID StatusPending st3) as [e4 st4]. cbn [snd] in S4.
    subst st4. cbn [jobStore setStore].
    pose proof (UpdateAssignment_same_statuses jobID "" "" None st3) as S5.
    destruct (UpdateAssignment jobID "" "" None st3) as [e5 st5]. cbn [snd] in S5.
    cbn [fst]. rewrite (proj2 (registry_reEnqueue _ _)). cbn [jobStore setStore].
    exact (step_then_same _ _ _ S123 S5). }
  destruct e3 as [e3 |]; [exact Hroll |].
  match goal with
  | |- context [if negb (Marshal_ok env ?m) then _ else _] =>
      destruct (Marshal_ok env m); cbn [negb]
  end; [| exact Hroll].
  cbn [fst jobStore setStore setRegistry]. exact S123.
Qed.

Lemma assignJob_one_step (env : Env) (g : Gateway) (agentConn : AgentConnection)
    (envelope : Envelope) (agentID : string) (info : registry.AgentInfo)
    (jobID : string) (j : Job) :
  one_step (rows (jobStore g))
    (rows (jobStore (fst (assignJob env g agentConn envelope agentID info jobID j)))).
Proof.
  unfold assignJob. destruct (AttemptID j <? 1)%Z.
  - pose proof (UpdateAttemptID_same_statuses jobID 1 (jobStore g)) as S0.
    destruct (UpdateAttemptID jobID 1 (jobStore g)) as [[e |] st]; cbn [snd] in S0.
    + cbn [fst]. rewrite (proj2 (registry_reEnqueue _ _)). cbn [jobStore setStore].
      apply same_is_step. exact S0.
    + eapply same_then_step; [exact S0 |].
      apply (commitAssignment_one_step env (setStore st g)).
  - destruct (AttemptID j >? 1)%Z; apply commitAssignment_one_step.
Qed.

Lemma applyStatus_one_step (env : Env) (g : Gateway) (agentID jobID : string)
    (j : Job) (status : JobStatus) (t : string) :
  one_step (rows (jobStore g))
    (rows (jobStore (applyStatus env g agentID jobID j status t))).
Proof.
  assert (Hrel : forall g0 t0,
    one_step (rows (jobStore g)) (rows (jobStore g0)) ->
    one_step (rows (jobStore g)) (rows (jobStore g0)) /\
    (same_statuses (rows (jobStore g)) (rows (jobStore g0)) ->
     one_step (rows (jobStore g))
       (rows (jobStore (updateStatusThenRelease env agentID jobID t0 g0))))).
  { intros g0 t0 H0. split; [exact H0 |]. intros Hs.
    unfold updateStatusThenRelease.
    pose proof (UpdateStatus_one_step jobID t0 (jobStore g0)) as S.
    destruct (UpdateStatus jobID t0 (jobStore g0)) as [[e |] st]; cbn [snd] in S.
    - cbn [jobStore setStore]. exact (same_then_step _ _ _ Hs S).
    - rewrite releaseCapacity_store. cbn [jobStore setStore].
      exact (same_then_step _ _ _ Hs S). }
  assert (Hrelease : forall g0 t0,
    same_statuses (rows (jobStore g)) (rows (jobStore g0)) ->
    one_step (rows (jobStore g))
      (rows (jobStore (updateStatusThenRelease env agentID jobID t0 g0)))).
  { intros g0 t0 Hs. apply Hrel; [apply same_is_step |]; exact Hs. }
  assert (Hout : forall o e,
    same_statuses (rows (jobStore g))
      (rows (jobStore (setStore (snd (UpdateStdoutStderr jobID o e (jobStore g))) g)))).
  { intros o e. cbn [jobStore setStore]. apply UpdateStdoutStderr_same_statuses. }
  unfold applyStatus.
  destruct (t =? StatusRunning).
  { destruct (negb (JobStatus_Stdout status =? "") ||
              negb (JobStatus_Stderr status =? "")); cbn [jobStore setStore].
    - eapply same_then_step; [apply UpdateStdoutStderr_same_statuses |].
      apply UpdateStatus_one_step.
    - apply UpdateStatus_one_step. }
  destruct (t =? StatusSucceeded).
  { destruct (negb (JobStatus_OutputKey status =? ""));
      [destruct (OutputKey j =? "");
       [| destruct (negb (JobStatus_OutputKey status =? OutputKey j))] |];
      apply Hrelease, Hout. }
  destruct (t =? StatusFailed); [apply Hrelease, Hout |].
  destruct ((t =? StatusCanceled) || (t =? StatusLost)).
  { destruct (negb (CanTransitionTo (Status j) t));
      [apply same_is_step, same_statuses_refl |].
    apply Hrelease, same_statuses_refl. }
  destruct (negb (CanTransitionTo (Status j) t));
    [apply same_is_step, same_statuses_refl |].
  cbn [jobStore setStore]. apply UpdateStatus_one_step.
Qed.

(** X20: the lifecycle is kept by both handlers, whatever arrives and
    whatever the driver, the signer and the marshaler do.  Across one call
    of [handleRequestJob] and across one call of [handleJobStatus] no job is
    added to the table and none is removed, and every job either keeps its
    status or moves along one edge of the transition table; so a job that is
    SUCCEEDED, FAILED, CANCELED or LOST keeps that status. *)
Theorem handlers_keep_lifecycle (env : Env) (g : Gateway)
    (agentConn : AgentConnection) (envelope : Envelope) :
  (forall req,
     one_step (rows (jobStore g))
       (rows (jobStore (fst (handleRequestJob env g agentConn envelope req))))) /\
  (forall status,
     one_step (rows (jobStore g))
       (rows (jobStore (handleJobStatus env g agentConn envelope status)))) /\
  (forall t t' jobID j,
     one_step t t' -> t !! jobID = Some j -> IsTerminal (Status j) = true ->
     exists j', t' !! jobID = Some j' /\ Status j' = Status j).
Proof.
  assert (Hsame : one_step (rows (jobStore g)) (rows (jobStore g)))
    by apply same_is_step, same_statuses_refl.
  split; [| split].
  - intros req. unfold handleRequestJob.
    destruct (_ && _); [exact Hsame |].
    destruct (AgentId envelope =? ""); [exact Hsame |].
    destruct (registry.GetAgent _ _ _) as [info |]; [| exact Hsame].
    destruct (registry.Paused info); [exact Hsame |].
    destruct (_ >=? _)%Z; [exact Hsame |].
    destruct (jobQueue g) as [q |]; [| exact Hsame].
    destruct (dequeueLoop _ _ _ _ _) as [q' | jobID [j |] q']; try exact Hsame.
    destruct (negb (Status j =? StatusPending)); [exact Hsame |].
    apply (assignJob_one_step env (setQueue q' g)).
  - intros status. unfold handleJobStatus.
    destruct (AgentId envelope =? ""); [exact Hsame |].
    destruct (negb (AgentID agentConn =? AgentId envelope)); [exact Hsame |].
    destruct (JobStatus_JobId status =? ""); [exact Hsame |].
    destruct (Get _ _) as [j | e]; [| exact Hsame].
    destruct (negb (AssignedAgentID j =? AgentId envelope)); [exact Hsame |].
    destruct (negb (_ =? _)%Z); [exact Hsame |].
    destruct (negb (IsValid _)); [exact Hsame |].
    destruct (IsTerminal (Status j)); [exact Hsame |].
    apply applyStatus_one_step.
  - intros t t' jobID j H Hj Hterm. specialize (H jobID). rewrite Hj in H.
    destruct (t' !! jobID) as [j' |]; [| contradiction].
    exists j'. split; [reflexivity |].
    destruct H as [H | H]; [exact H |].
    rewrite (terminal_no_edge _ _ Hterm) in H. discriminate.
Qed.

Lemma handleRequestJob_registry (env : Env) (g : Gateway)
    (agentConn : AgentConnection) (envelope : Envelope) (req : RequestJob) :
  registry (fst (handleRequestJob env g agentConn envelope req)) = registry g \/
  exists info,
    registry g !! AgentId envelope = Some info /\
    (registry.RunningJobs info < registry.MaxConcurrency info)%Z /\
    registry (fst (handleRequestJob env g agentConn envelope req))
      = registry.UpdateHeartbeat (now env) (AgentId envelope) (registry.Paused info)
          (registry.RunningJobs info + 1) (registry g).
Proof.
  unfold handleRequestJob.
  destruct (_ && _); [left; reflexivity |].
  destruct (AgentId envelope =? ""); [left; reflexivity |].
  destruct (registry.GetAgent _ _ _) as [info |] eqn:HG; [| left; reflexivity].
  destruct (registry.Paused info) eqn:Hp; [left; reflexivity |].
  destruct (Z.geb_spec (registry.RunningJobs info) (registry.MaxConcurrency info));
    [left; reflexivity |].
  destruct (jobQueue g) as [q |]; [| left; reflexivity].
  destruct (dequeueLoop _ _ _ _ _) as [q' | jobID [j |] q'] eqn:HL;
    [left; reflexivity | | left; reflexivity].
  destruct (negb (Status j =? StatusPending)); [left; reflexivity |].
  apply dequeueLoop_done in HL. destruct HL as [[_ [=]] | HGet].
  apply Get_present in HGet. destruct HGet as [Hj _].
  destruct (assignJob_outcome env (setQueue q' g) agentConn envelope
              (AgentId envelope) info jobID j Hj)
    as [[_ H2] | (m & j' & _ & _ & _ & _ & _ & _ & _ & _ & _ & _ & _ & Hreg & _)].
  - left. exact H2.
  - right. exists info. split; [apply (GetAgent_present _ _ _ _ HG) |].
    split; [assumption |]. exact Hreg.
Qed.

Lemma updateStatusThenRelease_registry (env : Env) (agentID jobID t : string)
    (g : Gateway) :
  registry (updateStatusThenRelease env agentID jobID t g) = registry g \/
  registry (updateStatusThenRelease env agentID jobID t g)
    = registry (releaseCapacity env agentID g).
Proof.
  unfold updateStatusThenRelease.
  destruct (UpdateStatus jobID t (jobStore g)) as [[e |] st].
  - left. reflexivity.
  - right. apply releaseCapacity_registry.
Qed.

Lemma handleJobStatus_registry (env : Env) (g : Gateway)
    (agentConn : AgentConnection) (envelope : Envelope) (status : JobStatus) :
  registry (handleJobStatus env g agentConn envelope status) = registry g \/
  registry (handleJobStatus env g agentConn envelope status)
    = registry (releaseCapacity env (AgentId envelope) g).
Proof.
  assert (Hrel : forall st t,
    registry (updateStatusThenRelease env (AgentId envelope)
                (JobStatus_JobId status) t (setStore st g)) = registry g \/
    registry (updateStatusThenRelease env (AgentId envelope)
                (JobStatus_JobId status) t (setStore st g))
      = registry (releaseCapacity env (AgentId envelope) g)).
  { intros st t.
    destruct (updateStatusThenRelease_registry env (AgentId envelope)
                (JobStatus_JobId status) t (setStore st g)) as [H | H];
      rewrite H; [left; reflexivity | right; apply releaseCapacity_registry]. }
  unfold handleJobStatus.
  destruct (AgentId envelope =? ""); [left; reflexivity |].
  destruct (negb (AgentID agentConn =? AgentId envelope)); [left; reflexivity |].
  destruct (JobStatus_JobId status =? ""); [left; reflexivity |].
  destruct (Get _ _) as [j | e]; [| left; reflexivity].
  destruct (negb (AssignedAgentID j =? AgentId envelope)); [left; reflexivity |].
  destruct (negb (_ =? _)%Z); [left; reflexivity |].
  destruct (negb (IsValid _)); [left; reflexivity |].
  destruct (IsTerminal (Status j)); [left; reflexivity |].
  unfold applyStatus.
  destruct (_ =? StatusRunning).
  { destruct (negb (JobStatus_Stdout status =? "") ||
              negb (JobStatus_Stderr status =? "")); left; reflexivity. }
  destruct (_ =? StatusSucceeded).
  { destruct (negb (JobStatus_OutputKey status =? ""));
      [destruct (OutputKey j =? "");
       [| destruct (negb (JobStatus_OutputKey status =? OutputKey j))] |];
      apply Hrel. }
  destruct (_ =? StatusFailed); [apply Hrel |].
  destruct (_ || _).
  { destruct (negb (CanTransitionTo _ _)); [left; reflexivity |].
    rewrite <- (setStore_same g) at 1 3. apply Hrel. }
  destruct (negb (CanTransitionTo _ _)); left; reflexivity.
Qed.

Lemma capacity_ok_UpdateHeartbeat (now : Z) (agentID : string) (paused : bool)
    (n : Z) (agents : gmap string registry.AgentInfo) :
  capacity_ok agents ->
  (forall a, agents !! agentID = Some a -> (0 <= n <= registry.MaxConcurrency a)%Z) ->
  capacity_ok (registry.UpdateHeartbeat now agentID paused n agents).
Proof.
  intros Hok Hn. unfold registry.UpdateHeartbeat.
  destruct (agents !! agentID) as [a |] eqn:Ha; [| exact Hok].
  intros i b Hb. destruct (decide (agentID = i)) as [<- | Hne].
  - rewrite lookup_insert_eq in Hb. injection Hb as <-. cbn. apply Hn. reflexivity.
  - rewrite lookup_insert_ne in Hb by assumption. apply (Hok i b Hb).
Qed.

Lemma capacity_ok_releaseCapacity (env : Env) (agentID : string) (g : Gateway) :
  capacity_ok (registry g) -> capacity_ok (registry (releaseCapacity env agentID g)).
Proof.
  intros Hok. unfold releaseCapacity.
  destruct (registry.GetAgent _ _ _) as [a |] eqn:HG; [| exact Hok].
  destruct (Z.gtb_spec (registry.RunningJobs a) 0); [| exact Hok].
  cbn [registry setRegistry]. apply capacity_ok_UpdateHeartbeat; [exact Hok |].
  intros b Hb. apply GetAgent_present in HG. rewrite HG in Hb. injection Hb as <-.
  specialize (Hok _ _ HG). lia.
Qed.

(** X21: the capacity bound is kept by both handlers.  If every agent of
    the registry runs between 0 and [MaxConcurrency] jobs, the same holds
    after one call of [handleRequestJob] and after one call of
    [handleJobStatus], whatever the request or report and whatever the
    driver, the signer and the marshaler do: the dispatcher counts a job
    only for an agent below its bound, the reconciler gives back a job only
    when the count is above zero. *)
Theorem handlers_keep_capacity (env : Env) (g : Gateway)
    (agentConn : AgentConnection) (envelope : Envelope) :
  capacity_ok (registry g) ->
  (forall req,
     capacity_ok (registry (fst (handleRequestJob env g agentConn envelope req)))) /\
  (forall status,
     capacity_ok (registry (handleJobStatus env g agentConn envelope status))).
Proof.
  intros Hok. split.
  - intros req.
    destruct (handleRequestJob_registry env g agentConn envelope req)
      as [-> | (info & Hi & Hlt & ->)]; [exact Hok |].
    apply capacity_ok_UpdateHeartbeat; [exact Hok |].
    intros a Ha. rewrite Hi in Ha. injection Ha as <-.
    specialize (Hok _ _ Hi). lia.
  - intros status.
    destruct (handleJobStatus_registry env g agentConn envelope status) as [-> | ->];
      [exact Hok | apply capacity_ok_releaseCapacity; exact Hok].
Qed.

(** The gateway with the idle agent A1 of capacity one meets the bound, and
    still does after A1 has been given the job J5. *)
Lemma handlers_keep_capacity_witness :
  capacity_ok (registry (sample.gPending [])) /\
  capacity_ok (registry (fst (handleRequestJob (sample.anEnv true true)
                                (sample.gPending []) (sample.connOf "A1")
                                (sample.headerOf "A1") (mkRequestJob "A1")))).
Proof.
  assert (H : capacity_ok (registry (sample.gPending []))).
  { intros agentID a Ha. unfold sample.gPending, sample.aGateway in Ha.
    cbn [registry] in Ha. apply lookup_singleton_Some in Ha.
    destruct Ha as [_ <-]. cbn. lia. }
  split; [exact H |].
  apply (proj1 (handlers_keep_capacity (sample.anEnv true true) (sample.gPending [])
                  (sample.connOf "A1") (sample.headerOf "A1") H)).
Defined.

(* --------------------------------------------------------------------- *)
(** ** The heartbeat handler *)
(* --------------------------------------------------------------------- *)

Lemma handleHeartbeat_accepted (env : Env) (ackMarshals : bool) (g : Gateway)
    (agentConn : AgentConnection) (envelope : Envelope) (hb : Heartbeat) :
  AgentID agentConn <> "" ->
  Heartbeat_AgentId hb = AgentID agentConn ->
  handleHeartbeat env ackMarshals g agentConn envelope hb =
    (setRegistry (registry.UpdateHeartbeat (now env) (AgentID agentConn)
                    (Heartbeat_Paused hb) (Heartbeat_RunningJobs hb) (registry g)) g,
     if ackMarshals
     then Some (mkHeartbeatAckEnvelope (RequestId envelope) (now env / 1000000) true)
     else None).
Proof.
  intros Hb Hid. unfold handleHeartbeat.
  apply String.eqb_neq in Hb. rewrite Hb, Hid, String.eqb_refl. cbn [negb].
  destruct ackMarshals; reflexivity.
Qed.

(** X22: the heartbeat handler.  A heartbeat on a connection that is not
    bound to an agent, or that names another agent than the connection's, is
    dropped: nothing changes and nothing is acknowledged.  Any other
    heartbeat leaves the store, the queue and every other agent alone and is
    acknowledged with [success = true] under the request id of the incoming
    envelope (unless the acknowledgement fails to marshal); for a registered
    agent it makes the agent online at this instant with exactly the
    reported [paused] and [running_jobs], whatever values these are, and for
    an agent the registry does not know it changes nothing although it is
    acknowledged all the same. *)
Theorem heartbeat_is_taken_at_its_word (env : Env) (ackMarshals : bool)
    (g : Gateway) (agentConn : AgentConnection) (envelope : Envelope)
    (hb : Heartbeat) :
  (AgentID agentConn = "" \/ Heartbeat_AgentId hb <> AgentID agentConn ->
   handleHeartbeat env ackMarshals g agentConn envelope hb = (g, None)) /\
  (AgentID agentConn <> "" -> Heartbeat_AgentId hb = AgentID agentConn ->
   jobStore (fst (handleHeartbeat env ackMarshals g agentConn envelope hb))
     = jobStore g /\
   jobQueue (fst (handleHeartbeat env ackMarshals g agentConn envelope hb))
     = jobQueue g /\
   snd (handleHeartbeat env ackMarshals g agentConn envelope hb)
     = (if ackMarshals
        then Some (mkHeartbeatAckEnvelope (RequestId envelope)
                     (now env / 1000000) true)
        else None) /\
   (forall other, other <> AgentID agentConn ->
      registry (fst (handleHeartbeat env ackMarshals g agentConn envelope hb))
        !! other = registry g !! other) /\
   match registry g !! AgentID agentConn with
   | None =>
       registry (fst (handleHeartbeat env ackMarshals g agentConn envelope hb))
         = registry g
   | Some a =>
       registry.GetAgent (now env) (AgentID agentConn)
         (registry (fst (handleHeartbeat env ackMarshals g agentConn envelope hb)))
         = Some (registry.mkAgentInfo (registry.AgentID a) (registry.Hostname a)
                   (registry.MaxConcurrency a) (Heartbeat_Paused hb)
                   (Heartbeat_RunningJobs hb) (now env) (registry.ConnectedAt a))
   end).
Proof.
  split.
  - intros H. unfold handleHeartbeat.
    destruct (String.eqb_spec (AgentID agentConn) ""); [reflexivity |].
    destruct (String.eqb_spec (Heartbeat_AgentId hb) (AgentID agentConn));
      [| reflexivity].
    destruct H; contradiction.
  - intros Hb Hid. rewrite (handleHeartbeat_accepted _ _ _ _ _ _ Hb Hid).
    cbn [fst snd jobStore jobQueue registry setRegistry].
    repeat split.
    + intros other Hne. unfold registry.UpdateHeartbeat.
      destruct (registry g !! AgentID agentConn); [| reflexivity].
      apply lookup_insert_ne. congruence.
    + unfold registry.UpdateHeartbeat, registry.GetAgent.
      destruct (registry g !! AgentID agentConn) as [a |] eqn:Ha; [| reflexivity].
      rewrite lookup_insert_eq. cbn [registry.LastHeartbeat].
      rewrite Z.sub_diag. reflexivity.
Qed.

(** X23: the dispatcher goes by what the agent last reported.  After an
    accepted heartbeat that reports [paused], or that reports a number of
    running jobs at or above the agent's [MaxConcurrency], a RequestJob of
    that agent is not served, however long the queue and at whatever later
    instant: nothing is sent and the gateway stays as the heartbeat left
    it. *)
Theorem reported_load_gates_dispatch (env env' : Env) (ackMarshals : bool)
    (g : Gateway) (agentConn agentConn' : AgentConnection)
    (envelope envelope' : Envelope) (hb : Heartbeat) (req : RequestJob) :
  AgentID agentConn <> "" ->
  Heartbeat_AgentId hb = AgentID agentConn ->
  AgentId envelope' = AgentID agentConn ->
  Heartbeat_Paused hb = true \/
  (forall a, registry g !! AgentID agentConn = Some a ->
             (registry.MaxConcurrency a <= Heartbeat_RunningJobs hb)%Z) ->
  handleRequestJob env'
    (fst (handleHeartbeat env ackMarshals g agentConn envelope hb))
    agentConn' envelope' req
  = (fst (handleHeartbeat env ackMarshals g agentConn envelope hb), agentConn').
Proof.
  intros Hb Hid Hsame Hload. rewrite (handleHeartbeat_accepted _ _ _ _ _ _ Hb Hid).
  cbn [fst]. unfold handleRequestJob.
  destruct (_ && _); [reflexivity |].
  destruct (AgentId envelope' =? ""); [reflexivity |].
  destruct (registry.GetAgent _ _ _) as [info |] eqn:HG; [| reflexivity].
  apply GetAgent_present in HG. cbn [registry setRegistry] in HG.
  rewrite Hsame in HG. unfold registry.UpdateHeartbeat in HG.
  destruct (registry g !! AgentID agentConn) as [a |] eqn:Ha.
  - rewrite lookup_insert_eq in HG. injection HG as <-.
    cbn [registry.Paused registry.RunningJobs registry.MaxConcurrency].
    destruct Hload as [-> | Hcap]; [reflexivity |].
    destruct (Heartbeat_Paused hb); [reflexivity |].
    specialize (Hcap a eq_refl).
    destruct (Z.geb_spec (Heartbeat_RunningJobs hb) (registry.MaxConcurrency a));
      [reflexivity | lia].
  - rewrite Ha in HG. discriminate.
Qed.

(** The idle agent A1 reports itself paused; its next request, one second
    later, is not served although J5 waits in the queue. *)
Lemma reported_load_gates_dispatch_witness :
  handleRequestJob (sample.anEnv true true)
    (fst (handleHeartbeat (sample.anEnv true true) true (sample.gPending [])
            (sample.connOf "A1") (sample.headerOf "A1") (mkHeartbeat "A1" true 0)))
    (sample.connOf "A1") (sample.headerOf "A1") (mkRequestJob "A1")
  = (fst (handleHeartbeat (sample.anEnv true true) true (sample.gPending [])
            (sample.connOf "A1") (sample.headerOf "A1") (mkHeartbeat "A1" true 0)),
     sample.connOf "A1").
Proof.
  apply reported_load_gates_dispatch.
  - discriminate.
  - reflexivity.
  - reflexivity.
  - left. reflexivity.
Defined.

(* --------------------------------------------------------------------- *)
(** ** Dispatch and reports together *)
(* --------------------------------------------------------------------- *)

Lemma applyStatus_queue (env : Env) (g : Gateway) (agentID jobID : string)
    (j : Job) (status : JobStatus) (t : string) :
  jobQueue (applyStatus env g agentID jobID j status t) = jobQueue g.
Proof.
  assert (Hrel : forall g0 t0,
    jobQueue (updateStatusThenRelease env agentID jobID t0 g0) = jobQueue g0).
  { intros g0 t0. unfold updateStatusThenRelease.
    destruct (UpdateStatus jobID t0 (jobStore g0)) as [[e |] st];
      [reflexivity | rewrite releaseCapacity_queue; reflexivity]. }
  unfold applyStatus.
  destruct (t =? StatusRunning).
  { destruct (negb (JobStatus_Stdout status =? "") ||
              negb (JobStatus_Stderr status =? "")); reflexivity. }
  destruct (t =? StatusSucceeded).
  { destruct (negb (JobStatus_OutputKey status =? ""));
      [destruct (OutputKey j =? "");
       [| destruct (negb (JobStatus_OutputKey status =? OutputKey j))] |];
      rewrite Hrel; reflexivity. }
  destruct (t =? StatusFailed); [rewrite Hrel; reflexivity |].
  destruct ((t =? StatusCanceled) || (t =? StatusLost)).
  { destruct (negb (CanTransitionTo (Status j) t)); [reflexivity | apply Hrel]. }
  destruct (negb (CanTransitionTo (Status j) t)); reflexivity.
Qed.

Lemma running_report_applied (env : Env) (g : Gateway) (agentID jobID : string)
    (j : Job) (status : JobStatus) :
  rows (jobStore g) !! jobID = Some j ->
  Status j = StatusAssigned ->
  faults (jobStore g) = [] ->
  applyStatus env g agentID jobID j status StatusRunning =
    setStore
      (mkStore
         (<[jobID := with_Status StatusRunning
                       (if negb (JobStatus_Stdout status =? "") ||
                           negb (JobStatus_Stderr status =? "")
                        then with_StdoutStderr (JobStatus_Stdout status)
                               (JobStatus_Stderr status) j
                        else j)]> (rows (jobStore g))) []) g.
Proof.
  intros Hj Hs Hf.
  assert (Hc : CanTransitionTo (Status j) StatusRunning = true)
    by (rewrite Hs; reflexivity).
  unfold applyStatus. decide_eqb.
  destruct (negb (JobStatus_Stdout status =? "") ||
            negb (JobStatus_Stderr status =? "")).
  - unfold UpdateStdoutStderr. rewrite (Exec_UPDATE_fault_free _ _ _ Hf).
    cbn [snd jobStore setStore].
    rewrite (UpdateStatus_fault_free jobID StatusRunning _
               (with_StdoutStderr (JobStatus_Stdout status)
                  (JobStatus_Stderr status) j))
      by (cbn [rows]; rewrite ?lookup_alter_eq, ?Hj; try reflexivity; exact Hc).
    cbn [snd rows]. rewrite (alter_present _ _ _ _ Hj), insert_insert_eq.
    reflexivity.
  - rewrite (UpdateStatus_fault_free _ _ _ _ Hj Hc Hf). reflexivity.
Qed.



(* ===================================================================== *)
(** * Further properties of the agent *)
(* ===================================================================== *)

Lemma randomHex_index (seed : Z) :
  let idx := Z.rem (int64 (seed * 1103515245 + 12345))
                   (Z.of_nat (String.length chars)) in
  (0 <= (if (idx <? 0)%Z then int64 (- idx) else idx) < 16)%Z.
Proof.
  cbv zeta. change (Z.of_nat (String.length chars)) with 16%Z.
  set (s := int64 (seed * 1103515245 + 12345)).
  pose proof (Z.rem_bound_abs s 16 ltac:(lia)) as Hb.
  destruct (Z.ltb_spec (Z.rem s 16) 0).
  - rewrite int64_small by lia. lia.
  - lia.
Qed.

Lemma chars_get (i : nat) :
  (i < 16)%nat ->
  exists ch, String.get i chars = Some ch /\
             In ch (list_ascii_of_string chars).
Proof.
  intros Hi.
  do 16 (destruct i as [| i];
         [eexists; split; [reflexivity | simpl; tauto] |]).
  lia.
Qed.

Lemma randomHex_loop_hex (n : nat) :
  forall seed, exists s,
    randomHex_loop n seed = Some s /\ String.length s = n /\
    forall ch, In ch (list_ascii_of_string s) ->
               In ch (list_ascii_of_string chars).
Proof.
  induction n as [| n IH]; intros seed.
  - exists "". repeat split. intros ch [].
  - cbn [randomHex_loop]. pose proof (randomHex_index seed) as Hi. cbv zeta in Hi.
    set (idx := if (Z.rem (int64 (seed * 1103515245 + 12345))
                      (Z.of_nat (String.length chars)) <? 0)%Z
                then int64 (- Z.rem (int64 (seed * 1103515245 + 12345))
                                (Z.of_nat (String.length chars)))
                else Z.rem (int64 (seed * 1103515245 + 12345))
                       (Z.of_nat (String.length chars))) in *.
    destruct (Z.ltb_spec idx 0); [lia |].
    destruct (chars_get (Z.to_nat idx) ltac:(lia)) as (ch & -> & Hch).
    destruct (IH (int64 (seed * 1103515245 + 12345))) as (rest & -> & Hl & Hall).
    exists (String ch rest). split; [reflexivity |]. split.
    + cbn [String.length]. rewrite Hl. reflexivity.
    + intros c [<- | Hc]; [exact Hch | apply Hall; exact Hc].
Qed.

(** X25: request ids.  For a length [n >= 0] and any clock reading,
    [randomHex] returns a string of exactly [n] characters, each of them one
    of the sixteen hexadecimal digits: the index into [chars] is in range
    for every seed, positive or negative, so that the loop never panics.
    For a negative [n] the call panics.  [generateRequestID] therefore
    always returns the clock reading, a dash and 8 hexadecimal digits. *)
Theorem randomHex_gives_hex_digits (n UnixNano : Z) :
  ((n < 0)%Z -> randomHex n UnixNano = None) /\
  ((0 <= n)%Z ->
   exists s, randomHex n UnixNano = Some s /\
             Z.of_nat (String.length s) = n /\
             forall ch, In ch (list_ascii_of_string s) ->
                        In ch (list_ascii_of_string chars)) /\
  (forall now, exists hex,
     generateRequestID now UnixNano = Some (pretty now +:+ "-" +:+ hex) /\
     String.length hex = 8%nat /\
     forall ch, In ch (list_ascii_of_string hex) ->
                In ch (list_ascii_of_string chars)).
Proof.
  split; [| split].
  - intros Hn. unfold randomHex. destruct (Z.ltb_spec n 0); [reflexivity | lia].
  - intros Hn. unfold randomHex. destruct (Z.ltb_spec n 0); [lia |].
    destruct (randomHex_loop_hex (Z.to_nat n) UnixNano) as (s & Hs & Hl & Hall).
    exists s. split; [exact Hs |]. split; [lia | exact Hall].
  - intros now. unfold generateRequestID, randomHex.
    change (8 <? 0)%Z with false. cbn iota.
    destruct (randomHex_loop_hex (Z.to_nat 8) UnixNano) as (s & Hs & Hl & Hall).
    rewrite Hs. exists s. split; [reflexivity |]. split; assumption.
Qed.

Lemma truncateString_10000 (s : string) :
  exists t, truncateString s 10000 = Some t.
Proof.
  unfold truncateString.
  destruct (Z.of_nat (String.length s) <=? 10000)%Z; [eauto |].
  change (10000 <? 0)%Z with false. cbn iota. eauto.
Qed.

Lemma executeCommand_result (sanitizeUTF8 : string -> string)
    (stdout stderr : string) (runErr : bool) (outputFile : option string) :
  exists out err,
    executeCommand sanitizeUTF8 stdout stderr runErr outputFile =
      Some (if runErr then (mkCommandResult None out err false, true)
            else match outputFile with
                 | Some data => (mkCommandResult (Some data) out err true, false)
                 | None =>
                     if (0 <? String.length stdout)%nat
                     then (mkCommandResult (Some stdout) out err false, false)
                     else (mkCommandResult None out err false, false)
                 end).
Proof.
  unfold executeCommand.
  destruct (truncateString_10000 (sanitizeUTF8 stdout)) as [out ->].
  destruct (truncateString_10000 (sanitizeUTF8 stderr)) as [err ->].
  exists out, err. cbn.
  destruct runErr; [reflexivity |].
  destruct outputFile; [reflexivity |].
  destruct (String.length stdout); reflexivity.
Qed.

Lemma processJob_client (sanitizeUTF8 : string -> string)
    (processForwardJob : Assigned -> list JobStatus)
    (c : Client) (assigned : Assigned) (run : Run)
    (c2 : Client) (reports : list JobStatus) :
  processJob sanitizeUTF8 processForwardJob c assigned run = Some (c2, reports) ->
  c2 = triggerRequestJob (decrementRunningJobs c).
Proof.
  unfold processJob.
  destruct (_ =? _)%Z; [intros [= <- _]; reflexivity |].
  destruct (Assigned_Command assigned =? ""); [intros [= <- _]; reflexivity |].
  match goal with
  | |- context [match ?input with inl _ => _ | inr _ => _ end] =>
      destruct input as [inputFile | report]
  end; [| intros [= <- _]; reflexivity].
  destruct (executeCommand _ _ _ _ _) as [[cmdResult []] |];
    [intros [= <- _]; reflexivity | | discriminate].
  destruct (_ && _); [| intros [= <- _]; reflexivity].
  destruct (Assigned_OutputUpload assigned) as [[url | |] |];
    try (intros [= <- _]; reflexivity).
  destruct (uploadOutput run); intros [= <- _]; reflexivity.
Qed.

Lemma processJob_outcome (sanitizeUTF8 : string -> string)
    (processForwardJob : Assigned -> list JobStatus)
    (c : Client) (assigned : Assigned) (run : Run) :
  Assigned_JobType assigned <> JobTypeEnum_JOB_TYPE_FORWARD_HTTP ->
  exists final,
    processJob sanitizeUTF8 processForwardJob c assigned run
      = Some (triggerRequestJob (decrementRunningJobs c),
              [reportJobStatus sanitizeUTF8 (Assigned_JobId assigned)
                 (Assigned_AttemptId assigned) JobStatusEnum_JOB_STATUS_RUNNING
                 "Processing job" "";
               final]) /\
    JobStatus_JobId final = Assigned_JobId assigned /\
    JobStatus_AttemptId final = int32 (Assigned_AttemptId assigned) /\
    ((JobStatus_Status final = JobStatusEnum_JOB_STATUS_FAILED /\
      JobStatus_OutputKey final = "") \/
     (JobStatus_Status final = JobStatusEnum_JOB_STATUS_SUCCEEDED /\
      Assigned_Command assigned <> "" /\
      cmdRun run = None /\
      (JobStatus_OutputKey final = "" \/
       (JobStatus_OutputKey final = Assigned_OutputKey assigned /\
        uploadOutput run = None /\
        exists data, readOutputFile run = Some data /\ data <> "")))).
Proof.
  intros Htype. unfold processJob.
  destruct (Z.eqb_spec (Assigned_JobType assigned)
              JobTypeEnum_JOB_TYPE_FORWARD_HTTP); [contradiction |].
  destruct (String.eqb_spec (Assigned_Command assigned) "") as [| Hcmd].
  { eexists. split; [reflexivity |]. cbn. auto. }
  match goal with
  | |- context [match ?input with inl _ => _ | inr _ => _ end] =>
      assert (Hin : (exists f, input = inl f) \/
                    (exists r, input = inr r /\
                       JobStatus_JobId r = Assigned_JobId assigned /\
                       JobStatus_AttemptId r = int32 (Assigned_AttemptId assigned) /\
                       JobStatus_Status r = JobStatusEnum_JOB_STATUS_FAILED /\
                       JobStatus_OutputKey r = ""));
      [| destruct Hin as [[f ->] | (r & -> & H1 & H2 & H3 & H4)]]
  end.
  { destruct (Assigned_InputDownload assigned) as [[url | |] |]; [| | | eauto].
    - destruct (negb _); [| eauto].
      destruct (downloadInputToFile run); [eauto |].
      right. eexists. split; [reflexivity |]. cbn. auto.
    - destruct (negb _); [| eauto].
      right. eexists. split; [reflexivity |]. cbn. auto.
    - destruct (negb _); [| eauto].
      right. eexists. split; [reflexivity |]. cbn. auto. }
  2:{ exists r. split; [reflexivity |]. auto. }
  destruct (executeCommand_result sanitizeUTF8 (cmdStdout run) (cmdStderr run)
              (match cmdRun run with Some _ => true | None => false end)
              (readOutputFile run)) as (out & err & ->).
  destruct (cmdRun run) as [e |] eqn:Hrun.
  { eexists. split; [reflexivity |]. cbn. auto. }
  destruct (readOutputFile run) as [data |] eqn:Hread.
  - cbn [HasOutputFile lenOutputData OutputData andb].
    destruct (Z.gtb_spec (Z.of_nat (String.length data)) 0) as [Hlen |].
    + destruct (Assigned_OutputUpload assigned) as [[url | |] |];
        try (eexists; split; [reflexivity |]; cbn; auto; fail).
      destruct (uploadOutput run) eqn:Hup.
      * eexists. split; [reflexivity |]. cbn. auto.
      * eexists. split; [reflexivity |]. cbn.
        split; [reflexivity |]. split; [reflexivity |]. right.
        split; [reflexivity |]. split; [assumption |]. split; [reflexivity |].
        right. split; [reflexivity |]. split; [reflexivity |].
        exists data. split; [reflexivity |]. intros ->. cbn in Hlen. lia.
    + eexists. split; [reflexivity |]. cbn.
      split; [reflexivity |]. split; [reflexivity |]. right. auto.
  - destruct (0 <? String.length (cmdStdout run))%nat;
      cbn [HasOutputFile andb];
      (eexists; split; [reflexivity |]; cbn;
       split; [reflexivity |]; split; [reflexivity |]; right; auto).
Qed.



(** X27: the agent's count of running jobs.  Let the counter be between 0
    and [maxConcurrency].  [handleJobAssigned] starts a job exactly when the
    message names a job and the agent is not paused and below its capacity;
    then it makes no report and counts the job, staying within the capacity.
    Otherwise the agent is left as it was, and a message that names a job is
    answered by one FAILED report without output key.  When the started job
    ends, however it ends, the counter is back at its value from before the
    message. *)
Theorem agent_counts_its_jobs (sanitizeUTF8 : string -> string)
    (processForwardJob : Assigned -> list JobStatus)
    (c : Client) (assigned : Assigned) (run : Run) :
  (0 <= runningJobs c <= maxConcurrency c)%Z ->
  (maxConcurrency c < 2 ^ 63)%Z ->
  (snd (handleJobAssigned sanitizeUTF8 c assigned) = true <->
   Assigned_JobId assigned <> "" /\ paused c = false /\
   (runningJobs c < maxConcurrency c)%Z) /\
  (snd (handleJobAssigned sanitizeUTF8 c assigned) = true ->
   snd (fst (handleJobAssigned sanitizeUTF8 c assigned)) = [] /\
   runningJobs (fst (fst (handleJobAssigned sanitizeUTF8 c assigned)))
     = (runningJobs c + 1)%Z /\
   (runningJobs (fst (fst (handleJobAssigned sanitizeUTF8 c assigned)))
      <= maxConcurrency (fst (fst (handleJobAssigned sanitizeUTF8 c assigned))))%Z /\
   forall c2 reports,
     processJob sanitizeUTF8 processForwardJob
       (fst (fst (handleJobAssigned sanitizeUTF8 c assigned))) assigned run
       = Some (c2, reports) ->
     runningJobs c2 = runningJobs c /\ maxConcurrency c2 = maxConcurrency c /\
     paused c2 = paused c) /\
  (snd (handleJobAssigned sanitizeUTF8 c assigned) = false ->
   fst (fst (handleJobAssigned sanitizeUTF8 c assigned)) = c /\
   (Assigned_JobId assigned = "" ->
    snd (fst (handleJobAssigned sanitizeUTF8 c assigned)) = []) /\
   (Assigned_JobId assigned <> "" ->
    exists report,
      snd (fst (handleJobAssigned sanitizeUTF8 c assigned)) = [report] /\
      JobStatus_JobId report = Assigned_JobId assigned /\
      JobStatus_Status report = JobStatusEnum_JOB_STATUS_FAILED /\
      JobStatus_OutputKey report = "")).
Proof.
  intros Hc Hmax. unfold handleJobAssigned, canAcceptJob.
  destruct (String.eqb_spec (Assigned_JobId assigned) "") as [Hid | Hid].
  { cbn [fst snd]. split; [| split].
    - split; [discriminate | intros [H _]; contradiction].
    - discriminate.
    - intros _. split; [reflexivity |]. split; [reflexivity | contradiction]. }
  destruct (paused c) eqn:Hp; cbn [negb andb fst snd].
  { split; [| split].
    - split; [discriminate | intros (_ & H & _); discriminate].
    - discriminate.
    - intros _. split; [reflexivity |]. split; [contradiction |].
      intros _. eexists. split; [reflexivity |]. cbn. auto. }
  destruct (Z.ltb_spec (runningJobs c) (maxConcurrency c)) as [Hlt | Hge];
    cbn [negb fst snd].
  - split; [| split].
    + split; auto.
    + intros _. split; [reflexivity |].
      unfold incrementRunningJobs, SetRunningJobs. cbn [runningJobs maxConcurrency].
      rewrite int64_small by lia.
      split; [reflexivity |]. split; [lia |].
      intros c2 reports H. apply processJob_client in H. subst c2.
      unfold triggerRequestJob, decrementRunningJobs, SetRunningJobs.
      cbn [runningJobs maxConcurrency paused requestJobChanLen].
      destruct (Z.gtb_spec (runningJobs c + 1) 0); [| lia].
      cbn [runningJobs maxConcurrency paused requestJobChanLen].
      rewrite int64_small by lia.
      destruct (_ <? 1)%Z; cbn [runningJobs maxConcurrency paused];
        repeat split; try assumption; lia.
    + discriminate.
  - split; [| split].
    + split; [discriminate | intros (_ & _ & H); lia].
    + discriminate.
    + intros _. split; [reflexivity |]. split; [contradiction |].
      intros _. eexists. split; [reflexivity |]. cbn. auto.
Qed.

(** The idle agent A1 takes the job J5 and counts it; after the run the
    count is 0 again. *)
Lemma agent_counts_its_jobs_witness :
  snd (handleJobAssigned (fun s => s) sample.aClient (received sample.frameJ5))
    = true /\
  forall c2 reports,
    processJob (fun s => s) (fun _ => [])
      (fst (fst (handleJobAssigned (fun s => s) sample.aClient
                   (received sample.frameJ5))))
      (received sample.frameJ5) sample.goodRun = Some (c2, reports) ->
    runningJobs c2 = 0%Z /\ maxConcurrency c2 = 1%Z /\ paused c2 = false.
Proof.
  pose proof (agent_counts_its_jobs (fun s => s) (fun _ => []) sample.aClient
                (received sample.frameJ5) sample.goodRun
                ltac:(cbn; lia) ltac:(cbn; lia)) as (_ & H & _).
  split; [reflexivity |].
  apply (H eq_refl).
Defined.

Lemma getCachedInputFile_hit
    (downloadInputToFile' : string -> string -> string -> string + string)
    (downloadInputToCacheFile : string -> string -> string + string)
    (now : Z) (url inputKey : string) (c : InputCache) (entry : cachedInput) :
  (0 < inputCacheTTL c)%Z -> inputCache c !! url = Some entry ->
  (now < expiresAt entry)%Z ->
  getCachedInputFile downloadInputToFile' downloadInputToCacheFile now url
    inputKey c
  = (inl (path entry, cleanupNothing), c, [], 0%nat).
Proof.
  intros Httl He Hfresh. unfold getCachedInputFile.
  destruct (Z.leb_spec (inputCacheTTL c) 0); [lia |].
  rewrite He. destruct (Z.ltb_spec now (expiresAt entry)); [reflexivity | lia].
Qed.

(** X28: the cache of downloaded inputs.  With a TTL of zero or less the
    cache is never read or written: every call downloads, and the caller
    gets the cleanup that removes the file.  With a positive TTL: an entry
    that has not expired is returned without a download and without any
    change; an expired entry is evicted and its file removed before the
    download, so that a failed download leaves the URL uncached; for a URL
    without an entry the file is downloaded, no file is removed, and a
    failed download leaves the cache as it was; in both cases a successful
    download is cached until [now + ttl].  No call touches the
    entry of another URL.  After any successful call with a positive TTL the
    URL is cached under the returned file, and a call before the entry's
    expiry returns that same file with no download. *)
Theorem input_cache_hits_and_misses
    (downloadInputToFile' : string -> string -> string -> string + string)
    (downloadInputToCacheFile : string -> string -> string + string)
    (now : Z) (url inputKey : string) (c : InputCache) :
  ((inputCacheTTL c <= 0)%Z ->
   getCachedInputFile downloadInputToFile' downloadInputToCacheFile now url
     inputKey c
   = (match downloadInputToFile' url "forward" inputKey with
      | inl tmpFile => inl (tmpFile, cleanupRemove tmpFile)
      | inr err => inr err
      end, c, [], 1%nat)) /\
  (forall entry,
     (0 < inputCacheTTL c)%Z -> inputCache c !! url = Some entry ->
     (now < expiresAt entry)%Z ->
     getCachedInputFile downloadInputToFile' downloadInputToCacheFile now url
       inputKey c
     = (inl (path entry, cleanupNothing), c, [], 0%nat)) /\
  (forall entry,
     (0 < inputCacheTTL c)%Z -> inputCache c !! url = Some entry ->
     (expiresAt entry <= now)%Z ->
     getCachedInputFile downloadInputToFile' downloadInputToCacheFile now url
       inputKey c
     = match downloadInputToCacheFile url inputKey with
       | inl cachePath =>
           (inl (cachePath, cleanupNothing),
            mkInputCache (inputCacheTTL c)
              (<[url := mkCachedInput cachePath (now + inputCacheTTL c)]>
                 (inputCache c)),
            [path entry], 1%nat)
       | inr err =>
           (inr err, mkInputCache (inputCacheTTL c) (delete url (inputCache c)),
            [path entry], 1%nat)
       end) /\
  ((0 < inputCacheTTL c)%Z -> inputCache c !! url = None ->
   getCachedInputFile downloadInputToFile' downloadInputToCacheFile now url
     inputKey c
   = match downloadInputToCacheFile url inputKey with
     | inl cachePath =>
         (inl (cachePath, cleanupNothing),
          mkInputCache (inputCacheTTL c)
            (<[url := mkCachedInput cachePath (now + inputCacheTTL c)]>
               (inputCache c)),
          [], 1%nat)
     | inr err => (inr err, c, [], 1%nat)
     end) /\
  (forall other, other <> url ->
     inputCache (snd (fst (fst (getCachedInputFile downloadInputToFile'
                                  downloadInputToCacheFile now url inputKey c))))
       !! other = inputCache c !! other) /\
  (forall file how c' removed n now',
     (0 < inputCacheTTL c)%Z ->
     getCachedInputFile downloadInputToFile' downloadInputToCacheFile now url
       inputKey c = (inl (file, how), c', removed, n) ->
     exists entry,
       inputCache c' !! url = Some entry /\ path entry = file /\
       (now < expiresAt entry)%Z /\ how = cleanupNothing /\
       ((now' < expiresAt entry)%Z ->
        getCachedInputFile downloadInputToFile' downloadInputToCacheFile now' url
          inputKey c' = (inl (file, cleanupNothing), c', [], 0%nat))).
Proof.
  split; [| split; [| split; [| split; [| split]]]].
  - intros Httl. unfold getCachedInputFile.
    destruct (Z.leb_spec (inputCacheTTL c) 0); [| lia].
    destruct (downloadInputToFile' url "forward" inputKey); reflexivity.
  - intros entry. apply getCachedInputFile_hit.
  - intros entry Httl He Hexp. unfold getCachedInputFile.
    destruct (Z.leb_spec (inputCacheTTL c) 0); [lia |].
    rewrite He. destruct (Z.ltb_spec now (expiresAt entry)); [lia |].
    cbn [inputCacheTTL inputCache].
    destruct (downloadInputToCacheFile url inputKey); [| reflexivity].
    rewrite insert_delete_eq. reflexivity.
  - intros Httl He. unfold getCachedInputFile.
    destruct (Z.leb_spec (inputCacheTTL c) 0); [lia |].
    rewrite He. destruct (downloadInputToCacheFile url inputKey); reflexivity.
  - intros other Hne. unfold getCachedInputFile.
    destruct (inputCacheTTL c <=? 0)%Z.
    { destruct (downloadInputToFile' url "forward" inputKey); reflexivity. }
    destruct (inputCache c !! url) as [entry |].
    + destruct (now <? expiresAt entry)%Z; [reflexivity |].
      destruct (downloadInputToCacheFile url inputKey); cbn [fst snd inputCache].
      * rewrite lookup_insert_ne, lookup_delete_ne by congruence. reflexivity.
      * rewrite lookup_delete_ne by congruence. reflexivity.
    + destruct (downloadInputToCacheFile url inputKey); cbn [fst snd inputCache];
        [| reflexivity].
      rewrite lookup_insert_ne by congruence. reflexivity.
  - intros file how c' removed n now' Httl. unfold getCachedInputFile at 1.
    destruct (Z.leb_spec (inputCacheTTL c) 0); [lia |].
    destruct (inputCache c !! url) as [entry |] eqn:He.
    + destruct (Z.ltb_spec now (expiresAt entry)).
      * intros [= <- <- <- _ _]. exists entry.
        repeat split; try assumption.
        intros Hf. apply getCachedInputFile_hit; assumption.
      * cbn [inputCacheTTL inputCache].
        destruct (downloadInputToCacheFile url inputKey) as [cachePath | err];
          [| discriminate].
        intros [= <- <- <- _ _]. eexists.
        split; [apply lookup_insert_eq |]. cbn [path expiresAt].
        split; [reflexivity |]. split; [lia |]. split; [reflexivity |].
        intros Hf.
        apply (getCachedInputFile_hit _ _ _ _ _ _
                 (mkCachedInput cachePath (now + inputCacheTTL c)));
          [assumption | apply lookup_insert_eq | exact Hf].
    + destruct (downloadInputToCacheFile url inputKey) as [cachePath | err];
        [| discriminate].
      intros [= <- <- <- _ _]. eexists.
      split; [apply lookup_insert_eq |]. cbn [path expiresAt].
      split; [reflexivity |]. split; [lia |]. split; [reflexivity |].
      intros Hf.
      apply (getCachedInputFile_hit _ _ _ _ _ _
               (mkCachedInput cachePath (now + inputCacheTTL c)));
        [assumption | apply lookup_insert_eq | exact Hf].
Qed.

Lemma length_append (a b : string) :
  String.length (a +:+ b) = (String.length a + String.length b)%nat.
Proof.
  induction a as [| ch a IH]; [reflexivity |].
  change (String ch a +:+ b) with (String ch (a +:+ b)).
  cbn [String.length]. rewrite IH. reflexivity.
Qed.

Lemma substring_append_prefix (n : nat) :
  forall a b : string,
    (n <= String.length a)%nat ->
    String.substring 0 n (a +:+ b) = String.substring 0 n a.
Proof.
  induction n as [| n IH]; intros a b Hn.
  - destruct a; destruct b; reflexivity.
  - destruct a as [| ch a]; cbn [String.length] in Hn; [lia |].
    change (String ch a +:+ b) with (String ch (a +:+ b)).
    cbn [String.substring]. rewrite IH by lia. reflexivity.
Qed.

Lemma substring_idempotent (n : nat) (s : string) :
  (n <= String.length s)%nat ->
  String.substring 0 n (String.substring 0 n s) = String.substring 0 n s.
Proof.
  intros Hn. destruct (substring_split n s Hn) as [Hl _].
  rewrite <- Hl at 1. apply substring_all.
Qed.

(** X29: [truncateString] for any bound.  A negative bound makes the call
    panic, whatever the string.  For a bound [maxLen >= 0] the result is the
    string itself when it has at most [maxLen] bytes, and otherwise has
    exactly [maxLen + 15] bytes and the same first [maxLen] bytes as the
    string; and truncating the result again with the same bound changes
    nothing. *)
Theorem truncateString_any_bound (s : string) (maxLen : Z) :
  ((maxLen < 0)%Z -> truncateString s maxLen = None) /\
  ((0 <= maxLen)%Z ->
   exists t,
     truncateString s maxLen = Some t /\
     ((Z.of_nat (String.length s) <= maxLen)%Z -> t = s) /\
     ((maxLen < Z.of_nat (String.length s))%Z ->
      Z.of_nat (String.length t) = (maxLen + 15)%Z /\
      String.substring 0 (Z.to_nat maxLen) t
        = String.substring 0 (Z.to_nat maxLen) s) /\
     truncateString t maxLen = Some t).
Proof.
  split.
  - intros Hneg. unfold truncateString.
    destruct (Z.leb_spec (Z.of_nat (String.length s)) maxLen); [lia |].
    destruct (Z.ltb_spec maxLen 0); [reflexivity | lia].
  - intros Hpos. unfold truncateString at 1.
    destruct (Z.leb_spec (Z.of_nat (String.length s)) maxLen) as [Hle | Hgt].
    + exists s. split; [reflexivity |]. split; [reflexivity |].
      split; [lia |]. unfold truncateString.
      destruct (Z.leb_spec (Z.of_nat (String.length s)) maxLen); [reflexivity | lia].
    + destruct (Z.ltb_spec maxLen 0); [lia |].
      destruct (substring_split (Z.to_nat maxLen) s ltac:(lia)) as [Hl _].
      eexists. split; [reflexivity |]. split; [lia |].
      assert (Hlen : Z.of_nat (String.length
                (String.substring 0 (Z.to_nat maxLen) s +:+ "... (truncated)"))
              = (maxLen + 15)%Z).
      { rewrite length_append, Hl. cbn [String.length]. lia. }
      assert (Hpre : String.substring 0 (Z.to_nat maxLen)
                (String.substring 0 (Z.to_nat maxLen) s +:+ "... (truncated)")
              = String.substring 0 (Z.to_nat maxLen) s).
      { rewrite substring_append_prefix by lia.
        apply substring_idempotent. lia. }
      split; [intros _; split; [exact Hlen | exact Hpre] |].
      unfold truncateString. rewrite Hlen.
      destruct (Z.leb_spec (maxLen + 15) maxLen); [lia |].
      destruct (Z.ltb_spec maxLen 0); [lia |].
      rewrite Hpre. reflexivity.
Qed.

Lemma busy_timer_step (b : Z) (sendOk : bool) :
  (minBackoff <= b <= maxBackoff)%Z ->
  iteration b (timeAfter false sendOk) = Some (Z.min (2 * b) maxBackoff).
Proof.
  intros Hb. cbn [iteration negb]. rewrite min_is_Zmin.
  unfold minBackoff, maxBackoff, Second, Millisecond in *.
  rewrite int64_small by lia. f_equal. lia.
Qed.

Lemma busy_timer_run (k : nat) :
  forall b sendOk,
    (minBackoff <= b <= maxBackoff)%Z ->
    jobRequestLoop_from b (repeat (timeAfter false sendOk) k)
      = Z.min (2 ^ Z.of_nat k * b) maxBackoff.
Proof.
  induction k as [| k IH]; intros b sendOk Hb.
  - cbn [repeat jobRequestLoop_from]. change (2 ^ Z.of_nat 0)%Z with 1%Z.
    unfold minBackoff, maxBackoff, Second, Millisecond in *. lia.
  - cbn [repeat jobRequestLoop_from]. rewrite (busy_timer_step _ _ Hb).
    rewrite IH
      by (unfold minBackoff, maxBackoff, Second, Millisecond in *; lia).
    rewrite Nat2Z.inj_succ, Z.pow_succ_r by lia.
    assert (Hp : (0 < 2 ^ Z.of_nat k)%Z) by (apply Z.pow_pos_nonneg; lia).
    unfold minBackoff, maxBackoff, Second, Millisecond in *.
    destruct (Z.min_spec (2 * b) (30 * (1000 * 1000000))) as [[H1 ->] | [H1 ->]].
    + f_equal. lia.
    + rewrite !Z.min_r; [reflexivity | nia | nia].
Qed.

(** The pull loop of an agent that stays busy.  After [k] timer
    wake-ups in a row on which the agent cannot accept a job, counted from
    the start of the loop, the backoff is 500 ms times 2 to the [k], capped
    at 30 s: 1 s, 2 s, 4 s, 8 s, 16 s, and 30 s from the sixth wake-up on.
    A stop in between ends the loop: later wake-ups change nothing. *)
Lemma backoff_of_a_busy_agent (k : nat) (sendOk : bool) (later : list Wakeup) :
  jobRequestLoop (repeat (timeAfter false sendOk) k)
    = Z.min (2 ^ Z.of_nat k * (500 * Millisecond)) (30 * Second) /\
  ((6 <= k)%nat ->
   jobRequestLoop (repeat (timeAfter false sendOk) k) = (30 * Second)%Z) /\
  jobRequestLoop (repeat (timeAfter false sendOk) k ++ stopChan :: later)%list
    = jobRequestLoop (repeat (timeAfter false sendOk) k).
Proof.
  assert (Hinit : (minBackoff <= initialBackoff <= maxBackoff)%Z)
    by (unfold initialBackoff, minBackoff, maxBackoff, Second, Millisecond; lia).
  split; [| split].
  - unfold jobRequestLoop. rewrite (busy_timer_run k _ _ Hinit). reflexivity.
  - intros Hk. unfold jobRequestLoop. rewrite (busy_timer_run k _ _ Hinit).
    assert (Hp : (2 ^ 6 <= 2 ^ Z.of_nat k)%Z)
      by (apply Z.pow_le_mono_r; lia).
    unfold initialBackoff, maxBackoff, Second, Millisecond. lia.
  - unfold jobRequestLoop. generalize initialBackoff as b.
    induction k as [| k IH]; intros b.
    + reflexivity.
    + cbn [repeat app jobRequestLoop_from].
      destruct (iteration b (timeAfter false sendOk)); [apply IH | reflexivity].
Qed.

(* ===================================================================== *)
(** * The agent and the gateway together *)
(* ===================================================================== *)

Lemma failed_report_applied (env : Env) (g : Gateway) (agentID jobID : string)
    (j : Job) (status : JobStatus) :
  rows (jobStore g) !! jobID = Some j ->
  Status j = StatusRunning ->
  faults (jobStore g) = [] ->
  rows (jobStore (applyStatus env g agentID jobID j status StatusFailed)) !! jobID
    = Some (with_Status StatusFailed
              (with_StdoutStderr (JobStatus_Stdout status) (JobStatus_Stderr status) j)) /\
  registry (applyStatus env g agentID jobID j status StatusFailed)
    = registry (releaseCapacity env agentID g).
Proof.
  intros Hj Hs Hf. unfold applyStatus. decide_eqb.
  unfold UpdateStdoutStderr. rewrite (Exec_UPDATE_fault_free _ _ _ Hf). cbn [snd].
  rewrite (updateStatusThenRelease_fault_free env _ jobID StatusFailed _
             (with_StdoutStderr (JobStatus_Stdout status) (JobStatus_Stderr status) j))
    by (cbn [rows jobStore setStore faults Status with_StdoutStderr];
        rewrite ?lookup_alter_eq, ?Hj, ?Hs; reflexivity).
  rewrite releaseCapacity_store. cbn [jobStore setStore rows].
  split; [apply lookup_insert_eq |].
  rewrite !releaseCapacity_registry. reflexivity.
Qed.

Lemma int32_small (n : Z) : (- 2 ^ 31 <= n < 2 ^ 31)%Z -> int32 n = n.
Proof.
  intros H. unfold int32.
  replace ((n + 2 ^ 31) mod 2 ^ 32)%Z with (n + 2 ^ 31)%Z; [lia |].
  symmetry. apply Z.mod_small. lia.
Qed.

(** X30: what the agent reports is what the gateway records.  Let the
    PENDING job at the head of the queue have an [attempt_id] from 1 to
    2^31 - 1, so that the [int32] of the frame carries it unchanged, let its
    dispatch go through without a fault, let the agent run the job from the
    frame it was sent, and let its two reports reach the gateway in order,
    the second less than 60 seconds after the dispatch.  Then, whatever the download, the command
    and the upload did on the agent: the job's row is terminal with exactly
    the status, stdout and stderr of the agent's last report, SUCCEEDED or
    FAILED (the gateway's check of the output key never turns the agent's
    SUCCEEDED into FAILED); the row keeps the agent and the output key of
    the dispatch; and the gateway counts as many running jobs for the agent
    as before the dispatch. *)
Theorem agent_reports_are_recorded (sanitizeUTF8 : string -> string)
    (processForwardJob : Assigned -> list JobStatus)
    (env env2 env3 : Env) (g : Gateway)
    (agentConn : AgentConnection) (envelope envelope2 envelope3 : Envelope)
    (req : RequestJob) (info : registry.AgentInfo) (jobID : string)
    (rest : list string) (j : Job)
    (inURL outURL outputPrefix outputKey : string) (m : JobAssignedEnvelope)
    (c : Client) (run : Run) :
  RequestJob_AgentId req = "" \/ RequestJob_AgentId req = AgentId envelope ->
  AgentId envelope <> "" ->
  registry.GetAgent (now env) (AgentId envelope) (registry g) = Some info ->
  registry.Paused info = false ->
  (0 <= registry.RunningJobs info < registry.MaxConcurrency info)%Z ->
  jobQueue g = Some (jobID :: rest) ->
  rows (jobStore g) !! jobID = Some j ->
  Status j = StatusPending ->
  (1 <= AttemptID j < 2 ^ 31)%Z ->
  faults (jobStore g) = [] ->
  outputPrefix = "jobs/" +:+ jobID +:+ "/" +:+ pretty (AttemptID j) +:+ "/" ->
  outputKey = outputPrefix +:+ "output." +:+ outputExtensionOf j ->
  GenerateDownloadURL env (InputKey j) = Some inURL ->
  GenerateUploadURL env outputKey = Some outURL ->
  m = mkJobAssignedEnvelope (RequestId envelope) (now env / 1000000)
        (mkJobAssigned jobID (int32 (AttemptID j)) (NewUUID env) 60 inURL
           (InputKey j) outURL outputPrefix outputKey (Command j)) ->
  Marshal_ok env m = true ->
  jobID <> "" ->
  AgentID agentConn = AgentId envelope ->
  AgentId envelope2 = AgentId envelope ->
  AgentId envelope3 = AgentId envelope ->
  (now env3 - now env < 60 * registry.Second)%Z ->
  exists c2 running final j3,
    processJob sanitizeUTF8 processForwardJob c (received (Out_JobAssigned m)) run
      = Some (c2, [running; final]) /\
    rows (jobStore
            (handleJobStatus env3
               (handleJobStatus env2
                  (fst (handleRequestJob env g agentConn envelope req))
                  agentConn envelope2 running)
               agentConn envelope3 final)) !! jobID = Some j3 /\
    Status j3 = jobStatusFromProto (JobStatus_Status final) /\
    (Status j3 = StatusSucceeded \/ Status j3 = StatusFailed) /\
    job.Stdout j3 = JobStatus_Stdout final /\
    job.Stderr j3 = JobStatus_Stderr final /\
    AssignedAgentID j3 = AgentId envelope /\
    OutputKey j3 = outputKey /\
    registry
      (handleJobStatus env3
         (handleJobStatus env2
            (fst (handleRequestJob env g agentConn envelope req))
            agentConn envelope2 running)
         agentConn envelope3 final) !! AgentId envelope
      = Some (registry.mkAgentInfo (registry.AgentID info) (registry.Hostname info)
                (registry.MaxConcurrency info) false (registry.RunningJobs info)
                (now env3) (registry.ConnectedAt info)).
Proof.
  intros Hreq Hid HG Hp Hcap Hq Hj Hs Hatt Hf Hpre Hkey Hin Hout Hm HM
         Hjid Hconn He2 He3 Hlate.
  rewrite (handleRequestJob_to_commit env g agentConn envelope req info jobID rest
             j Hreq Hid HG Hp ltac:(lia) Hq Hj Hs ltac:(lia)).
  rewrite (commitAssignment_fault_free env (setQueue rest g) agentConn envelope
             (AgentId envelope) info jobID j (AttemptID j) inURL outURL
             outputPrefix outputKey m Hj Hs Hf Hpre Hkey Hin Hout Hm HM).
  rewrite Hp. cbn [fst setQueue registry jobStore jobQueue].
  set (j1 := with_Output outputKey outputPrefix
               (with_Status StatusAssigned
                  (with_Assignment (AgentId envelope) (NewUUID env) None j))).
  set (reg1 := registry.UpdateHeartbeat (now env) (AgentId envelope) false
                 (registry.RunningJobs info + 1) (registry g)).
  set (g1 := mkGateway reg1 (mkStore (<[jobID := j1]> (rows (jobStore g))) [])
               (Some rest)).
  assert (Hj1 : rows (jobStore g1) !! jobID = Some j1) by apply lookup_insert_eq.
  (* the agent's two reports *)
  destruct (processJob_outcome sanitizeUTF8 processForwardJob c
              (received (Out_JobAssigned m)) run)
    as (final & Hrun & Hfid & Hfatt & Hfinal); [discriminate |].
  rewrite Hrun.
  assert (Hmid : Assigned_JobId (received (Out_JobAssigned m)) = jobID)
    by (rewrite Hm; reflexivity).
  assert (Hmatt : int32 (Assigned_AttemptId (received (Out_JobAssigned m)))
                  = AttemptID j).
  { rewrite Hm. cbn. rewrite !int32_small; [reflexivity | lia |].
    rewrite int32_small; lia. }
  assert (Hmkey : Assigned_OutputKey (received (Out_JobAssigned m)) = outputKey)
    by (rewrite Hm; reflexivity).
  rewrite Hmid, Hmatt in *. rewrite Hmkey in Hfinal.
  set (running := reportJobStatus sanitizeUTF8 jobID
                    (Assigned_AttemptId (received (Out_JobAssigned m)))
                    JobStatusEnum_JOB_STATUS_RUNNING "Processing job" "").
  eexists _, running, final.
  (* the RUNNING report *)
  rewrite (handleJobStatus_delivered env2 g1 agentConn envelope2 running j1).
  2:{ unfold fromAssignedAgent. rewrite He2.
      repeat split; first [assumption | reflexivity | exact Hmatt]. }
  2:{ reflexivity. }
  2:{ reflexivity. }
  rewrite He2.
  change (jobStatusFromProto (JobStatus_Status running)) with StatusRunning.
  change (JobStatus_JobId running) with jobID.
  rewrite (running_report_applied env2 g1 (AgentId envelope) jobID j1 running Hj1
             eq_refl eq_refl).
  set (j2 := with_Status StatusRunning
               (if negb (JobStatus_Stdout running =? "") ||
                   negb (JobStatus_Stderr running =? "")
                then with_StdoutStderr (JobStatus_Stdout running)
                       (JobStatus_Stderr running) j1
                else j1)).
  set (g2 := setStore (mkStore (<[jobID := j2]> (rows (jobStore g1))) []) g1).
  assert (Hj2 : rows (jobStore g2) !! jobID = Some j2) by apply lookup_insert_eq.
  assert (Hk2 : OutputKey j2 = outputKey /\ AssignedAgentID j2 = AgentId envelope /\
                AttemptID j2 = AttemptID j /\ Status j2 = StatusRunning).
  { unfold j2. destruct (_ || _); repeat split; reflexivity. }
  destruct Hk2 as (Hk2 & Ha2 & Hat2 & Hs2).
  (* the final report *)
  rewrite (handleJobStatus_delivered env3 g2 agentConn envelope3 final j2).
  2:{ unfold fromAssignedAgent. rewrite He3, Hfid, Hfatt, Ha2, Hat2.
      repeat split; assumption. }
  2:{ rewrite Hs2. reflexivity. }
  2:{ rewrite Hs2. reflexivity. }
  rewrite He3, Hfid.
  assert (Hrelease :
    registry (releaseCapacity env3 (AgentId envelope) g2) !! AgentId envelope
      = Some (registry.mkAgentInfo (registry.AgentID info) (registry.Hostname info)
                (registry.MaxConcurrency info) false (registry.RunningJobs info)
                (now env3) (registry.ConnectedAt info))).
  { assert (Ha : registry g !! AgentId envelope = Some info)
      by apply (GetAgent_present _ _ _ _ HG).
    assert (Hreg1 : reg1 !! AgentId envelope
                    = Some (registry.mkAgentInfo (registry.AgentID info)
                              (registry.Hostname info) (registry.MaxConcurrency info)
                              false (registry.RunningJobs info + 1) (now env)
                              (registry.ConnectedAt info))).
    { unfold reg1, registry.UpdateHeartbeat. rewrite Ha. apply lookup_insert_eq. }
    destruct (releaseCapacity_effect env3 (AgentId envelope) g2) as [Hrel _].
    rewrite (Hrel (registry.mkAgentInfo (registry.AgentID info)
                     (registry.Hostname info) (registry.MaxConcurrency info)
                     false (registry.RunningJobs info + 1) (now env)
                     (registry.ConnectedAt info))).
    + rewrite lookup_insert_eq. cbn. f_equal. f_equal. lia.
    + unfold registry.GetAgent. cbn [registry g2 setStore g1]. rewrite Hreg1.
      cbn [registry.LastHeartbeat].
      destruct (Z.geb_spec (now env3 - now env) (60 * registry.Second));
        [lia | reflexivity].
    + cbn. lia. }
  destruct Hfinal as [[Hst Hkey0] | (Hst & _ & _ & Hkey0)]; rewrite Hst.
  - change (jobStatusFromProto JobStatusEnum_JOB_STATUS_FAILED) with StatusFailed.
    destruct (failed_report_applied env3 g2 (AgentId envelope) jobID j2 final
                Hj2 Hs2 eq_refl) as [Hrow Hreg].
    eexists. split; [reflexivity |]. split; [exact Hrow |].
    rewrite Hreg. cbn [Status with_Status with_StdoutStderr job.Stdout job.Stderr
                       AssignedAgentID OutputKey].
    repeat split; auto.
  - change (jobStatusFromProto JobStatusEnum_JOB_STATUS_SUCCEEDED)
      with StatusSucceeded.
    destruct (succeeded_report_applied env3 g2 (AgentId envelope) jobID j2 final
                Hj2 Hs2 eq_refl) as [Hrow Hreg].
    eexists. split; [reflexivity |]. split; [exact Hrow |].
    rewrite Hreg, Hk2.
    replace (negb (JobStatus_OutputKey final =? "") &&
             negb (JobStatus_OutputKey final =? outputKey)) with false.
    2:{ destruct Hkey0 as [-> | [-> _]]; [reflexivity |].
        rewrite String.eqb_refl. cbn [negb]. symmetry. apply andb_false_r. }
    cbn [Status with_Status with_StdoutStderr job.Stdout job.Stderr
         AssignedAgentID OutputKey].
    repeat split; auto.
Qed.

(** The job J5 is dispatched to the idle agent A1, whose command prints
    "done" and writes an output file that is uploaded: the gateway ends with
    J5 SUCCEEDED and A1 idle. *)
Lemma agent_reports_are_recorded_witness :
  exists c2 running final j3,
    processJob (fun s => s) (fun _ => []) sample.aClient
      (received sample.frameJ5) sample.goodRun
      = Some (c2, [running; final]) /\
    rows (jobStore
            (handleJobStatus (sample.anEnv true true)
               (handleJobStatus (sample.anEnv true true)
                  (fst (handleRequestJob (sample.anEnv true true)
                          (sample.gPending []) (sample.connOf "A1")
                          (sample.headerOf "A1") (mkRequestJob "A1")))
                  (sample.connOf "A1") (sample.headerOf "A1") running)
               (sample.connOf "A1") (sample.headerOf "A1") final)) !! "J5"
      = Some j3 /\
    Status j3 = jobStatusFromProto (JobStatus_Status final) /\
    (Status j3 = StatusSucceeded \/ Status j3 = StatusFailed) /\
    job.Stdout j3 = JobStatus_Stdout final /\
    job.Stderr j3 = JobStatus_Stderr final /\
    AssignedAgentID j3 = "A1" /\
    OutputKey j3 = "jobs/J5/1/output.bin" /\
    registry
      (handleJobStatus (sample.anEnv true true)
         (handleJobStatus (sample.anEnv true true)
            (fst (handleRequestJob (sample.anEnv true true)
                    (sample.gPending []) (sample.connOf "A1")
                    (sample.headerOf "A1") (mkRequestJob "A1")))
            (sample.connOf "A1") (sample.headerOf "A1") running)
         (sample.connOf "A1") (sample.headerOf "A1") final) !! "A1"
      = Some (registry.mkAgentInfo "A1" "lab-pc" 1 false 0 1000000000 0).
Proof.
  apply (agent_reports_are_recorded (fun s => s) (fun _ => [])
           (sample.anEnv true true) (sample.anEnv true true)
           (sample.anEnv true true) (sample.gPending [])
           (sample.connOf "A1") (sample.headerOf "A1") (sample.headerOf "A1")
           (sample.headerOf "A1") (mkRequestJob "A1")
           (sample.anAgent "A1" 1 0) "J5" [] (sample.aJob "J5" "PENDING" "")
           "https://oss/get/" "https://oss/put/jobs/J5/1/output.bin"
           "jobs/J5/1/" "jobs/J5/1/output.bin"
           (mkJobAssignedEnvelope "req-1" 1000 sample.frameJ5)
           sample.aClient sample.goodRun);
    try reflexivity; try discriminate; try (cbn; lia).
  right. reflexivity.
Defined.

(** ** The agent: what a report carries of the captured output *)

Section utf8_facts.

Import utf8.

Lemma byteOf_charOf (b : Z) : (0 <= b < 256)%Z -> byteOf (charOf b) = b.
Proof.
  intros H. unfold byteOf, charOf. rewrite N_ascii_embedding by lia. lia.
Qed.

Lemma below_by_cases (P : Z -> Prop) (n : nat) :
  (forall k, (k < n)%nat -> P (Z.of_nat k)) ->
  forall z, (0 <= z < Z.of_nat n)%Z -> P z.
Proof.
  intros H z Hz. rewrite <- (Z2Nat.id z) by lia. apply H. lia.
Qed.

Lemma lor_low (hi : Z) (n : nat) :
  forallb (fun k => Z.lor hi (Z.of_nat k) =? hi + Z.of_nat k)%Z (seq 0 n) = true ->
  forall y, (0 <= y < Z.of_nat n)%Z -> Z.lor hi y = (hi + y)%Z.
Proof.
  intros Hall. apply below_by_cases. intros k Hk.
  rewrite forallb_forall in Hall. apply Z.eqb_eq, Hall, in_seq. lia.
Qed.

Lemma lor_tx (y : Z) : (0 <= y < 64)%Z -> Z.lor tx y = (0x80 + y)%Z.
Proof. apply (lor_low tx 64). vm_compute. reflexivity. Qed.

Lemma lor_t2 (y : Z) : (0 <= y < 32)%Z -> Z.lor t2 y = (0xC0 + y)%Z.
Proof. apply (lor_low t2 32). vm_compute. reflexivity. Qed.

Lemma lor_t3 (y : Z) : (0 <= y < 16)%Z -> Z.lor t3 y = (0xE0 + y)%Z.
Proof. apply (lor_low t3 16). vm_compute. reflexivity. Qed.

Lemma lor_t4 (y : Z) : (0 <= y < 8)%Z -> Z.lor t4 y = (0xF0 + y)%Z.
Proof. apply (lor_low t4 8). vm_compute. reflexivity. Qed.

Lemma low6 (x : Z) : Z.land (byte x) maskx = (x mod 64)%Z.
Proof.
  unfold byte. change maskx with (Z.ones 6). rewrite Z.land_ones by lia.
  change (2 ^ 8)%Z with 256%Z. change (2 ^ 6)%Z with 64%Z.
  Z.div_mod_to_equations. lia.
Qed.

Lemma trailing (x : Z) : cont (Z.lor tx (Z.land (byte x) maskx)).
Proof.
  rewrite low6. pose proof (Z.mod_pos_bound x 64 ltac:(lia)).
  rewrite lor_tx by lia. unfold cont. lia.
Qed.

Lemma AppendRune_wellFormed (r : Z) :
  (0 <= r < 2 ^ 31)%Z ->
  exists bs, AppendRune r = bytes bs /\ wellFormed bs /\
             Forall (fun b => 0 <= b < 256)%Z bs.
Proof.
  intros Hr. unfold AppendRune, uint32.
  rewrite (Z.mod_small r (2 ^ 32)) by lia.
  unfold rune1Max, rune2Max, rune3Max, MaxRune, surrogateMin, surrogateMax.
  destruct (Z.leb_spec r (2 ^ 7 - 1)).
  { eexists. split; [reflexivity |]. unfold byte. rewrite Z.mod_small by lia.
    split; [cbn; lia |]. repeat (apply List.Forall_cons; [lia |]).
    apply List.Forall_nil. }
  destruct (Z.leb_spec r (2 ^ 11 - 1)).
  { eexists. split; [reflexivity |].
    pose proof (trailing r) as Ht. unfold cont in Ht.
    assert (Hb0 : Z.lor t2 (byte (Z.shiftr r 6)) = (0xC0 + r / 64)%Z).
    { rewrite Z.shiftr_div_pow2 by lia. unfold byte.
      change (2 ^ 6)%Z with 64%Z. change (2 ^ 8)%Z with 256%Z.
      assert (Hq : (0 <= r / 64 < 32)%Z) by (Z.div_mod_to_equations; lia).
      rewrite (Z.mod_small (r / 64) 256) by lia. apply lor_t2. lia. }
    rewrite Hb0.
    assert (Hq : (2 <= r / 64 < 32)%Z) by (Z.div_mod_to_equations; lia).
    split; [cbn; unfold cont; lia |].
    repeat (apply List.Forall_cons; [lia |]). apply List.Forall_nil. }
  assert (Hthree : forall x, (0x800 <= x <= 0xFFFF)%Z ->
            (x < 0xD800 \/ 0xDFFF < x)%Z ->
            exists bs,
              bytes [Z.lor t3 (byte (Z.shiftr x 12));
                     Z.lor tx (Z.land (byte (Z.shiftr x 6)) maskx);
                     Z.lor tx (Z.land (byte x) maskx)] = bytes bs /\
              wellFormed bs /\ Forall (fun b => 0 <= b < 256)%Z bs).
  { intros x Hx Hs. eexists. split; [reflexivity |].
    pose proof (trailing x) as Ht. unfold cont in Ht.
    assert (Hb1 : Z.lor tx (Z.land (byte (Z.shiftr x 6)) maskx)
                  = (0x80 + (x / 64) mod 64)%Z).
    { rewrite low6, Z.shiftr_div_pow2 by lia. change (2 ^ 6)%Z with 64%Z.
      apply lor_tx. apply Z.mod_pos_bound. lia. }
    assert (Hb0 : Z.lor t3 (byte (Z.shiftr x 12)) = (0xE0 + x / 4096)%Z).
    { rewrite Z.shiftr_div_pow2 by lia. unfold byte.
      change (2 ^ 12)%Z with 4096%Z. change (2 ^ 8)%Z with 256%Z.
      assert (Hq : (0 <= x / 4096 < 16)%Z) by (Z.div_mod_to_equations; lia).
      rewrite (Z.mod_small (x / 4096) 256) by lia. apply lor_t3. lia. }
    rewrite Hb0, Hb1.
    assert (Hq : (0 <= x / 4096 < 16)%Z) by (Z.div_mod_to_equations; lia).
    pose proof (Z.mod_pos_bound (x / 64) 64 ltac:(lia)) as Hm.
    split.
    - cbn. unfold cont. split; [| lia]. Z.div_mod_to_equations. lia.
    - repeat (apply List.Forall_cons; [lia |]). apply List.Forall_nil. }
  destruct ((r >? 1114111)%Z || ((55296 <=? r)%Z && (r <=? 57343)%Z)) eqn:Hbad.
  { apply (Hthree RuneError); unfold RuneError; lia. }
  apply orb_false_elim in Hbad. destruct Hbad as [Hmax Hsur].
  assert (Hmax' : (r <= 1114111)%Z) by lia.
  assert (Hsur' : (r < 55296 \/ 57343 < r)%Z).
  { apply andb_false_elim in Hsur. destruct Hsur; lia. }
  destruct (Z.leb_spec r (2 ^ 16 - 1)).
  { apply Hthree; lia. }
  eexists. split; [reflexivity |].
  pose proof (trailing r) as Ht. unfold cont in Ht.
  pose proof (trailing (Z.shiftr r 6)) as Ht1. unfold cont in Ht1.
  assert (Hb1 : Z.lor tx (Z.land (byte (Z.shiftr r 12)) maskx)
                = (0x80 + (r / 4096) mod 64)%Z).
  { rewrite low6, Z.shiftr_div_pow2 by lia. change (2 ^ 12)%Z with 4096%Z.
    apply lor_tx. apply Z.mod_pos_bound. lia. }
  assert (Hb0 : Z.lor t4 (byte (Z.shiftr r 18)) = (0xF0 + r / 262144)%Z).
  { rewrite Z.shiftr_div_pow2 by lia. unfold byte.
    change (2 ^ 18)%Z with 262144%Z. change (2 ^ 8)%Z with 256%Z.
    assert (Hq : (0 <= r / 262144 < 5)%Z) by (Z.div_mod_to_equations; lia).
    rewrite (Z.mod_small (r / 262144) 256) by lia. apply lor_t4. lia. }
  rewrite Hb0, Hb1.
  assert (Hq : (0 <= r / 262144 < 5)%Z) by (Z.div_mod_to_equations; lia).
  pose proof (Z.mod_pos_bound (r / 4096) 64 ltac:(lia)) as Hm.
  split.
  - cbn. unfold cont. split; [| lia]. Z.div_mod_to_equations. lia.
  - repeat (apply List.Forall_cons; [lia |]). apply List.Forall_nil.
Qed.

Lemma byteOf_range (c : ascii) : (0 <= byteOf c < 256)%Z.
Proof.
  unfold byteOf. pose proof (N_ascii_bounded c). lia.
Qed.

Lemma index_range (s : string) (i : nat) : (0 <= index s i < 256)%Z.
Proof.
  unfold index. destruct (String.get i s); [apply byteOf_range | lia].
Qed.

Ltac first_cases :=
  unfold first;
  repeat match goal with
         | |- context [(?a <? ?b)%Z] => destruct (Z.ltb_spec a b); try lia
         | |- context [(?a =? ?b)%Z] => destruct (Z.eqb_spec a b); try lia
         end;
  try reflexivity.

Lemma validLoop_eq (k : nat) (c : ascii) (rest : string) :
  validLoop (S k) (String c rest) =
    let s := String c rest in
    let n := Z.of_nat (String.length s) in
    let si := byteOf c in
    if (si <? RuneSelf)%Z then validLoop k (from 1 s) else
    let x := first si in
    if (x =? xx)%Z then false else
    let size := Z.land x 7 in
    if (size >? n)%Z then false else
    let accept := acceptRanges (Z.shiftr x 4) in
    let c1 := index s 1 in
    if (c1 <? fst accept)%Z || (snd accept <? c1)%Z then false
    else if (size =? 2)%Z then validLoop k (from (Z.to_nat size) s)
    else let c2 := index s 2 in
      if (c2 <? locb)%Z || (hicb <? c2)%Z then false
      else if (size =? 3)%Z then validLoop k (from (Z.to_nat size) s)
      else let c3 := index s 3 in
        if (c3 <? locb)%Z || (hicb <? c3)%Z then false
        else validLoop k (from (Z.to_nat size) s).
Proof. reflexivity. Qed.

Lemma valid_1 (f : nat) (b0 : Z) (rest : string) :
  (0 <= b0 < 0x80)%Z ->
  validLoop (S f) (String (charOf b0) rest) = validLoop f rest.
Proof.
  intros H. rewrite validLoop_eq. cbv zeta.
  rewrite byteOf_charOf by lia. unfold RuneSelf.
  destruct (Z.ltb_spec b0 128); [reflexivity | lia].
Qed.

Lemma valid_2 (f : nat) (b0 b1 : Z) (rest : string) (lo hi : Z) :
  (0x80 <= b0 < 256)%Z -> (0 <= b1 < 256)%Z ->
  (first b0 =? xx)%Z = false ->
  Z.land (first b0) 7 = 2%Z ->
  acceptRanges (Z.shiftr (first b0) 4) = (lo, hi) ->
  (lo <= b1 <= hi)%Z ->
  validLoop (S f) (String (charOf b0) (String (charOf b1) rest))
    = validLoop f rest.
Proof.
  intros H0 H1 Hx Hsz Hacc Hb1. rewrite validLoop_eq. cbv zeta.
  unfold index. cbn [String.get String.length].
  rewrite !byteOf_charOf by lia. unfold RuneSelf.
  destruct (Z.ltb_spec b0 128); [lia |].
  rewrite Hx, Hsz, Hacc. cbn [fst snd].
  destruct (Z.gtb_spec 2 (Z.of_nat (S (S (String.length rest))))); [lia |].
  destruct (Z.ltb_spec b1 lo); [lia |].
  destruct (Z.ltb_spec hi b1); [lia |].
  reflexivity.
Qed.

Lemma valid_3 (f : nat) (b0 b1 b2 : Z) (rest : string) (lo hi : Z) :
  (0x80 <= b0 < 256)%Z -> (0 <= b1 < 256)%Z -> (0 <= b2 < 256)%Z ->
  (first b0 =? xx)%Z = false ->
  Z.land (first b0) 7 = 3%Z ->
  acceptRanges (Z.shiftr (first b0) 4) = (lo, hi) ->
  (lo <= b1 <= hi)%Z -> cont b2 ->
  validLoop (S f) (String (charOf b0) (String (charOf b1) (String (charOf b2) rest)))
    = validLoop f rest.
Proof.
  intros H0 H1 H2 Hx Hsz Hacc Hb1 Hb2. unfold cont in Hb2.
  rewrite validLoop_eq. cbv zeta.
  unfold index. cbn [String.get String.length].
  rewrite !byteOf_charOf by lia. unfold RuneSelf, locb, hicb.
  destruct (Z.ltb_spec b0 128); [lia |].
  rewrite Hx, Hsz, Hacc. cbn [fst snd].
  destruct (Z.gtb_spec 3 (Z.of_nat (S (S (S (String.length rest)))))); [lia |].
  destruct (Z.ltb_spec b1 lo); [lia |].
  destruct (Z.ltb_spec hi b1); [lia |].
  destruct (Z.ltb_spec b2 128); [lia |].
  destruct (Z.ltb_spec 191 b2); [lia |].
  reflexivity.
Qed.

Lemma valid_4 (f : nat) (b0 b1 b2 b3 : Z) (rest : string) (lo hi : Z) :
  (0x80 <= b0 < 256)%Z -> (0 <= b1 < 256)%Z -> (0 <= b2 < 256)%Z ->
  (0 <= b3 < 256)%Z ->
  (first b0 =? xx)%Z = false ->
  Z.land (first b0) 7 = 4%Z ->
  acceptRanges (Z.shiftr (first b0) 4) = (lo, hi) ->
  (lo <= b1 <= hi)%Z -> cont b2 -> cont b3 ->
  validLoop (S f)
    (String (charOf b0) (String (charOf b1) (String (charOf b2)
       (String (charOf b3) rest))))
    = validLoop f rest.
Proof.
  intros H0 H1 H2 H3 Hx Hsz Hacc Hb1 Hb2 Hb3. unfold cont in Hb2, Hb3.
  rewrite validLoop_eq. cbv zeta.
  unfold index. cbn [String.get String.length].
  rewrite !byteOf_charOf by lia. unfold RuneSelf, locb, hicb.
  destruct (Z.ltb_spec b0 128); [lia |].
  rewrite Hx, Hsz, Hacc. cbn [fst snd].
  destruct (Z.gtb_spec 4 (Z.of_nat (S (S (S (S (String.length rest))))))); [lia |].
  destruct (Z.ltb_spec b1 lo); [lia |].
  destruct (Z.ltb_spec hi b1); [lia |].
  destruct (Z.ltb_spec b2 128); [lia |].
  destruct (Z.ltb_spec 191 b2); [lia |].
  destruct (Z.ltb_spec b3 128); [lia |].
  destruct (Z.ltb_spec 191 b3); [lia |].
  reflexivity.
Qed.

Lemma first_s1 (b : Z) : (0xC2 <= b <= 0xDF)%Z -> first b = s1.
Proof. intros H. first_cases. Qed.
Lemma first_s2 (b : Z) : b = 0xE0%Z -> first b = s2.
Proof. intros H. first_cases. Qed.
Lemma first_s3 (b : Z) :
  (0xE1 <= b <= 0xEC \/ 0xEE <= b <= 0xEF)%Z -> first b = s3.
Proof. intros H. first_cases. Qed.
Lemma first_s4 (b : Z) : b = 0xED%Z -> first b = s4.
Proof. intros H. first_cases. Qed.
Lemma first_s5 (b : Z) : b = 0xF0%Z -> first b = s5.
Proof. intros H. first_cases. Qed.
Lemma first_s6 (b : Z) : (0xF1 <= b <= 0xF3)%Z -> first b = s6.
Proof. intros H. first_cases. Qed.
Lemma first_s7 (b : Z) : b = 0xF4%Z -> first b = s7.
Proof. intros H. first_cases. Qed.

Lemma valid_step (f : nat) (bs : list Z) (rest : string) :
  wellFormed bs -> Forall (fun b => 0 <= b < 256)%Z bs ->
  validLoop (S f) (bytes bs +:+ rest) = validLoop f rest.
Proof.
  intros Hwf Hall.
  destruct bs as [| b0 [| b1 [| b2 [| b3 [| b4 bs]]]]]; cbn in Hwf;
    try contradiction.
  - apply valid_1. exact Hwf.
  - destruct Hwf as [H0 H1]. unfold cont in H1.
    apply (valid_2 f b0 b1 rest locb hicb); try (unfold locb, hicb; lia);
      rewrite first_s1 by lia; reflexivity.
  - destruct Hwf as [H01 H2].
    inversion Hall as [| ? ? R0 Hall1]; subst.
    inversion Hall1 as [| ? ? R1 Hall2]; subst.
    inversion Hall2 as [| ? ? R2 _]; subst.
    destruct H01 as [[-> H1] | [[H0 H1] | [[-> H1] | [H0 H1]]]];
      unfold cont in H1.
    + apply (valid_3 f _ b1 b2 rest 0xA0 hicb); try assumption;
        try (unfold hicb; lia); reflexivity.
    + apply (valid_3 f b0 b1 b2 rest locb hicb); try assumption;
        try (unfold locb, hicb; lia); rewrite first_s3 by lia; reflexivity.
    + apply (valid_3 f _ b1 b2 rest locb 0x9F); try assumption;
        try (unfold locb; lia); reflexivity.
    + apply (valid_3 f b0 b1 b2 rest locb hicb); try assumption;
        try (unfold locb, hicb; lia); rewrite first_s3 by lia; reflexivity.
  - destruct Hwf as [H01 [H2 H3]].
    inversion Hall as [| ? ? R0 Hall1]; subst.
    inversion Hall1 as [| ? ? R1 Hall2]; subst.
    inversion Hall2 as [| ? ? R2 Hall3]; subst.
    inversion Hall3 as [| ? ? R3 _]; subst.
    destruct H01 as [[-> H1] | [[H0 H1] | [-> H1]]]; unfold cont in H1.
    + apply (valid_4 f _ b1 b2 b3 rest 0x90 hicb); try assumption;
        try (unfold hicb; lia); reflexivity.
    + apply (valid_4 f b0 b1 b2 b3 rest locb hicb); try assumption;
        try (unfold locb, hicb; lia); rewrite first_s6 by lia; reflexivity.
    + apply (valid_4 f _ b1 b2 b3 rest locb 0x8F); try assumption;
        try (unfold locb; lia); reflexivity.
Qed.

Lemma lor_bound (x y : Z) :
  (0 <= x)%Z -> (0 <= y)%Z -> (0 <= Z.lor x y <= x + y)%Z.
Proof.
  intros Hx Hy.
  pose proof (Z.add_lor_land x y) as Hadd.
  assert (0 <= Z.land x y)%Z by (apply Z.land_nonneg; lia).
  assert (0 <= Z.lor x y)%Z by (apply Z.lor_nonneg; lia).
  lia.
Qed.

Lemma land_mask (x : Z) (n : Z) :
  (0 <= n)%Z -> (0 <= Z.land x (Z.ones n) < 2 ^ n)%Z.
Proof.
  intros Hn. rewrite Z.land_ones by lia. apply Z.mod_pos_bound. lia.
Qed.

Lemma first_kinds (b : Z) :
  (b < 0x80 /\ first b = as')%Z \/ (0x80 <= b /\ first b = xx)%Z \/
  (first b < as')%Z.
Proof.
  unfold first.
  repeat match goal with
         | |- context [(?a <? ?b)%Z] => destruct (Z.ltb_spec a b)
         | |- context [(?a =? ?b)%Z] => destruct (Z.eqb_spec a b)
         end;
    first [left; split; [lia | reflexivity]
          | right; left; split; [lia | reflexivity]
          | right; right; reflexivity].
Qed.

Lemma DecodeRuneInString_range (s : string) :
  (0 <= fst (DecodeRuneInString s) < 2 ^ 31)%Z.
Proof.
  assert (HE : (0 <= RuneError < 2 ^ 31)%Z) by (unfold RuneError; lia).
  unfold DecodeRuneInString. cbv zeta.
  destruct (_ <? 1)%Z; [exact HE |].
  pose proof (index_range s 0) as R0. pose proof (index_range s 1) as R1.
  pose proof (index_range s 2) as R2. pose proof (index_range s 3) as R3.
  pose proof (land_mask (index s 0) 5 ltac:(lia)) as M2.
  pose proof (land_mask (index s 0) 4 ltac:(lia)) as M3.
  pose proof (land_mask (index s 0) 3 ltac:(lia)) as M4.
  pose proof (land_mask (index s 1) 6 ltac:(lia)) as X1.
  pose proof (land_mask (index s 2) 6 ltac:(lia)) as X2.
  pose proof (land_mask (index s 3) 6 ltac:(lia)) as X3.
  change (Z.ones 5) with mask2 in M2. change (Z.ones 4) with mask3 in M3.
  change (Z.ones 3) with mask4 in M4. change (Z.ones 6) with maskx in X1, X2, X3.
  destruct (first_kinds (index s 0)) as [[Hb Hf] | [[Hb Hf] | Hf]].
  - rewrite Hf. change (as' >=? as')%Z with true. cbv iota.
    change (Z.shiftr (rune (Z.shiftl as' 31)) 31) with 0%Z.
    change (Z.lnot 0) with (-1)%Z.
    rewrite Z.land_m1_r, Z.land_0_r, Z.lor_0_r. cbn [fst]. lia.
  - rewrite Hf. change (xx >=? as')%Z with true. cbv iota.
    change (Z.shiftr (rune (Z.shiftl xx 31)) 31) with (-1)%Z.
    change (Z.lnot (-1)) with 0%Z.
    rewrite Z.land_m1_r, Z.land_0_r, Z.lor_0_l. cbn [fst]. exact HE.
  - destruct (Z.geb_spec (first (index s 0)) as'); [lia |].
    destruct (_ <? _)%Z; [exact HE |].
    destruct (_ || _); [exact HE |].
    rewrite !Z.shiftl_mul_pow2 by lia.
    destruct (_ <=? 2)%Z.
    { cbn [fst].
      pose proof (lor_bound (Z.land (index s 0) mask2 * 2 ^ 6)
                    (Z.land (index s 1) maskx) ltac:(lia) ltac:(lia)).
      lia. }
    destruct (_ || _); [exact HE |].
    destruct (_ <=? 3)%Z.
    { cbn [fst].
      pose proof (lor_bound (Z.land (index s 0) mask3 * 2 ^ 12)
                    (Z.land (index s 1) maskx * 2 ^ 6) ltac:(lia) ltac:(lia)).
      pose proof (lor_bound
                    (Z.lor (Z.land (index s 0) mask3 * 2 ^ 12)
                       (Z.land (index s 1) maskx * 2 ^ 6))
                    (Z.land (index s 2) maskx) ltac:(lia) ltac:(lia)).
      lia. }
    destruct (_ || _); [exact HE |].
    cbn [fst].
    pose proof (lor_bound (Z.land (index s 0) mask4 * 2 ^ 18)
                  (Z.land (index s 1) maskx * 2 ^ 12) ltac:(lia) ltac:(lia)).
    pose proof (lor_bound
                  (Z.lor (Z.land (index s 0) mask4 * 2 ^ 18)
                     (Z.land (index s 1) maskx * 2 ^ 12))
                  (Z.land (index s 2) maskx * 2 ^ 6) ltac:(lia) ltac:(lia)).
    pose proof (lor_bound
                  (Z.lor (Z.lor (Z.land (index s 0) mask4 * 2 ^ 18)
                            (Z.land (index s 1) maskx * 2 ^ 12))
                     (Z.land (index s 2) maskx * 2 ^ 6))
                  (Z.land (index s 3) maskx) ltac:(lia) ltac:(lia)).
    lia.
Qed.

Lemma length_bytes (bs : list Z) : String.length (bytes bs) = List.length bs.
Proof. induction bs as [| b bs IH]; cbn; [reflexivity | rewrite IH; reflexivity]. Qed.

Lemma sanitizeLoop_valid (k : nat) :
  forall (s : string) (f : nat),
    (String.length (sanitizeLoop k s) <= f)%nat ->
    validLoop f (sanitizeLoop k s) = true.
Proof.
  induction k as [| k IH]; intros s f Hf.
  - destruct f; reflexivity.
  - cbn [sanitizeLoop] in *.
    destruct (_ >? 0)%Z; [| destruct f; reflexivity].
    pose proof (DecodeRuneInString_range s) as Hr.
    destruct (DecodeRuneInString s) as [r size]. cbn [fst] in Hr.
    set (written := if (r =? RuneError)%Z && (size =? 1)%Z
                    then AppendRune 65533 else AppendRune r) in *.
    assert (Hw : exists bs, written = bytes bs /\ wellFormed bs /\
                            Forall (fun b => 0 <= b < 256)%Z bs).
    { subst written. destruct (_ && _); apply AppendRune_wellFormed; lia. }
    destruct Hw as (bs & Hbs & Hwf & Hall). rewrite Hbs in *.
    rewrite length_append, length_bytes in Hf.
    assert (Hlen : (1 <= List.length bs)%nat).
    { destruct bs; [contradiction | cbn; lia]. }
    destruct f as [| f]; [lia |].
    rewrite valid_step by assumption. apply IH. lia.
Qed.

Lemma sanitizeUTF8_valid (s : string) : ValidString (sanitizeUTF8 s) = true.
Proof.
  unfold sanitizeUTF8. destruct (ValidString s) eqn:Hv; [exact Hv |].
  unfold ValidString. apply sanitizeLoop_valid. lia.
Qed.

Lemma sanitizeUTF8_of_valid (s : string) :
  ValidString s = true -> sanitizeUTF8 s = s.
Proof. intros H. unfold sanitizeUTF8. rewrite H. reflexivity. Qed.

Lemma sanitizeUTF8_twice (s : string) :
  sanitizeUTF8 (sanitizeUTF8 s) = sanitizeUTF8 s.
Proof. apply sanitizeUTF8_of_valid, sanitizeUTF8_valid. Qed.

Lemma length_from (n : nat) :
  forall s : string, (String.length (from n s) <= String.length s - n)%nat.
Proof.
  induction n as [| n IH]; intros s; cbn [from]; [lia |].
  destruct s as [| c s]; cbn [String.length]; [lia |].
  specialize (IH s). lia.
Qed.

Lemma first_size (b : Z) :
  (first b =? xx)%Z = false -> (0x80 <= b)%Z ->
  (2 <= Z.land (first b) 7 <= 4)%Z.
Proof.
  unfold first.
  repeat match goal with
         | |- context [(?a <? ?b)%Z] => destruct (Z.ltb_spec a b)
         | |- context [(?a =? ?b)%Z] => destruct (Z.eqb_spec a b)
         end;
    intros Hx Hb; try lia; try discriminate Hx; vm_compute; split; discriminate.
Qed.

(** Fuel: the length of the string is enough for the loop of [ValidString],
    and more changes nothing. *)
Lemma validLoop_fuel (f : nat) :
  forall s : string,
    (String.length s <= f)%nat -> validLoop (S f) s = validLoop f s.
Proof.
  induction f as [| f IH]; intros s Hlen.
  - destruct s; [reflexivity | cbn in Hlen; lia].
  - destruct s as [| c s]; [reflexivity |].
    cbn [String.length] in Hlen.
    rewrite (validLoop_eq (S f)), (validLoop_eq f). cbv zeta.
    destruct (_ <? RuneSelf)%Z eqn:Hascii.
    { apply IH. cbn [from]. lia. }
    destruct (_ =? xx)%Z eqn:Hx; [reflexivity |].
    assert (Hsz : (2 <= Z.land (first (byteOf c)) 7 <= 4)%Z).
    { apply first_size; [exact Hx |]. unfold RuneSelf in Hascii. lia. }
    assert (Hrest : (String.length
                       (from (Z.to_nat (Z.land (first (byteOf c)) 7)) (String c s))
                     <= f)%nat).
    { pose proof (length_from (Z.to_nat (Z.land (first (byteOf c)) 7))
                   (String c s)) as Hl.
      cbn [String.length] in Hl. lia. }
    repeat match goal with
           | |- (if ?c then _ else _) = (if ?c then _ else _) => destruct c
           end;
      try reflexivity; apply IH; exact Hrest.
Qed.

Lemma validLoop_enough (s : string) (f : nat) :
  (String.length s <= f)%nat -> validLoop f s = ValidString s.
Proof.
  unfold ValidString. induction 1 as [| f Hle IH]; [reflexivity |].
  rewrite validLoop_fuel by exact Hle. exact IH.
Qed.

Lemma DecodeRuneInString_size (s : string) :
  (1 <= String.length s)%nat -> (1 <= snd (DecodeRuneInString s) <= 4)%Z.
Proof.
  intros Hlen. unfold DecodeRuneInString. cbv zeta.
  destruct (Z.ltb_spec (Z.of_nat (String.length s)) 1); [lia |].
  repeat match goal with
         | |- context [if ?c then _ else _] => destruct c
         end;
    cbn [snd]; lia.
Qed.

Lemma sanitizeLoop_fuel (f : nat) :
  forall s : string,
    (String.length s <= f)%nat -> sanitizeLoop (S f) s = sanitizeLoop f s.
Proof.
  induction f as [| f IH]; intros s Hlen.
  - destruct s; [reflexivity | cbn in Hlen; lia].
  - change (sanitizeLoop (S (S f)) s) with
      (if (Z.of_nat (String.length s) >? 0)%Z then
         let '(r, size) := DecodeRuneInString s in
         let written :=
           if (r =? RuneError)%Z && (size =? 1)%Z
           then AppendRune 0xFFFD else AppendRune r in
         written +:+ sanitizeLoop (S f) (from (Z.to_nat size) s)
       else EmptyString).
    change (sanitizeLoop (S f) s) with
      (if (Z.of_nat (String.length s) >? 0)%Z then
         let '(r, size) := DecodeRuneInString s in
         let written :=
           if (r =? RuneError)%Z && (size =? 1)%Z
           then AppendRune 0xFFFD else AppendRune r in
         written +:+ sanitizeLoop f (from (Z.to_nat size) s)
       else EmptyString).
    destruct (Z.gtb_spec (Z.of_nat (String.length s)) 0) as [Hpos |];
      [| reflexivity].
    pose proof (DecodeRuneInString_size s ltac:(lia)) as Hsize.
    destruct (DecodeRuneInString s) as [r size]. cbn [snd] in Hsize.
    cbv zeta. f_equal. apply IH.
    pose proof (length_from (Z.to_nat size) s). lia.
Qed.

Lemma sanitizeLoop_enough (s : string) (f : nat) :
  (String.length s <= f)%nat ->
  sanitizeLoop f s = sanitizeLoop (String.length s) s.
Proof.
  induction 1 as [| f Hle IH]; [reflexivity |].
  rewrite sanitizeLoop_fuel by exact Hle. exact IH.
Qed.

Lemma length_filler (n : nat) : String.length (sample.filler n) = n.
Proof. induction n as [| n IH]; cbn; [reflexivity | rewrite IH; reflexivity]. Qed.

Lemma DecodeRuneInString_ascii (b : Z) (rest : string) :
  (0 <= b < 0x80)%Z ->
  DecodeRuneInString (String (charOf b) rest) = (b, 1%Z).
Proof.
  intros Hb. unfold DecodeRuneInString. cbv zeta.
  cbn [String.length]. unfold index. cbn [String.get].
  rewrite byteOf_charOf by lia.
  destruct (Z.ltb_spec (Z.of_nat (S (String.length rest))) 1); [lia |].
  assert (Hf : first b = as') by first_cases.
  rewrite Hf. change (as' >=? as')%Z with true. cbv iota.
  change (Z.shiftr (rune (Z.shiftl as' 31)) 31) with 0%Z.
  change (Z.lnot 0) with (-1)%Z.
  rewrite Z.land_m1_r, Z.land_0_r, Z.lor_0_r. reflexivity.
Qed.

Lemma AppendRune_ascii (b : Z) :
  (0 <= b < 0x80)%Z -> AppendRune b = String (charOf b) EmptyString.
Proof.
  intros Hb. unfold AppendRune, uint32, rune1Max, byte.
  rewrite (Z.mod_small b (2 ^ 32)) by lia.
  destruct (Z.leb_spec b (2 ^ 7 - 1)); [| lia].
  rewrite Z.mod_small by lia. reflexivity.
Qed.

Lemma ValidString_filler (n : nat) (t : string) :
  ValidString (sample.filler n +:+ t) = ValidString t.
Proof.
  induction n as [| n IH]; [reflexivity |].
  rewrite <- IH. unfold ValidString.
  cbn [sample.filler]. change (String "a" (sample.filler n) +:+ t)
    with (String (charOf 97) (sample.filler n +:+ t)).
  cbn [String.length]. apply valid_1. lia.
Qed.

Lemma sanitizeLoop_filler (n : nat) (f : nat) (t : string) :
  sanitizeLoop (n + f) (sample.filler n +:+ t)
    = sample.filler n +:+ sanitizeLoop f t.
Proof.
  induction n as [| n IH]; [reflexivity |].
  cbn [sample.filler Nat.add]. change (String "a" (sample.filler n) +:+ t)
    with (String (charOf 97) (sample.filler n +:+ t)).
  cbn [sanitizeLoop]. cbn [String.length].
  destruct (Z.gtb_spec (Z.of_nat (S (String.length (sample.filler n +:+ t)))) 0);
    [| lia].
  rewrite DecodeRuneInString_ascii by lia.
  change ((97 =? RuneError)%Z && (1 =? 1)%Z) with false. cbv iota.
  rewrite AppendRune_ascii by lia.
  change (from (Z.to_nat 1) (String (charOf 97) (sample.filler n +:+ t)))
    with (sample.filler n +:+ t).
  rewrite IH. reflexivity.
Qed.

Lemma sanitizeUTF8_filler (n : nat) (t : string) :
  sanitizeUTF8 (sample.filler n +:+ t) = sample.filler n +:+ sanitizeUTF8 t.
Proof.
  unfold sanitizeUTF8. rewrite ValidString_filler.
  destruct (ValidString t); [reflexivity |].
  rewrite length_append, length_filler. apply sanitizeLoop_filler.
Qed.

End utf8_facts.

Lemma append_empty (s : string) : s +:+ "" = s.
Proof.
  induction s as [| c s IH]; [reflexivity |].
  change (String c s +:+ "") with (String c (s +:+ "")). rewrite IH. reflexivity.
Qed.

Lemma executeCommand_strings (sanitizeUTF8 : string -> string)
    (stdout stderr : string) (runErr : bool) (outputFile : option string)
    (out err : string) :
  truncateString (sanitizeUTF8 stdout) 10000 = Some out ->
  truncateString (sanitizeUTF8 stderr) 10000 = Some err ->
  executeCommand sanitizeUTF8 stdout stderr runErr outputFile =
    Some (if runErr then (mkCommandResult None out err false, true)
          else match outputFile with
               | Some data => (mkCommandResult (Some data) out err true, false)
               | None =>
                   if (0 <? String.length stdout)%nat
                   then (mkCommandResult (Some stdout) out err false, false)
                   else (mkCommandResult None out err false, false)
               end).
Proof.
  intros Ho He. unfold executeCommand. rewrite Ho, He. cbn.
  destruct runErr; [reflexivity |].
  destruct outputFile; [reflexivity |].
  destruct (String.length stdout); reflexivity.
Qed.

(** The input of a job is ready when none is asked for, or when it is
    downloaded from a presigned URL without error. *)
Lemma processJob_strings (sanitizeUTF8 : string -> string)
    (processForwardJob : Assigned -> list JobStatus)
    (c : Client) (assigned : Assigned) (run : Run) :
  Assigned_JobType assigned <> JobTypeEnum_JOB_TYPE_FORWARD_HTTP ->
  exists final out err,
    processJob sanitizeUTF8 processForwardJob c assigned run
      = Some (triggerRequestJob (decrementRunningJobs c),
              [reportJobStatus sanitizeUTF8 (Assigned_JobId assigned)
                 (Assigned_AttemptId assigned) JobStatusEnum_JOB_STATUS_RUNNING
                 "Processing job" "";
               final]) /\
    truncateString (sanitizeUTF8 (cmdStdout run)) 10000 = Some out /\
    truncateString (sanitizeUTF8 (cmdStderr run)) 10000 = Some err /\
    ((JobStatus_Stdout final = sanitizeUTF8 out /\
      JobStatus_Stderr final = sanitizeUTF8 err) \/
     (JobStatus_Status final = JobStatusEnum_JOB_STATUS_FAILED /\
      JobStatus_Stdout final = sanitizeUTF8 "" /\
      JobStatus_Stderr final = sanitizeUTF8 "")) /\
    (Assigned_Command assigned <> "" ->
     (Assigned_InputKey assigned = "" \/
      Assigned_InputDownload assigned = None \/
      exists url file,
        Assigned_InputDownload assigned = Some (OSSAccess_PresignedUrl url) /\
        downloadInputToFile run = inl file) ->
     JobStatus_Stdout final = sanitizeUTF8 out /\
     JobStatus_Stderr final = sanitizeUTF8 err) /\
    (JobStatus_Status final = JobStatusEnum_JOB_STATUS_SUCCEEDED ->
     JobStatus_Stdout final = sanitizeUTF8 out /\
     JobStatus_Stderr final = sanitizeUTF8 err).
Proof.
  intros Htype.
  destruct (truncateString_10000 (sanitizeUTF8 (cmdStdout run))) as [out Ho].
  destruct (truncateString_10000 (sanitizeUTF8 (cmdStderr run))) as [err He].
  unfold processJob.
  destruct (Z.eqb_spec (Assigned_JobType assigned)
              JobTypeEnum_JOB_TYPE_FORWARD_HTTP); [contradiction |].
  destruct (String.eqb_spec (Assigned_Command assigned) "") as [| Hcmd].
  { eexists. exists out, err. split; [reflexivity |].
    split; [exact Ho |]. split; [exact He |].
    split; [right; cbn; auto |].
    split; [intros Hc; contradiction | intros Hs; discriminate Hs]. }
  match goal with
  | |- context [match ?input with inl _ => _ | inr _ => _ end] =>
      assert (Hin : (exists f, input = inl f) \/
                    (exists r, input = inr r /\
                       JobStatus_Status r = JobStatusEnum_JOB_STATUS_FAILED /\
                       JobStatus_Stdout r = sanitizeUTF8 "" /\
                       JobStatus_Stderr r = sanitizeUTF8 "" /\
                       ~ (Assigned_InputKey assigned = "" \/
                          Assigned_InputDownload assigned = None \/
                          exists url file,
                            Assigned_InputDownload assigned
                              = Some (OSSAccess_PresignedUrl url) /\
                            downloadInputToFile run = inl file)));
      [| destruct Hin as [[f ->] | (r & -> & H1 & H2 & H3 & H4)]]
  end.
  { destruct (Assigned_InputDownload assigned) as [[url | |] |]; [| | | eauto].
    - destruct (String.eqb_spec (Assigned_InputKey assigned) "") as [| Hkey];
        cbn [negb]; [eauto |].
      destruct (downloadInputToFile run) eqn:Hdl; [eauto |].
      right. eexists. split; [reflexivity |]. cbn.
      repeat split; try reflexivity.
      intros [Hk | [Hn | (u & file & _ & Hf)]];
        [contradiction | discriminate Hn | discriminate Hf].
    - destruct (String.eqb_spec (Assigned_InputKey assigned) "") as [| Hkey];
        cbn [negb]; [eauto |].
      right. eexists. split; [reflexivity |]. cbn.
      repeat split; try reflexivity.
      intros [Hk | [Hn | (u & file & Hu & _)]];
        [contradiction | discriminate Hn | discriminate Hu].
    - destruct (String.eqb_spec (Assigned_InputKey assigned) "") as [| Hkey];
        cbn [negb]; [eauto |].
      right. eexists. split; [reflexivity |]. cbn.
      repeat split; try reflexivity.
      intros [Hk | [Hn | (u & file & Hu & _)]];
        [contradiction | discriminate Hn | discriminate Hu]. }
  2:{ exists r, out, err. split; [reflexivity |].
      split; [exact Ho |]. split; [exact He |].
      split; [right; auto |].
      split; [intros _ Hready; contradiction |].
      intros Hs. rewrite H1 in Hs. discriminate Hs. }
  rewrite (executeCommand_strings sanitizeUTF8 (cmdStdout run) (cmdStderr run)
             (match cmdRun run with Some _ => true | None => false end)
             (readOutputFile run) out err Ho He).
  assert (Hgoal : forall status message key,
            let final := reportJobStatusWithOutput sanitizeUTF8
                           (Assigned_JobId assigned) (Assigned_AttemptId assigned)
                           status message key out err in
            JobStatus_Stdout final = sanitizeUTF8 out /\
            JobStatus_Stderr final = sanitizeUTF8 err).
  { intros status message key. split; reflexivity. }
  destruct (cmdRun run) as [e |].
  { eexists. exists out, err. split; [reflexivity |].
    split; [exact Ho |]. split; [exact He |]. cbn [Stdout Stderr].
    split; [left; apply Hgoal |]. split; intros; apply Hgoal. }
  destruct (readOutputFile run) as [data |].
  - cbn [HasOutputFile lenOutputData OutputData andb Stdout Stderr].
    destruct (_ >? 0)%Z.
    + destruct (Assigned_OutputUpload assigned) as [[url | |] |];
        try (eexists; exists out, err; split; [reflexivity |];
             split; [exact Ho |]; split; [exact He |];
             split; [left; apply Hgoal |]; split; intros; apply Hgoal).
      destruct (uploadOutput run);
        (eexists; exists out, err; split; [reflexivity |];
         split; [exact Ho |]; split; [exact He |];
         split; [left; apply Hgoal |]; split; intros; apply Hgoal).
    + eexists. exists out, err. split; [reflexivity |].
      split; [exact Ho |]. split; [exact He |].
      split; [left; apply Hgoal |]. split; intros; apply Hgoal.
  - destruct (0 <? String.length (cmdStdout run))%nat;
      cbn [HasOutputFile andb Stdout Stderr];
      (eexists; exists out, err; split; [reflexivity |];
       split; [exact Ho |]; split; [exact He |];
       split; [left; apply Hgoal |]; split; intros; apply Hgoal).
Qed.

Lemma processJob_command_only (sanitizeUTF8 : string -> string)
    (processForwardJob : Assigned -> list JobStatus)
    (c : Client) (assigned : Assigned) (run : Run) (out err : string) :
  Assigned_JobType assigned <> JobTypeEnum_JOB_TYPE_FORWARD_HTTP ->
  Assigned_Command assigned <> "" ->
  Assigned_InputKey assigned = "" ->
  cmdRun run = None ->
  readOutputFile run = None ->
  truncateString (sanitizeUTF8 (cmdStdout run)) 10000 = Some out ->
  truncateString (sanitizeUTF8 (cmdStderr run)) 10000 = Some err ->
  processJob sanitizeUTF8 processForwardJob c assigned run
    = Some (triggerRequestJob (decrementRunningJobs c),
            [reportJobStatus sanitizeUTF8 (Assigned_JobId assigned)
               (Assigned_AttemptId assigned) JobStatusEnum_JOB_STATUS_RUNNING
               "Processing job" "";
             reportJobStatusWithOutput sanitizeUTF8 (Assigned_JobId assigned)
               (Assigned_AttemptId assigned) JobStatusEnum_JOB_STATUS_SUCCEEDED
               "" "" out err]).
Proof.
  intros Htype Hcmd Hkey Hrun Hread Ho He. unfold processJob.
  destruct (Z.eqb_spec (Assigned_JobType assigned)
              JobTypeEnum_JOB_TYPE_FORWARD_HTTP); [contradiction |].
  destruct (String.eqb_spec (Assigned_Command assigned) ""); [contradiction |].
  rewrite Hkey. change (negb ("" =? "")) with false. cbv iota.
  rewrite (executeCommand_strings sanitizeUTF8 (cmdStdout run) (cmdStderr run)
             (match cmdRun run with Some _ => true | None => false end)
             (readOutputFile run) out err Ho He).
  rewrite Hrun, Hread.
  destruct (Assigned_InputDownload assigned);
    destruct (0 <? String.length (cmdStdout run))%nat; reflexivity.
Qed.

Lemma sample_truncations :
  truncateString sample.output10001 10000
    = Some (sample.output10000 +:+ "... (truncated)") /\
  truncateString sample.splitOutput 10000
    = Some (sample.filler (Z.to_nat 9999) +:+ utf8.bytes [0xC3]
            +:+ "... (truncated)").
Proof. split; vm_compute; reflexivity. Qed.

Lemma sample_captures_are_valid :
  utf8.ValidString sample.output10001 = true /\
  utf8.ValidString sample.splitOutput = true.
Proof.
  split.
  - unfold sample.output10001.
    rewrite <- (append_empty (sample.filler (Z.to_nat 10001))).
    rewrite ValidString_filler. reflexivity.
  - unfold sample.splitOutput. rewrite ValidString_filler.
    vm_compute. reflexivity.
Qed.


